(** * Quantum-Neural-States: the static-site build script [.scripts/build_site.py]

    A shallow embedding of the script and the properties of its
    specification.

    Conventions of the embedding.
    - A Python [str] is a [string]; its characters are the code points
      below 256, compared by code point as Python compares them.
    - A [pathlib.Path] is the list of its components from the filesystem
      root ([path]); paths are absolute and free of symbolic links, as [main]
      produces them with [resolve()], so that [resolve] is the identity.
    - The filesystem is a finite map from paths to objects; the clock and the
      external converter are oracles of the world. *)

From Stdlib Require Import String Ascii List Arith Lia DecimalString.
From stdpp Require Import gmap strings list sorting.

Local Open Scope list_scope.

(** ** Strings *)

Module Str.

(** [s.startswith(p)] *)
Fixpoint startswith (p s : string) : bool :=
  match p with
  | EmptyString => true
  | String a p' =>
      match s with
      | EmptyString => false
      | String b s' => Ascii.eqb a b && startswith p' s'
      end
  end.

(** [sub in s] *)
Fixpoint contains (sub s : string) : bool :=
  startswith sub s ||
  match s with
  | EmptyString => false
  | String _ s' => contains sub s'
  end.

(** The scan of [str.replace] for a non-empty [old]: [skip] counts the
    characters of the occurrence found last that are still to be passed. *)
Fixpoint replace_from (old new : string) (skip : nat) (s : string) : string :=
  match s with
  | EmptyString => EmptyString
  | String c s' =>
      match skip with
      | S k => replace_from old new k s'
      | O =>
          if startswith old s
          then new +:+ replace_from old new (String.length old - 1) s'
          else String c (replace_from old new 0 s')
      end
  end.

Fixpoint interleave (new s : string) : string :=
  match s with
  | EmptyString => EmptyString
  | String c s' => String c (new +:+ interleave new s')
  end.

(** [s.replace(old, new)]: every occurrence of [old], leftmost first and
    without overlap; an empty [old] matches between any two characters. *)
Definition replace (old new s : string) : string :=
  match old with
  | EmptyString => new +:+ interleave new s
  | _ => replace_from old new 0 s
  end.

(** [sep.join(l)] *)
Fixpoint join (sep : string) (l : list string) : string :=
  match l with
  | [] => EmptyString
  | [x] => x
  | x :: l' => x +:+ sep +:+ join sep l'
  end.

(** [str(n)] for a natural number. *)
Definition of_nat (n : nat) : string := NilEmpty.string_of_uint (Nat.to_uint n).

(** [str.isspace] on one character, which is what [\s] matches. *)
Definition isspace (c : ascii) : bool :=
  let n := nat_of_ascii c in
  ((9 <=? n) && (n <=? 13)) || ((28 <=? n) && (n <=? 32))
  || (n =? 133) || (n =? 160).

(** [str.lower] on one character of the Latin-1 range. *)
Definition lower_char (c : ascii) : ascii :=
  let n := nat_of_ascii c in
  if ((65 <=? n) && (n <=? 90))
     || ((192 <=? n) && (n <=? 222) && negb (n =? 215))
  then ascii_of_nat (n + 32) else c.

Fixpoint lower (s : string) : string :=
  match s with
  | EmptyString => EmptyString
  | String c s' => String (lower_char c) (lower s')
  end.

End Str.

(** ** [html.escape] and [json.dumps] *)

Definition dquote : string := String (ascii_of_nat 34) EmptyString.

(** [html.escape(s)] with [quote=True]. *)
Definition html_escape (s : string) : string :=
  let s := Str.replace "&" "&amp;" s in
  let s := Str.replace "<" "&lt;" s in
  let s := Str.replace ">" "&gt;" s in
  let s := Str.replace dquote "&quot;" s in
  Str.replace "'" "&#x27;" s.

Definition hex_digit (n : nat) : string :=
  match String.get n "0123456789abcdef" with
  | Some c => String c EmptyString
  | None => EmptyString
  end.

(** One character of a JSON string, as [json.encoder.py_encode_basestring]
    writes it ([ensure_ascii=False]): the quote, the backslash and the
    control characters are escaped, anything else is copied. *)
Definition json_escape_char (c : ascii) : string :=
  let n := nat_of_ascii c in
  if (n =? 92)%nat then "\\"
  else if (n =? 34)%nat then "\" +:+ dquote
  else if (n =? 8)%nat then "\b"
  else if (n =? 12)%nat then "\f"
  else if (n =? 10)%nat then "\n"
  else if (n =? 13)%nat then "\r"
  else if (n =? 9)%nat then "\t"
  else if (n <? 32)%nat then "\u00" +:+ hex_digit (n / 16) +:+ hex_digit (n mod 16)
  else String c EmptyString.

Fixpoint json_escape (s : string) : string :=
  match s with
  | EmptyString => EmptyString
  | String c s' => json_escape_char c +:+ json_escape s'
  end.

Definition json_str (s : string) : string := dquote +:+ json_escape s +:+ dquote.

Definition json_item (key value : string) : string :=
  json_str key +:+ ": " +:+ value.

Definition json_dict (items : list string) : string :=
  "{" +:+ Str.join ", " items +:+ "}".

Definition json_list (items : list string) : string :=
  "[" +:+ Str.join ", " items +:+ "]".

(** ** The tree of directories and notebooks *)

(** A node is the dictionary [{"type": "dir", "name", "path", "children"}]
    or [{"type": "file", "name", "path", "nb_html"}]. *)
#[local] Unset Elimination Schemes.
Inductive node : Type :=
| Dir (name path : string) (children : list node)
| File (name path nb_html : string).
#[local] Set Elimination Schemes.

Definition node_name (n : node) : string :=
  match n with Dir name _ _ => name | File name _ _ => name end.

Definition children (n : node) : list node :=
  match n with Dir _ _ ch => ch | File _ _ _ => [] end.

Definition is_file (n : node) : bool :=
  match n with File _ _ _ => true | Dir _ _ _ => false end.

Section node_induction.
Variable P : node -> Prop.
Hypothesis HDir : forall name path ch, Forall P ch -> P (Dir name path ch).
Hypothesis HFile : forall name path nb_html, P (File name path nb_html).

Fixpoint node_induction (n : node) : P n :=
  match n with
  | Dir name path ch =>
      HDir name path ch
        ((fix go (l : list node) : Forall P l :=
            match l with
            | [] => Forall_nil_2 P
            | x :: l' => Forall_cons_2 P x l' (node_induction x) (go l')
            end) ch)
  | File name path nb_html => HFile name path nb_html
  end.
End node_induction.

(** [json.dumps(tree, ensure_ascii=False)]: keys in insertion order, the
    default separators. *)
Fixpoint json_dumps (n : node) : string :=
  match n with
  | Dir name path ch =>
      json_dict [json_item "type" (json_str "dir");
                 json_item "name" (json_str name);
                 json_item "path" (json_str path);
                 json_item "children" (json_list (map json_dumps ch))]
  | File name path nb_html =>
      json_dict [json_item "type" (json_str "file");
                 json_item "name" (json_str name);
                 json_item "path" (json_str path);
                 json_item "nb_html" (json_str nb_html)]
  end.

(** The number of file nodes of a tree. *)
Fixpoint count_files (n : node) : nat :=
  match n with
  | Dir _ _ ch => list_sum (map count_files ch)
  | File _ _ _ => 1
  end.

(** Some descendant of the node, or the node itself, is a file node. *)
Fixpoint has_file (n : node) : bool :=
  match n with
  | Dir _ _ ch => existsb has_file ch
  | File _ _ _ => true
  end.

(** The loop of [prune_empty_dirs] over the children of a directory, for a
    given pruning [prune] of one child. *)
Fixpoint prune_children (prune : node -> option node * bool)
    (chs new_children : list node) (has_ipynb : bool) : list node * bool :=
  match chs with
  | [] => (new_children, has_ipynb)
  | ch :: rest =>
      let '(pruned, child_has_ipynb) := prune ch in
      let new_children :=
        match pruned with
        | Some p => new_children ++ [p]
        | None => new_children
        end in
      prune_children prune rest new_children (has_ipynb || child_has_ipynb)
  end.

(** [prune_empty_dirs(node)]: the node, or [None] for a directory without
    notebook below it, and whether a notebook was seen. *)
Fixpoint prune_empty_dirs (n : node) : option node * bool :=
  match n with
  | File _ _ _ => (Some n, true)
  | Dir name path ch =>
      let '(new_children, has_ipynb) :=
        prune_children prune_empty_dirs ch [] false in
      ((if has_ipynb then Some (Dir name path new_children) else None),
       has_ipynb)
  end.

(** ** Tokens *)

Fixpoint strip_prefix (p s : string) : option string :=
  match p with
  | EmptyString => Some s
  | String a p' =>
      match s with
      | EmptyString => None
      | String b s' => if Ascii.eqb a b then strip_prefix p' s' else None
      end
  end.

(** The greedy [\s*]. *)
Fixpoint skip_ws (s : string) : string :=
  match s with
  | EmptyString => EmptyString
  | String c s' => if Str.isspace c then skip_ws s' else s
  end.

(** A match of [\{\{\s*NAME\s*\}\}] at the start of [s]: what follows it. *)
Definition match_token (name s : string) : option string :=
  match strip_prefix "{{" s with
  | None => None
  | Some s1 =>
      match strip_prefix name (skip_ws s1) with
      | None => None
      | Some s2 => strip_prefix "}}" (skip_ws s2)
      end
  end.

(** The scan of [re.sub(pattern, lambda m: value, s)]: at each position the
    pattern is tried; a match is replaced by [value] as it is and the scan
    goes on behind the match ([skip] counts what is left of it). *)
Fixpoint sub_from (name value : string) (skip : nat) (s : string) : string :=
  match s with
  | EmptyString => EmptyString
  | String c s' =>
      match skip with
      | S k => sub_from name value k s'
      | O =>
          match match_token name s with
          | Some rest =>
              value +:+
              sub_from name value (String.length s - String.length rest - 1) s'
          | None => String c (sub_from name value 0 s')
          end
      end
  end.

Definition re_sub (name value s : string) : string := sub_from name value 0 s.

(** The value of [TREE_JSON]. *)
Definition safe_json (tree : node) : string :=
  Str.replace "</" "<\/" (json_dumps tree).

(** [render_tokens], for the reading [ts] of the clock. *)
Definition render_with (ts src title : string) (nb_count : nat)
    (tree : option node) : string :=
  let out := src in
  let out := re_sub "TITLE" (html_escape title) out in
  let out := re_sub "TIMESTAMP" ts out in
  let out := re_sub "NBCOUNT" (Str.of_nat nb_count) out in
  match tree with
  | Some t => re_sub "TREE_JSON" (safe_json t) out
  | None => out
  end.


(** ** Paths *)

Abbreviation path := (list string).

(** [p.name] *)
Definition path_name (p : path) : string := List.last p EmptyString.

(** [p.parent] *)
Definition parent (p : path) : path := removelast p.

(** The prefixes of a path, the shortest first, the path itself last. *)
Fixpoint prefixes (p : path) : list path :=
  [] :: match p with
        | [] => []
        | a :: p' => map (cons a) (prefixes p')
        end.

(** [p.parents]: the proper ancestors, the nearest first. *)
Definition parents (p : path) : list path := rev (removelast (prefixes p)).

(** [p.relative_to(base).parts]; [None] is the [ValueError]. *)
Fixpoint relative_to (p base : path) {struct base} : option path :=
  match base with
  | [] => Some p
  | b :: base' =>
      match p with
      | [] => None
      | a :: p' => if String.eqb a b then relative_to p' base' else None
      end
  end.

(** [str(p)] for a relative path. *)
Definition str_rel (p : path) : string :=
  match p with
  | [] => "."
  | _ => Str.join "/" p
  end.

(** [str(p)] for an absolute path. *)
Definition str_abs (p : path) : string := "/" +:+ Str.join "/" p.

(** [name.rfind(c)], counting from [i]. *)
Fixpoint rfind (c : ascii) (s : string) (i : nat) : option nat :=
  match s with
  | EmptyString => None
  | String x s' =>
      match rfind c s' (S i) with
      | Some j => Some j
      | None => if Ascii.eqb x c then Some i else None
      end
  end.

(** [PurePath.suffix] of a file name: from the last dot on, when that dot is
    neither the first nor the last character. *)
Definition name_suffix (name : string) : string :=
  match rfind "." name 0 with
  | Some i =>
      if (0 <? i)%nat && (i <? String.length name - 1)%nat
      then String.substring i (String.length name - i) name
      else EmptyString
  | None => EmptyString
  end.

Definition suffix (p : path) : string := name_suffix (path_name p).

(** The name that [with_suffix] gives: the old suffix, if there is one, is
    cut off and [sfx] is put in its place. *)
Definition name_with_suffix (name sfx : string) : string :=
  let old_suffix := name_suffix name in
  match old_suffix with
  | EmptyString => name +:+ sfx
  | _ =>
      String.substring 0 (String.length name - String.length old_suffix) name
      +:+ sfx
  end.

(** [p.with_suffix(sfx)] for a well-formed [sfx]; [None] is the [ValueError]
    of a path without name. *)
Definition with_suffix (p : path) (sfx : string) : option path :=
  match path_name p with
  | EmptyString => None
  | name => Some (parent p ++ [name_with_suffix name sfx])
  end.

(** The order of [PurePosixPath]: component by component, a component as a
    string. *)
Fixpoint path_leb (p q : path) : bool :=
  match p, q with
  | [], _ => true
  | _ :: _, [] => false
  | a :: p', b :: q' => if String.eqb a b then path_leb p' q' else String.leb a b
  end.

Definition path_le (p q : path) : Prop := Is_true (path_leb p q).

#[global] Instance path_le_dec : RelDecision path_le.
Proof. intros p q. unfold path_le. apply _. Defined.

(** [sorted(l)] for a list of paths. *)
Definition sorted (l : list path) : list path := merge_sort path_le l.

(** ** The world: filesystem, clock, converter *)

Inductive obj : Type :=
| DirObj
| FileObj (content : string).

(** One run of the converter: [python -m nbconvert --to html --output
    cv_output --output-dir cv_output_dir cv_input], with [--execute] or
    without. *)
Record conversion : Type := {
  cv_input : path;
  cv_output_dir : path;
  cv_output : string;
  cv_execute : bool
}.

(** The filesystem, the number of readings of the clock so far, and the runs
    of the converter so far, the oldest first. *)
Record world : Type := {
  fs : gmap (list string) obj;
  ticks : nat;
  log : list conversion
}.

Definition set_fs (w : world) (f : gmap (list string) obj) : world :=
  {| fs := f; ticks := ticks w; log := log w |}.

Record datetime : Type := {
  year : nat; month : nat; day : nat; hour : nat; minute : nat; second : nat
}.

Inductive exn : Type :=
| CalledProcessError
| FileNotFoundError
| FileExistsError
| NotADirectoryError
| IsADirectoryError
| KeyError
| ValueError.

Inductive result (A : Type) : Type :=
| Ok (a : A)
| Raise (e : exn).
Arguments Ok {A} a.
Arguments Raise {A} e.

(** A computation changes the world and returns or raises; what it did
    before raising stays done. *)
Definition M (A : Type) : Type := world -> result A * world.

Definition ret {A} (a : A) : M A := fun w => (Ok a, w).

Definition raise {A} (e : exn) : M A := fun w => (Raise e, w).

Definition bind {A B} (m : M A) (k : A -> M B) : M B :=
  fun w =>
    match m w with
    | (Ok a, w') => k a w'
    | (Raise e, w') => (Raise e, w')
    end.

Notation "'let*' x ':=' m 'in' k" := (bind m (fun x => k))
  (at level 10, x name, m at level 100, k at level 200).
Notation "'let*' ' pat ':=' m 'in' k" :=
  (bind m (fun x => match x with pat => k end))
  (at level 10, pat pattern, m at level 100, k at level 200).
Notation "'do' m 'then' k" := (bind m (fun _ => k))
  (at level 10, m at level 100, k at level 200).

Definition lift {A} (e : exn) (o : option A) : M A :=
  match o with
  | Some a => ret a
  | None => raise e
  end.

(** [for x in l: st = body(st, x)] *)
Fixpoint for_each {A S} (body : S -> A -> M S) (l : list A) (st : S) : M S :=
  match l with
  | [] => ret st
  | x :: l' => let* st' := body st x in for_each body l' st'
  end.

Definition lookup_obj (f : gmap (list string) obj) (p : path) : option obj :=
  match p with
  | [] => Some DirObj
  | _ => f !! p
  end.

(** [p.exists()] *)
Definition exists_ (p : path) : M bool :=
  fun w => (Ok (bool_decide (is_Some (lookup_obj (fs w) p))), w).

Definition is_dir_in (f : gmap (list string) obj) (p : path) : bool :=
  match lookup_obj f p with
  | Some DirObj => true
  | _ => false
  end.

(** [p.is_dir()] *)
Definition is_dir (p : path) : M bool :=
  fun w => (Ok (is_dir_in (fs w) p), w).

(** [p.read_text()] *)
Definition read_text (p : path) : M string :=
  fun w =>
    match lookup_obj (fs w) p with
    | Some (FileObj c) => (Ok c, w)
    | Some DirObj => (Raise IsADirectoryError, w)
    | None => (Raise FileNotFoundError, w)
    end.

(** Writing the file [p]: its directory must exist, and [p] must not be a
    directory. *)
Definition write_in (f : gmap (list string) obj) (p : path) (c : string)
    : exn + gmap (list string) obj :=
  match lookup_obj f p with
  | Some DirObj => inl IsADirectoryError
  | _ =>
      match lookup_obj f (parent p) with
      | Some DirObj => inr (<[p := FileObj c]> f)
      | Some (FileObj _) => inl NotADirectoryError
      | None => inl FileNotFoundError
      end
  end.

(** [p.write_text(c)] *)
Definition write_text (p : path) (c : string) : M unit :=
  fun w =>
    match write_in (fs w) p c with
    | inr f => (Ok tt, set_fs w f)
    | inl e => (Raise e, w)
    end.

(** One directory of [mkdir(parents=True, exist_ok=True)]. *)
Definition mkdir_one (target : path) (acc : exn + gmap (list string) obj)
    (q : path) : exn + gmap (list string) obj :=
  match acc with
  | inl e => inl e
  | inr f =>
      match lookup_obj f q with
      | None => inr (<[q := DirObj]> f)
      | Some DirObj => inr f
      | Some (FileObj _) =>
          inl (if bool_decide (q = target) then FileExistsError
               else NotADirectoryError)
      end
  end.

Definition mkdir_in (f : gmap (list string) obj) (p : path)
    : exn + gmap (list string) obj :=
  fold_left (mkdir_one p) (prefixes p) (inr f).

(** [p.mkdir(parents=True, exist_ok=True)]: the missing directories from the
    root down to [p] are created; a file in the way is an error. *)
Definition mkdir_p (p : path) : M unit :=
  fun w =>
    match mkdir_in (fs w) p with
    | inr f => (Ok tt, set_fs w f)
    | inl e => (Raise e, w)
    end.

(** [p in q.parents or q == p]: [q] is [p] or lies below it. *)
Definition inside (p q : path) : bool :=
  bool_decide (p ∈ parents q) || bool_decide (q = p).

(** The entries below [src], as [src.rglob("*")] yields them, in the order of
    the system; nothing when [src] is no directory. *)
Definition rglob_in (f : gmap (list string) obj) (src : path) : list path :=
  if is_dir_in f src
  then filter (fun p => src ∈ parents p) (map fst (map_to_list f))
  else [].

Definition rglob (src : path) : M (list path) :=
  fun w => (Ok (rglob_in (fs w) src), w).

(** ** References into the tree

    The dictionaries of the tree are shared: [dir_map] and the variable
    [parent_node] hold references to nodes that are also children of their
    parent. All nodes hang below [root], and a reference is the position of
    the node there: the indices of the children lists to follow from the
    root. Children are only ever appended during the walk, so a position keeps
    denoting the same node. *)

Abbreviation ref := (list nat).

Fixpoint get_node (pos : ref) (t : node) : option node :=
  match pos with
  | [] => Some t
  | i :: pos' =>
      match children t !! i with
      | Some t' => get_node pos' t'
      | None => None
      end
  end.

(** [node["children"].append(c)] for the node at [pos]; a file node has no
    [children] key. *)
Fixpoint append_at (pos : ref) (c : node) (t : node) : option node :=
  match t with
  | File _ _ _ => None
  | Dir name path ch =>
      match pos with
      | [] => Some (Dir name path (ch ++ [c]))
      | i :: pos' =>
          match ch !! i with
          | Some t' =>
              match append_at pos' c t' with
              | Some t'' => Some (Dir name path (<[i := t'']> ch))
              | None => None
              end
          | None => None
          end
      end
  end.

(** The local variables of [collect_tree] that the loop changes. *)
Record walk_state : Type := {
  nb_count : nat;
  root : node;
  dir_map : gmap (list string) (list nat)
}.

(** The loop that makes sure of the directory nodes:
    [for i, p in enumerate(parts)], from index [i] on. *)
Fixpoint ensure_dirs (rel_parts : path) (i : nat) (parts : list string)
    (cur : path) (parent_node : ref) (st : walk_state)
    : option (path * ref * walk_state) :=
  match parts with
  | [] => Some (cur, parent_node, st)
  | p :: parts' =>
      let cur := cur ++ [p] in
      let key := cur in
      let st' :=
        match dir_map st !! key with
        | Some _ => Some st
        | None =>
            let node := Dir p (str_rel (take (i + 1) rel_parts)) [] in
            match get_node parent_node (root st),
                  append_at parent_node node (root st) with
            | Some parent, Some root' =>
                Some {| nb_count := nb_count st;
                        root := root';
                        dir_map :=
                          <[key := parent_node ++ [length (children parent)]]>
                            (dir_map st) |}
            | _, _ => None
            end
        end in
      match st' with
      | Some st' =>
          match dir_map st' !! key with
          | Some parent_node => ensure_dirs rel_parts (S i) parts' cur parent_node st'
          | None => None
          end
      | None => None
      end
  end.

Definition pages : list (string * bool) :=
  [("index.html", false); ("software.html", true);
   ("publications.html", false); ("research.html", false)].

Definition pad (width n : nat) : string :=
  let s := Str.of_nat n in
  Nat.iter (width - String.length s) (String "0") s.

(** [dt.strftime("%Y-%m-%d %H:%M UTC")], for a year of four digits at
    most. *)
Definition strftime (dt : datetime) : string :=
  pad 4 (year dt) +:+ "-" +:+ pad 2 (month dt) +:+ "-" +:+ pad 2 (day dt)
  +:+ " " +:+ pad 2 (hour dt) +:+ ":" +:+ pad 2 (minute dt) +:+ " UTC".

Section Build.

(** The interpreter that runs the script. *)
Variable sys_executable : string.

(** The clock: what the [n]-th reading of [datetime.utcnow()] returns. *)
Variable utcnow_at : nat -> datetime.

(** The converter, a black box: for a command line and the filesystem it
    reads, the name under which it writes the document in the directory of
    [--output-dir] and the document, or [None] for a non-zero exit status.
    The name is the converter's own: the script passes [--output] and does
    not look at what was written. *)
Variable nbconvert : list string -> gmap (list string) obj -> option (string * string).

(** [datetime.utcnow()] *)
Definition utcnow : M datetime :=
  fun w =>
    (Ok (utcnow_at (ticks w)),
     {| fs := fs w; ticks := S (ticks w); log := log w |}).

Definition cmd_of (cv : conversion) : list string :=
  [sys_executable; "-m"; "nbconvert"; "--to"; "html";
   "--HTMLExporter.embed_images=True";
   "--output"; cv_output cv; "--output-dir"; str_abs (cv_output_dir cv);
   str_abs (cv_input cv)]
  ++ (if cv_execute cv then ["--execute"] else []).

(** [subprocess.run(cmd, check=True)]: the run is recorded; on success the
    document is in the output directory, under the name the converter gave
    it, otherwise [CalledProcessError] is raised. *)
Definition subprocess_run (cv : conversion) : M unit :=
  fun w =>
    let w' := {| fs := fs w; ticks := ticks w; log := log w ++ [cv] |} in
    match nbconvert (cmd_of cv) (fs w) with
    | Some (name, doc) =>
        match write_in (fs w) (cv_output_dir cv ++ [name]) doc with
        | inr f => (Ok tt, set_fs w' f)
        | inl _ => (Raise CalledProcessError, w')
        end
    | None => (Raise CalledProcessError, w')
    end.

(** The body of the loop of [collect_tree] for one entry [path]. *)
Definition visit (src out : path) (execute : bool) (st : walk_state)
    (path : path) : M walk_state :=
  if inside out path then ret st
  else
    let* rel_parts := lift ValueError (relative_to path src) in
    match rel_parts with
    | [] => ret st
    | _ =>
        let* isdir := is_dir path in
        let* '(_, _, st) :=
          lift KeyError
            (ensure_dirs rel_parts 0
               (if isdir then rel_parts else removelast rel_parts)
               src [] st) in
        let* isdir := is_dir path in
        if isdir then ret st
        else if negb (String.eqb (Str.lower (suffix path)) ".ipynb") then ret st
        else
          let rel := rel_parts in
          let nb_count := nb_count st + 1 in
          let* out_html := lift ValueError (with_suffix (out ++ rel) ".html") in
          do mkdir_p (parent out_html) then
          do subprocess_run
               {| cv_input := path;
                  cv_output_dir := parent out_html;
                  cv_output := path_name out_html;
                  cv_execute := execute |} then
          let* rel_html := lift ValueError (relative_to out_html out) in
          let file_node :=
            File (path_name rel) (str_rel rel)
                 (Str.replace "/" "/" (str_rel rel_html)) in
          let parent_key := parent path in
          let* pos := lift KeyError (dir_map st !! parent_key) in
          let* root' := lift KeyError (append_at pos file_node (root st)) in
          ret {| nb_count := nb_count; root := root'; dir_map := dir_map st |}
    end.

Definition empty_root (src : path) : node :=
  Dir (path_name src) EmptyString [].

Definition init_state (src : path) : walk_state :=
  {| nb_count := 0; root := empty_root src; dir_map := {[ src := [] ]} |}.

(** The walk of [collect_tree], before the pruning. *)
Definition walk (src out : path) (execute : bool) : M walk_state :=
  let* entries := rglob src in
  for_each (visit src out execute) (sorted entries) (init_state src).

Definition collect_tree (src out : path) (execute : bool) : M (node * nat) :=
  let* st := walk src out execute in
  let root :=
    match fst (prune_empty_dirs (root st)) with
    | Some r => r
    | None => empty_root src
    end in
  ret (root, nb_count st).

Definition render_tokens (src title : string) (nb_count : nat)
    (tree : option node) : M string :=
  let* now := utcnow in
  ret (render_with (strftime now) src title nb_count tree).

(** [load_template_index(template_dir)] *)
Definition load_template_index (template_dir : path) : M string :=
  let index_path := template_dir ++ ["index.html"] in
  let* e := exists_ index_path in
  if negb e then raise FileNotFoundError
  else read_text index_path.

(** [shutil.copy2(src_f, dst_f)]: into [dst_f] when that is a
    directory. The two are taken to be different files, as they are when
    the directories of [copy_tree] are apart; for one and the same file
    [shutil] raises [SameFileError] and writes nothing. *)
Definition copy2 (src_f dst_f : path) : M unit :=
  let* c := read_text src_f in
  let* d := is_dir dst_f in
  write_text (if d then dst_f ++ [path_name src_f] else dst_f) c.

(** [os.walk(top)]: each directory from [top] down with the names of the
    files in it, a directory before those below it. The listing is the one
    at the start of the walk, which is the one of [os.walk] when nothing is
    added below [top] while it is walked. *)
Definition os_walk (top : path) : M (list (path * list string)) :=
  fun w =>
    let entries := map fst (map_to_list (fs w)) in
    let dirs :=
      if is_dir_in (fs w) top
      then top :: sorted (filter (fun p => top ∈ parents p
                                           ∧ is_dir_in (fs w) p = true) entries)
      else [] in
    (Ok (map (fun d =>
                (d, map path_name
                      (sorted (filter (fun p => p ≠ [] ∧ parent p = d
                                        ∧ is_dir_in (fs w) p = false) entries))))
             dirs),
     w).

Definition copy_tree (src_dir dst_dir : path) : M unit :=
  let* e := exists_ src_dir in
  if negb e then ret tt
  else
    let* listing := os_walk src_dir in
    for_each
      (fun (_ : unit) '(root, files) =>
         let* rel := lift ValueError (relative_to root src_dir) in
         let out_root := dst_dir ++ rel in
         do mkdir_p out_root then
         for_each (fun (_ : unit) f => copy2 (root ++ [f]) (out_root ++ [f]))
           files tt)
      listing tt.

(** The body of the loop over the pages. *)
Definition render_page (out template_dir : path) (title : string)
    (nb_count : nat) (tree : node) (_ : unit) (page : string * bool) : M unit :=
  let '(fname, needs_tree) := page in
  let page_path := template_dir ++ [fname] in
  let* e := exists_ page_path in
  if negb e then ret tt
  else
    let* src_html := read_text page_path in
    let* html_doc :=
      render_tokens src_html title nb_count
        (if needs_tree then Some tree else None) in
    write_text (out ++ [fname]) html_doc.

Definition render_pages (out template_dir : path) (title : string)
    (nb_count : nat) (tree : node) (l : list (string * bool)) : M unit :=
  for_each (render_page out template_dir title nb_count tree) l tt.

Definition copy_assets (out template_dir : path) : M unit :=
  do copy_tree (template_dir ++ ["css"]) (out ++ ["css"]) then
  do copy_tree (template_dir ++ ["assets"]) (out ++ ["assets"]) then
  copy_tree (template_dir ++ ["js"]) (out ++ ["js"]).

Definition build_static_site (src out template_dir : path) (title : string)
    (execute : bool) : M nat :=
  let* '(tree, nb_count) := collect_tree src out execute in
  do mkdir_p out then
  do render_pages out template_dir title nb_count tree pages then
  do copy_assets out template_dir then
  ret nb_count.

End Build.

(** ** Notions used in the statements *)

(** [tok] is one whole match of the pattern of [name]. *)
Definition is_token (name tok : string) : Prop :=
  match_token name tok = Some EmptyString.

(** No character of [s] is an opening brace. *)
Fixpoint no_open (s : string) : bool :=
  match s with
  | EmptyString => true
  | String c s' => negb (Ascii.eqb c "{") && no_open s'
  end.

(** The match of the pattern of [name] behind its two opening braces. *)
Definition after_open (name s : string) : option string :=
  match strip_prefix name (skip_ws s) with
  | None => None
  | Some s2 => strip_prefix "}}" (skip_ws s2)
  end.

(** All characters of [s] are white space. *)
Fixpoint allspace (s : string) : bool :=
  match s with
  | EmptyString => true
  | String c s' => Str.isspace c && allspace s'
  end.

(** Two names differ at a position that both have. *)
Fixpoint clash (a b : string) : bool :=
  match a, b with
  | String x a', String y b' => negb (Ascii.eqb x y) || clash a' b'
  | _, _ => false
  end.

(** [name] starts with a character that is no white space. *)
Definition starts_nonspace (name : string) : bool :=
  match name with
  | String c _ => negb (Str.isspace c)
  | EmptyString => false
  end.

(** The node and all nodes below it. *)
Fixpoint subnodes (n : node) : list node :=
  n :: match n with
       | Dir _ _ ch => flat_map subnodes ch
       | File _ _ _ => []
       end.

(** The nodes strictly below a node: its transitive descendants. *)
Definition descendants (n : node) : list node := flat_map subnodes (children n).

(** The pruned form of a node, when it is kept. *)
Definition pruned (n : node) : option node := fst (prune_empty_dirs n).

(** The end of the body of the loop, for a notebook [path] with relative
    parts [rel]: the conversion and the file node. *)
Definition notebook_step (sys_executable : string)
    (nbconvert : list string -> gmap (list string) obj -> option (string * string))
    (out : path) (execute : bool) (st : walk_state) (path rel : path)
    : M walk_state :=
  let nb_count := nb_count st + 1 in
  let* out_html := lift ValueError (with_suffix (out ++ rel) ".html") in
  do mkdir_p (parent out_html) then
  do subprocess_run sys_executable nbconvert
       {| cv_input := path;
          cv_output_dir := parent out_html;
          cv_output := path_name out_html;
          cv_execute := execute |} then
  let* rel_html := lift ValueError (relative_to out_html out) in
  let file_node :=
    File (path_name rel) (str_rel rel)
         (Str.replace "/" "/" (str_rel rel_html)) in
  let parent_key := parent path in
  let* pos := lift KeyError (dir_map st !! parent_key) in
  let* root' := lift KeyError (append_at pos file_node (root st)) in
  ret {| nb_count := nb_count; root := root'; dir_map := dir_map st |}.

(** An entry that the loop converts: a file with the suffix of a notebook. *)
Definition is_notebook (f : gmap (list string) obj) (p : path) : bool :=
  negb (is_dir_in f p) && String.eqb (Str.lower (suffix p)) ".ipynb".

(** The children of every node of the tree are in the order of their
    names. *)
Definition sorted_nodes (t : node) : Prop :=
  Forall (fun d => StronglySorted String.le (map node_name (children d)))
         (subnodes t).

(** What the loop of [collect_tree] keeps true, for the entries up to
    [bound]: the references of [dir_map] denote directory nodes, one each;
    the children of the node of a directory [k] are entries of [k] that come
    before [bound]; children are in the order of their names. *)
Record walk_inv (src bound : path) (st : walk_state) : Prop := {
  inv_root : dir_map st !! src = Some [];
  inv_dirs : forall k pos, dir_map st !! k = Some pos ->
    exists d, get_node pos (root st) = Some d /\ is_file d = false;
  inv_inj : forall k k' pos,
    dir_map st !! k = Some pos -> dir_map st !! k' = Some pos -> k = k';
  inv_bound : forall k pos d,
    dir_map st !! k = Some pos -> get_node pos (root st) = Some d ->
    Forall (fun x => path_le (k ++ [node_name x]) bound) (children d);
  inv_sorted : sorted_nodes (root st)
}.

(** The parts of an entry [p] below [src]. *)
Definition rel_of (src p : path) : path := drop (length src) p.

(** The path that the walk gives the document of the notebook [p]: the one
    it passes to the converter, in two parts, and links in the tree. *)
Definition output_path (src out p : path) : path :=
  let rel := rel_of src p in
  out ++ removelast rel ++ [name_with_suffix (path_name rel) ".html"].

(** The run of the converter for the notebook [p]. *)
Definition conv_of (src out : path) (execute : bool) (p : path) : conversion :=
  let rel := rel_of src p in
  {| cv_input := p;
     cv_output_dir := out ++ removelast rel;
     cv_output := name_with_suffix (path_name rel) ".html";
     cv_execute := execute |}.

(** The file node of the notebook [p]. *)
Definition file_node_of (src p : path) : node :=
  let rel := rel_of src p in
  File (path_name rel) (str_rel rel)
       (Str.replace "/" "/"
          (str_rel (removelast rel ++ [name_with_suffix (path_name rel) ".html"]))).

(** The directory node of the directory [p]. *)
Definition dir_node_of (src p : path) : node :=
  let rel := rel_of src p in
  Dir (path_name rel) (str_rel rel) [].

(** An entry that the loop converts: a notebook that is not inside the
    output directory. *)
Definition convertible (out : path) (f : gmap (list string) obj) (p : path) : bool :=
  negb (inside out p) && is_notebook f p.

(** The notebooks that a walk converts, in the order of the walk. *)
Definition notebooks (src out : path) (w : world) : list path :=
  filter (fun p => Is_true (convertible out (fs w) p))
    (sorted (rglob_in (fs w) src)).

(** A node without its children. *)
Definition shallow (n : node) : node :=
  match n with
  | Dir name path _ => Dir name path []
  | File _ _ _ => n
  end.

(** The nodes of a tree, each without its children. *)
Definition labels (t : node) : list node := map shallow (subnodes t).

(** The file nodes of a tree. *)
Definition files_of (t : node) : list node := filter (fun n => Is_true (is_file n)) (labels t).

(** A node of the tree below the root is the node of an entry below [src]
    that is not inside [out]. *)
Definition node_ok (src out : path) (n : node) : Prop :=
  exists p, src ∈ parents p /\ inside out p = false /\
            (n = dir_node_of src p \/ n = file_node_of src p).

(** The entries among [done] that the loop converts, for the filesystem [f]
    at the start. *)
Definition converted (out : path) (f : gmap (list string) obj)
    (done : list path) : list path :=
  filter (fun p => Is_true (convertible out f p)) done.

(** The converter, run for the notebook [p] as the walk runs it, gives the
    document the name [name], in some filesystem. *)
Definition names_document (sys_executable : string)
    (nbconvert : list string -> gmap (list string) obj -> option (string * string))
    (src out : path) (execute : bool) (p : path) (name : string) : Prop :=
  exists f doc,
    nbconvert (cmd_of sys_executable (conv_of src out execute p)) f
      = Some (name, doc).

(** The converter gives the document of the notebook [p] the name that the
    walk passes with [--output]. *)
Definition names_as_told (sys_executable : string)
    (nbconvert : list string -> gmap (list string) obj -> option (string * string))
    (src out : path) (execute : bool) (p : path) : Prop :=
  forall name,
    names_document sys_executable nbconvert src out execute p name ->
    name = cv_output (conv_of src out execute p).

(** What holds in the loop of [collect_tree] started in the world [w0], after
    the entries [done], the last of them before [bound]. *)
Record loop_inv (sys_executable : string)
    (nbconvert : list string -> gmap (list string) obj -> option (string * string))
    (src out : path) (execute : bool) (w0 : world)
    (bound : path) (done : list path) (st : walk_state) (w : world) : Prop := {
  li_walk : walk_inv src bound st;
  li_keys : forall k pos, dir_map st !! k = Some pos ->
    k = src \/ (src ∈ parents k /\ inside out k = false);
  li_nodes : Forall (node_ok src out) (map shallow (descendants (root st)));
  li_files : files_of (root st) ≡ₚ
             map (file_node_of src) (converted out (fs w0) done);
  li_count : nb_count st = length (converted out (fs w0) done);
  li_log : log w = log w0 ++
           map (conv_of src out execute) (converted out (fs w0) done);
  li_ticks : ticks w = ticks w0;
  li_keep : forall q o,
    fs w0 !! q = Some o -> inside out q = false -> fs w !! q = Some o;
  li_docs : forall p, p ∈ converted out (fs w0) done ->
    exists name c,
      names_document sys_executable nbconvert src out execute p name /\
      fs w !! (cv_output_dir (conv_of src out execute p) ++ [name])
        = Some (FileObj c);
  li_new : forall q c, fs w !! q = Some (FileObj c) ->
    fs w0 !! q = Some (FileObj c) \/
    exists p name,
      p ∈ converted out (fs w0) done /\
      names_document sys_executable nbconvert src out execute p name /\
      q = cv_output_dir (conv_of src out execute p) ++ [name];
  li_same : converted out (fs w0) done = [] -> w = w0
}.

(** How a failed conversion of [p] leaves the world [w1] it started in:
    either the directory of the document could not be made and nothing
    changed, or the directory was made, the converter was run and failed. *)
Definition failed_at (src out : path) (execute : bool) (p : path) (e : exn)
    (w1 w' : world) : Prop :=
  (w' = w1 /\ (e = FileExistsError \/ e = NotADirectoryError)) \/
  (e = CalledProcessError /\
   exists f1,
     mkdir_in (fs w1) (cv_output_dir (conv_of src out execute p)) = inr f1 /\
     w' = {| fs := f1; ticks := ticks w1;
             log := log w1 ++ [conv_of src out execute p] |}).

(** ** The words of the specification *)

(** [s.endswith(suf)] *)
Definition endswith (suf s : string) : bool :=
  (String.length suf <=? String.length s)%nat &&
  String.eqb
    (String.substring (String.length s - String.length suf) (String.length suf) s)
    suf.


(** ** Example worlds *)

(** The value of a computation that returned. *)
Definition is_ok {A} (r : result A) : bool :=
  match r with Ok _ => true | Raise _ => false end.

Definition from_ok {A} (d : A) (r : result A) : A :=
  match r with Ok a => a | Raise _ => d end.

Definition is_inr {A B} (x : A + B) : bool :=
  match x with inr _ => true | inl _ => false end.

Definition from_inr {A B} (d : B) (x : A + B) : B :=
  match x with inr b => b | inl _ => d end.

Module Ex.

Definition src : list string := ["repo"].
Definition out : list string := ["repo"; "site"].
Definition template_dir : list string := ["template"].

(** A repository with three notebooks, a file named [.ipynb], the output of
    an earlier build, and a template without [index.html]. *)
Definition files : gmap (list string) obj :=
  list_to_map
    [(["repo"], DirObj);
     (["repo"; "B.ipynb"], FileObj "notebook B");
     (["repo"; ".ipynb"], FileObj "notebook without stem");
     (["repo"; "a"], DirObj);
     (["repo"; "a"; "b"], DirObj);
     (["repo"; "a"; "b"; "nb1.ipynb"], FileObj "notebook 1");
     (["repo"; "a"; "c"], DirObj);
     (["repo"; "a"; "c"; "readme.md"], FileObj "read me");
     (["repo"; "d"], DirObj);
     (["repo"; "d"; "nb2.IPYNB"], FileObj "notebook 2");
     (["repo"; "e"], DirObj);
     (["repo"; "site"], DirObj);
     (["repo"; "site"; "old.ipynb"], FileObj "old notebook");
     (["template"], DirObj);
     (["template"; "software.html"],
      FileObj "<h1>{{ TITLE }}</h1><p>{{NBCOUNT}} notebooks</p><script>var tree = {{ TREE_JSON }};</script>");
     (["template"; "css"], DirObj);
     (["template"; "css"; "site.css"], FileObj "body { margin: 0 }")].

Definition w : world := {| fs := files; ticks := 0; log := [] |}.

(** A repository without notebook. *)
Definition files_plain : gmap (list string) obj :=
  list_to_map
    [(["repo"], DirObj);
     (["repo"; "a"], DirObj);
     (["repo"; "a"; "readme.md"], FileObj "read me");
     (["repo"; "notes.txt"], FileObj "notes")].

Definition w_plain : world := {| fs := files_plain; ticks := 0; log := [] |}.

(** A template with two pages that show the time of the build. *)
Definition files_pages : gmap (list string) obj :=
  list_to_map
    [(["repo"], DirObj);
     (["template"], DirObj);
     (["template"; "index.html"], FileObj "built {{ TIMESTAMP }}");
     (["template"; "software.html"], FileObj "built {{ TIMESTAMP }}")].

Definition w_pages : world := {| fs := files_pages; ticks := 0; log := [] |}.

(** A clock that is one minute further at each reading. *)
Definition clock (n : nat) : datetime :=
  {| year := 2026; month := 1; day := 2; hour := 3; minute := n; second := 0 |}.

(** A clock that stands still. *)
Definition clock_still (n : nat) : datetime :=
  {| year := 2026; month := 1; day := 2; hour := 3; minute := 4; second := 5 |}.

(** The argument that follows [--output] on a command line. *)
Fixpoint output_arg (cmd : list string) : string :=
  match cmd with
  | [] => EmptyString
  | a :: rest =>
      match rest with
      | [] => EmptyString
      | b :: _ => if String.eqb a "--output" then b else output_arg rest
      end
  end.

(** A converter that succeeds on every notebook and gives the document the
    name of [--output]. *)
Definition converter (cmd : list string) (f : gmap (list string) obj)
    : option (string * string) :=
  Some (output_arg cmd, "<html>notebook</html>").

(** A name without the dots it begins with. *)
Fixpoint skip_dots (s : string) : string :=
  match s with
  | String "." s' => skip_dots s'
  | _ => s
  end.

(** A converter that names the document as [nbconvert] does: it is the name
    of [--output] when [os.path.splitext] finds the extension [.html] in
    it, and this name with [.html] added otherwise; the dots that a name
    begins with are not the dot of an extension. *)
Definition converter_ext (cmd : list string) (f : gmap (list string) obj)
    : option (string * string) :=
  let name := output_arg cmd in
  Some (if endswith ".html" (skip_dots name) then name else name +:+ ".html",
        "<html>notebook</html>").

(** A repository with one notebook, of the name [..ipynb]. *)
Definition files_dots : gmap (list string) obj :=
  list_to_map
    [(["repo"], DirObj);
     (["repo"; "..ipynb"], FileObj "notebook with dots")].

Definition w_dots : world := {| fs := files_dots; ticks := 0; log := [] |}.

(** A clock that stands still for two readings and is one minute further
    from the third reading on. *)
Definition clock_late (n : nat) : datetime :=
  {| year := 2026; month := 1; day := 2; hour := 3;
     minute := if (n <? 2)%nat then 4 else 5; second := 0 |}.

(** A converter that fails on the notebook [nb1.ipynb]. *)
Definition converter_failing (cmd : list string) (f : gmap (list string) obj)
    : option (string * string) :=
  if bool_decide ("/repo/a/b/nb1.ipynb" ∈ cmd) then None
  else Some (output_arg cmd, "<html>notebook</html>").

End Ex.

Module ExTree.

(** The tree of the repository [Ex.files]. *)
Definition tree : node :=
  Dir "repo" EmptyString
    [File "B.ipynb" "B.ipynb" "B.html";
     Dir "a" "a"
       [Dir "b" "a/b" [File "nb1.ipynb" "a/b/nb1.ipynb" "a/b/nb1.html"]];
     Dir "d" "d" [File "nb2.IPYNB" "d/nb2.IPYNB" "d/nb2.html"]].

(** The entries of the walk of [Ex.files] before [nb1.ipynb]. *)
Definition before_nb1 : list (list string) :=
  [["repo"; ".ipynb"]; ["repo"; "B.ipynb"]; ["repo"; "a"]; ["repo"; "a"; "b"]].

Definition after_nb1 : list (list string) :=
  [["repo"; "a"; "c"]; ["repo"; "a"; "c"; "readme.md"]; ["repo"; "d"];
   ["repo"; "d"; "nb2.IPYNB"]; ["repo"; "e"]; ["repo"; "site"];
   ["repo"; "site"; "old.ipynb"]].

(** The walk of [Ex.files] up to [nb1.ipynb], with the converter that fails
    there, and the filesystem once the directory of its document is made. *)
Definition walked : result walk_state * world :=
  for_each (visit "python3" Ex.converter_failing Ex.src Ex.out false)
    before_nb1 (init_state Ex.src) Ex.w.

Definition st1 : walk_state := from_ok (init_state Ex.src) (fst walked).

Definition w1 : world := snd walked.

Definition f1 : gmap (list string) obj :=
  from_inr ∅ (mkdir_in (fs w1) ["repo"; "site"; "a"; "b"]).

(** The world of [Ex.files] after the notebooks are converted. *)
Definition w_converted : world :=
  snd (collect_tree "python3" Ex.converter Ex.src Ex.out false Ex.w).

(** The world of [Ex.files_pages] after its pages are rendered into the
    directory [repo]. *)
Definition w_rendered : world :=
  snd (render_pages Ex.clock_still Ex.src Ex.template_dir "Notebooks" 0
         (empty_root Ex.src) pages Ex.w_pages).

(** The same with the clock that is further from the third reading on:
    the two pages take the first two readings. *)
Definition w_rendered_late : world :=
  snd (render_pages Ex.clock_late Ex.src Ex.template_dir "Notebooks" 0
         (empty_root Ex.src) pages Ex.w_pages).

(** The world of [Ex.files_dots] after the walk with the converter that
    names the documents as [nbconvert] does. *)
Definition w_dots_converted : world :=
  snd (collect_tree "python3" Ex.converter_ext Ex.src Ex.out false Ex.w_dots).

End ExTree.

(** ** The rest of the script *)

Section Rest.

Variable utcnow_at : nat -> datetime.

(** [render_index(index_src, title, nb_count, tree)] *)
Definition render_index (index_src title : string) (nb_count : nat)
    (tree : node) : M string :=
  let* now := utcnow utcnow_at in
  let timestamp := strftime now in
  let safe_json := Str.replace "</" "<\/" (json_dumps tree) in
  let out := index_src in
  let out := re_sub "TITLE" (html_escape title) out in
  let out := re_sub "TIMESTAMP" timestamp out in
  let out := re_sub "NBCOUNT" (Str.of_nat nb_count) out in
  let out := re_sub "TREE_JSON" safe_json out in
  ret out.

End Rest.

(** The flag [execute] of [main]: [args.execute.lower() == "true"]. *)
Definition main_execute (arg : string) : bool :=
  String.eqb (Str.lower arg) "true".

(** ** More notions used in the statements *)

(** [c in s] for one character. *)
Fixpoint has_char (c : ascii) (s : string) : bool :=
  match s with
  | EmptyString => false
  | String x s' => Ascii.eqb c x || has_char c s'
  end.


(** Every entry of the filesystem lies in a directory. *)
Definition wf_fs (f : gmap (list string) obj) : Prop :=
  map_Forall (fun p _ => is_dir_in f (parent p) = true) f.

(** What is outside [out] is as it was in [f], but for directories on the
    way to [out] that were missing and have been made. *)
Definition outside_kept (out : path) (f f' : gmap (list string) obj) : Prop :=
  forall q, inside out q = false ->
    f' !! q = f !! q \/
    (f !! q = None /\ f' !! q = Some DirObj /\ inside q out = true).

(** What [copy_tree src dst] keeps true of the filesystem [f] when it was
    started on [f0]: what is outside [dst] is kept, directories are kept
    everywhere, a new directory is one on the way to [dst] or the mirror of
    a directory below [src], and a new file is the copy of a file below
    [src], at the mirrored place or, where a directory was in its place, in
    that directory. *)
Record copy_inv (src dst : path) (f0 f : gmap (list string) obj) : Prop := {
  ci_keep : forall q o,
    f0 !! q = Some o -> inside dst q = false -> f !! q = Some o;
  ci_dirs_kept : forall q, f0 !! q = Some DirObj -> f !! q = Some DirObj;
  ci_dirs : forall q, f !! q = Some DirObj ->
    f0 !! q = Some DirObj \/ inside q dst = true \/
    exists r, q = dst ++ r /\ is_dir_in f0 (src ++ r) = true;
  ci_files : forall q c, f !! q = Some (FileObj c) ->
    f0 !! q = Some (FileObj c) \/
    exists r, r <> [] /\ f0 !! (src ++ r) = Some (FileObj c) /\
      (q = dst ++ r \/
       (q = dst ++ r ++ [path_name r] /\ is_dir_in f0 (dst ++ r) = true))
}.

(** The file at [r] below [src] has its copy at [r] below [dst], or in the
    directory that was in the place of the copy. *)
Definition copied (src dst : path) (f0 f : gmap (list string) obj) (r : path)
    : Prop :=
  forall c, f0 !! (src ++ r) = Some (FileObj c) ->
    f !! (if is_dir_in f0 (dst ++ r) then dst ++ r ++ [path_name r] else dst ++ r)
      = Some (FileObj c).

(** The directory [d] of the listing with its files [fl] has been copied. *)
Definition dir_copied (src dst : path) (f0 f : gmap (list string) obj)
    (d : path) (fl : list string) : Prop :=
  is_dir_in f (dst ++ rel_of src d) = true /\
  forall name, name ∈ fl -> copied src dst f0 f (rel_of src d ++ [name]).

(** From [f] to [f'] no directory and no copy is lost. *)
Definition copy_mono (src dst : path) (f0 f f' : gmap (list string) obj) : Prop :=
  (forall q, is_dir_in f q = true -> is_dir_in f' q = true) /\
  (forall rd name, is_dir_in f0 (src ++ rd) = true ->
     copied src dst f0 f (rd ++ [name]) -> copied src dst f0 f' (rd ++ [name])).

(** What a listing of [os.walk] holds: directories at or below [src], each
    with names of files in it. *)
Definition listed (src : path) (f0 : gmap (list string) obj)
    (l : list (path * list string)) : Prop :=
  forall d fl, (d, fl) ∈ l ->
    is_dir_in f0 d = true /\ inside src d = true /\
    forall name, name ∈ fl -> exists c, f0 !! (d ++ [name]) = Some (FileObj c).

(** Every entry below [src] lies in a directory. *)
Definition wf_below (src : path) (f : gmap (list string) obj) : Prop :=
  forall r o, r <> [] -> f !! (src ++ r) = Some o ->
    is_dir_in f (parent (src ++ r)) = true.

(** [p] is a file and no directory. *)
Definition is_file_in (f : gmap (list string) obj) (p : path) : bool :=
  match lookup_obj f p with
  | Some (FileObj _) => true
  | _ => false
  end.

(** The tree below [src] in [f0] has its image below [dst] in [f]: a
    directory for each directory, and for each file a file with its
    content, at the mirrored place or in the directory that is in that
    place. *)
Definition mirrored (src dst : path) (f0 f : gmap (list string) obj) : Prop :=
  (forall r, is_dir_in f0 (src ++ r) = true -> is_dir_in f (dst ++ r) = true) /\
  (forall r c, r <> [] -> f0 !! (src ++ r) = Some (FileObj c) ->
     f !! (dst ++ r) = Some (FileObj c) \/
     (is_dir_in f (dst ++ r) = true /\
      f !! (dst ++ r ++ [path_name r]) = Some (FileObj c))).


(** [IGNORE_DIRS] *)
Definition IGNORE_DIRS : list string :=
  [".git"; ".github"; ".venv"; "venv"; "__pycache__"; "node_modules";
   ".script"; "site"].

(** ** The places of the nodes *)

(** The place of a node is the list of the names of the nodes on the way to
    it from the root, the root excluded; [place_of pos t] is the place of
    the node at the position [pos] of [t]. *)
Fixpoint place_of (pos : ref) (t : node) : option path :=
  match pos with
  | [] => Some []
  | i :: pos' =>
      match children t !! i with
      | Some c =>
          match place_of pos' c with
          | Some r => Some (node_name c :: r)
          | None => None
          end
      | None => None
      end
  end.

(** A place in a child, seen from its parent. *)
Definition under (name : string) (x : path * bool) : path * bool :=
  (name :: fst x, snd x).

(** The places of the nodes below a node, each with the kind of its node:
    [true] for a file node. *)
Fixpoint places (t : node) : list (path * bool) :=
  match t with
  | File _ _ _ => []
  | Dir _ _ ch =>
      flat_map (fun c => ([node_name c], is_file c)
                         :: map (under (node_name c)) (places c)) ch
  end.

(** What the walk keeps true of the places, after the entries [done]: a
    key of [dir_map] is a path below the source root, or the root itself,
    and its reference leads to the place of that path; the places of the
    file nodes are those of the notebooks converted so far. *)
Record placed (src out : path) (f0 : gmap (list string) obj)
    (done : list path) (st : walk_state) : Prop := {
  pl_keys : forall k pos, dir_map st !! k = Some pos ->
    exists rel, k = src ++ rel /\ place_of pos (root st) = Some rel;
  pl_files : forall r, (r, true) ∈ places (root st) <->
    src ++ r ∈ converted out f0 done
}.

(** ** More example worlds *)

Module ExRest.

(** A tree before the pruning, with a directory without notebook, and
    what the pruning keeps of it. *)
Definition unpruned : node :=
  Dir "repo" EmptyString
    [Dir "d" "d" [File "nb2.IPYNB" "d/nb2.IPYNB" "d/nb2.html"];
     Dir "e" "e" [Dir "f" "e/f" []]].

Definition kept : node :=
  Dir "repo" EmptyString
    [Dir "d" "d" [File "nb2.IPYNB" "d/nb2.IPYNB" "d/nb2.html"]].

Definition css : list string := ["template"; "css"].
Definition site_css : list string := ["repo"; "site"; "css"].

(** The world of [Ex.files] after the style sheets are copied. *)
Definition w_css : world := snd (copy_tree css site_css Ex.w).

(** A site that was built before: a style sheet is there already, and a
    directory is in the place of the logo. *)
Definition files_again : gmap (list string) obj :=
  list_to_map
    [(["template"], DirObj);
     (["template"; "css"], DirObj);
     (["template"; "css"; "site.css"], FileObj "body { margin: 0 }");
     (["template"; "css"; "img"], DirObj);
     (["template"; "css"; "img"; "logo.svg"], FileObj "<svg/>");
     (["repo"], DirObj);
     (["repo"; "notes.txt"], FileObj "notes");
     (["repo"; "site"], DirObj);
     (["repo"; "site"; "css"], DirObj);
     (["repo"; "site"; "css"; "site.css"], FileObj "body { margin: 1em }");
     (["repo"; "site"; "css"; "img"], DirObj);
     (["repo"; "site"; "css"; "img"; "logo.svg"], DirObj)].

Definition w_again : world := {| fs := files_again; ticks := 0; log := [] |}.

Definition w_again_css : world := snd (copy_tree css site_css w_again).

(** The world of [Ex.files] after the build. *)
Definition w_built : world :=
  snd (build_static_site "python3" Ex.clock Ex.converter Ex.src Ex.out
         Ex.template_dir "Notebooks" false Ex.w).

(** The world of [Ex.files] after the walk in which the converter fails. *)
Definition w_failed : world :=
  snd (collect_tree "python3" Ex.converter_failing Ex.src Ex.out false Ex.w).


(** A repository with a notebook in a directory of [IGNORE_DIRS]. *)
Definition files_git : gmap (list string) obj :=
  list_to_map
    [(["repo"], DirObj);
     (["repo"; "node_modules"], DirObj);
     (["repo"; "node_modules"; "pkg"], DirObj);
     (["repo"; "node_modules"; "pkg"; "demo.ipynb"], FileObj "a demo")].

Definition w_git : world := {| fs := files_git; ticks := 0; log := [] |}.

Definition tree_git : node :=
  Dir "repo" EmptyString
    [Dir "node_modules" "node_modules"
       [Dir "pkg" "node_modules/pkg"
          [File "demo.ipynb" "node_modules/pkg/demo.ipynb"
             "node_modules/pkg/demo.html"]]].

Definition w_git_converted : world :=
  snd (collect_tree "python3" Ex.converter Ex.src Ex.out false w_git).

(** A site in which a file is in the place of a directory of the style
    sheets. *)
Definition files_blocked : gmap (list string) obj :=
  list_to_map
    [(["template"], DirObj);
     (["template"; "css"], DirObj);
     (["template"; "css"; "img"], DirObj);
     (["template"; "css"; "img"; "logo.svg"], FileObj "<svg/>");
     (["repo"], DirObj);
     (["repo"; "site"], DirObj);
     (["repo"; "site"; "css"], DirObj);
     (["repo"; "site"; "css"; "img"], FileObj "not a directory")].

Definition w_blocked : world := {| fs := files_blocked; ticks := 0; log := [] |}.

Definition w_blocked_css : world := snd (copy_tree css site_css w_blocked).

End ExRest.

(** * Properties *)

(** ** Strings *)

Module StrFacts.

Lemma app_nil_l (t : string) : EmptyString +:+ t = t.
Proof. reflexivity. Qed.

Lemma app_cons (c : ascii) (s t : string) :
  String c s +:+ t = String c (s +:+ t).
Proof. reflexivity. Qed.

Lemma app_nil_r (s : string) : s +:+ EmptyString = s.
Proof. induction s as [|c s IH]; [done | by rewrite app_cons, IH]. Qed.

Lemma app_assoc (s t u : string) : (s +:+ t) +:+ u = s +:+ t +:+ u.
Proof. induction s as [|c s IH]; [done | by rewrite !app_cons, IH]. Qed.

Lemma length_app (s t : string) :
  String.length (s +:+ t) = String.length s + String.length t.
Proof. induction s as [|c s IH]; [done | by rewrite app_cons; simpl; rewrite IH]. Qed.

End StrFacts.

(** ** Token substitution *)

Lemma strip_prefix_app p x r T :
  strip_prefix p x = Some r -> strip_prefix p (x +:+ T) = Some (r +:+ T).
Proof.
  revert x; induction p as [|a p IH]; intros x H; simpl in *.
  - by inversion H.
  - destruct x as [|b x]; [done|]. simpl.
    destruct (Ascii.eqb a b); [by apply IH | done].
Qed.

Lemma strip_prefix_open p x T :
  no_open p = true ->
  strip_prefix p (x +:+ String "{" T) =
  option_map (fun r => r +:+ String "{" T) (strip_prefix p x).
Proof.
  revert x; induction p as [|a p IH]; intros x Hp; [done|].
  simpl in Hp. apply andb_true_iff in Hp as [Ha Hp].
  destruct x as [|b x]; simpl.
  - destruct (Ascii.eqb a "{"); done.
  - destruct (Ascii.eqb a b); [by apply IH | done].
Qed.

Lemma strip_prefix_eq p s r : strip_prefix p s = Some r -> s = p +:+ r.
Proof.
  revert s; induction p as [|a p IH]; intros s H; simpl in H.
  - by inversion H.
  - destruct s as [|b s]; [done|].
    destruct (Ascii.eqb_spec a b) as [->|]; [|done].
    rewrite StrFacts.app_cons. f_equal. by apply IH.
Qed.

Lemma strip_prefix_length p s r :
  strip_prefix p s = Some r -> String.length s = String.length p + String.length r.
Proof. intros H. rewrite (strip_prefix_eq _ _ _ H). apply StrFacts.length_app. Qed.

Lemma skip_ws_open x T : skip_ws (x +:+ String "{" T) = skip_ws x +:+ String "{" T.
Proof.
  induction x as [|c x IH]; [done|].
  simpl. by destruct (Str.isspace c).
Qed.

Lemma skip_ws_app x T :
  skip_ws x <> EmptyString -> skip_ws (x +:+ T) = skip_ws x +:+ T.
Proof.
  induction x as [|c x IH]; [done|]. intros H.
  simpl in *. destruct (Str.isspace c); [by apply IH | done].
Qed.

Lemma match_token_after_open name s :
  match_token name (String "{" (String "{" s)) = after_open name s.
Proof. reflexivity. Qed.

Lemma match_token_not_open name c s :
  Ascii.eqb c "{" = false -> match_token name (String c s) = None.
Proof.
  intros H. unfold match_token.
  change (strip_prefix "{{" (String c s))
    with (if Ascii.eqb "{" c then strip_prefix "{" s else None).
  by rewrite Ascii.eqb_sym, H.
Qed.

Lemma after_open_open name x T :
  no_open name = true ->
  after_open name (x +:+ String "{" T) =
  option_map (fun r => r +:+ String "{" T) (after_open name x).
Proof.
  intros Hn. unfold after_open.
  rewrite skip_ws_open, strip_prefix_open by done.
  destruct (strip_prefix name (skip_ws x)) as [s2|]; [cbn [option_map]|done].
  rewrite skip_ws_open. by apply strip_prefix_open.
Qed.

Lemma match_token_open name pre T :
  no_open name = true -> name <> EmptyString -> pre <> EmptyString ->
  match_token name (pre +:+ String "{" (String "{" T)) =
  option_map (fun r => r +:+ String "{" (String "{" T)) (match_token name pre).
Proof.
  intros Hn Hne Hpre.
  destruct pre as [|c1 pre]; [done|].
  destruct (Ascii.eqb c1 "{") eqn:Hc1.
  2:{ rewrite StrFacts.app_cons. by rewrite !match_token_not_open by done. }
  apply Ascii.eqb_eq in Hc1 as ->.
  destruct pre as [|c2 pre].
  { change (match_token name (String "{" (String "{" (String "{" T))) = None).
    rewrite match_token_after_open. unfold after_open.
    destruct name as [|a name]; [done|].
    cbn [no_open] in Hn. apply andb_true_iff in Hn as [Ha _].
    change (skip_ws (String "{" T)) with (String "{" T).
    cbn [strip_prefix]. by destruct (Ascii.eqb a "{"). }
  destruct (Ascii.eqb c2 "{") eqn:Hc2.
  - apply Ascii.eqb_eq in Hc2 as ->. rewrite !StrFacts.app_cons.
    rewrite !match_token_after_open. by apply after_open_open.
  - assert (forall s, match_token name (String "{" (String c2 s)) = None) as E.
    { intros s. unfold match_token.
      change (strip_prefix "{{" (String "{" (String c2 s)))
        with (if Ascii.eqb "{" c2 then Some s else None).
      by rewrite Ascii.eqb_sym, Hc2. }
    rewrite !StrFacts.app_cons. by rewrite !E.
Qed.

Lemma sub_from_app name value U :
  (forall pre, pre <> EmptyString ->
     match_token name (pre +:+ U) =
     option_map (fun r => r +:+ U) (match_token name pre)) ->
  forall pre k, k <= String.length pre ->
  sub_from name value k (pre +:+ U) =
  sub_from name value k pre +:+ sub_from name value 0 U.
Proof.
  intros HU. induction pre as [|c pre IH]; intros k Hk.
  { cbn [String.length] in Hk. by replace k with 0 by lia. }
  destruct k as [|k].
  2:{ cbn [String.length] in Hk. rewrite StrFacts.app_cons. cbn [sub_from].
      apply IH. lia. }
  rewrite StrFacts.app_cons. cbn [sub_from]. rewrite <- StrFacts.app_cons.
  rewrite HU by done.
  destruct (match_token name (String c pre)) as [rest|]; cbn [option_map].
  - rewrite !StrFacts.length_app, StrFacts.app_assoc. f_equal.
    cbn [String.length].
    replace (S (String.length pre) + String.length U
             - (String.length rest + String.length U) - 1)
      with (S (String.length pre) - String.length rest - 1) by lia.
    apply IH. lia.
  - rewrite StrFacts.app_cons. f_equal. apply IH. lia.
Qed.

Lemma sub_from_open name value T :
  no_open name = true -> name <> EmptyString ->
  forall pre,
  sub_from name value 0 (pre +:+ String "{" (String "{" T)) =
  sub_from name value 0 pre +:+ sub_from name value 0 (String "{" (String "{" T)).
Proof.
  intros Hn Hne pre. apply sub_from_app; [|lia].
  intros p Hp. by apply match_token_open.
Qed.

Lemma sub_from_skip name value a b :
  sub_from name value (String.length a) (a +:+ b) = sub_from name value 0 b.
Proof. induction a as [|c a IH]; [done | apply IH]. Qed.

Lemma match_token_app name tok post :
  name <> EmptyString -> is_token name tok ->
  match_token name (tok +:+ post) = Some post.
Proof.
  unfold is_token, match_token. intros Hne H.
  destruct (strip_prefix "{{" tok) as [s1|] eqn:H1; [|done].
  rewrite (strip_prefix_app _ _ _ _ H1).
  destruct (strip_prefix name (skip_ws s1)) as [s2|] eqn:H2; [|done].
  assert (skip_ws s1 <> EmptyString) as Hs1.
  { intros E. rewrite E in H2. by destruct name. }
  rewrite skip_ws_app, (strip_prefix_app _ _ _ _ H2) by done.
  assert (skip_ws s2 <> EmptyString) as Hs2.
  { intros E. by rewrite E in H. }
  rewrite skip_ws_app by done. by rewrite (strip_prefix_app _ _ _ _ H).
Qed.

Lemma is_token_open name tok :
  is_token name tok -> exists T, tok = String "{" (String "{" T).
Proof.
  unfold is_token, match_token. intros H.
  destruct (strip_prefix "{{" tok) as [s1|] eqn:H1; [|done].
  exists s1. by apply strip_prefix_eq in H1.
Qed.

(** One pass replaces a token by the value and goes on behind the token. *)
Lemma sub_from_token name value tok post :
  name <> EmptyString -> is_token name tok ->
  sub_from name value 0 (tok +:+ post) = value +:+ sub_from name value 0 post.
Proof.
  intros Hne Htok. pose proof (match_token_app _ _ post Hne Htok) as Hm.
  destruct (is_token_open _ _ Htok) as [T ->].
  rewrite StrFacts.app_cons in *. cbn [sub_from]. rewrite Hm. f_equal.
  rewrite <- StrFacts.app_cons.
  replace (_ - _ - 1) with (String.length (String "{" T)).
  - apply sub_from_skip.
  - rewrite StrFacts.app_cons. cbn [String.length]. rewrite StrFacts.length_app.
    cbn [String.length]. lia.
Qed.

(** One pass replaces a token by the value and goes on behind the token. *)
Lemma re_sub_token name value pre tok post :
  no_open name = true -> name <> EmptyString -> is_token name tok ->
  re_sub name value (pre +:+ tok +:+ post) =
  re_sub name value pre +:+ value +:+ re_sub name value post.
Proof.
  intros Hn Hne Htok. unfold re_sub.
  rewrite <- (sub_from_token name value tok post) by done.
  destruct (is_token_open _ _ Htok) as [T ->].
  rewrite !StrFacts.app_cons. by apply sub_from_open.
Qed.

Lemma no_open_app a b : no_open (a +:+ b) = no_open a && no_open b.
Proof.
  induction a as [|c a IH]; [done|]. rewrite StrFacts.app_cons. cbn [no_open].
  by rewrite IH, andb_assoc.
Qed.

Lemma allspace_no_open w : allspace w = true -> no_open w = true.
Proof.
  induction w as [|c w IH]; [done|]. cbn [allspace no_open].
  intros [Hc Hw]%andb_true_iff. rewrite IH by done.
  destruct (Ascii.eqb_spec c "{") as [->|]; done.
Qed.

Lemma skip_ws_split s : exists w, s = w +:+ skip_ws s /\ allspace w = true.
Proof.
  induction s as [|c s [w [IH1 IH2]]]; [by exists EmptyString|].
  cbn [skip_ws]. destruct (Str.isspace c) eqn:Hc.
  - exists (String c w). rewrite StrFacts.app_cons, <- IH1. cbn [allspace].
    by rewrite Hc, IH2.
  - by exists EmptyString.
Qed.

Lemma skip_ws_allspace w s :
  allspace w = true -> skip_ws (w +:+ s) = skip_ws s.
Proof.
  induction w as [|c w IH]; [done|]. cbn [allspace].
  intros [Hc Hw]%andb_true_iff. rewrite StrFacts.app_cons. cbn [skip_ws].
  rewrite Hc. by apply IH.
Qed.

Lemma is_token_shape name tok :
  is_token name tok ->
  exists w1 w2, tok = "{{" +:+ w1 +:+ name +:+ w2 +:+ "}}" /\
                allspace w1 = true /\ allspace w2 = true.
Proof.
  unfold is_token, match_token. intros H.
  destruct (strip_prefix "{{" tok) as [s1|] eqn:H1; [|done].
  destruct (strip_prefix name (skip_ws s1)) as [s2|] eqn:H2; [|done].
  apply strip_prefix_eq in H1, H2, H.
  destruct (skip_ws_split s1) as [w1 [E1 Hw1]].
  destruct (skip_ws_split s2) as [w2 [E2 Hw2]].
  exists w1, w2. split; [|done].
  rewrite H1, E1, H2, E2, H at 1. by rewrite StrFacts.app_nil_r.
Qed.

Lemma sub_from_no_open name value x post :
  no_open x = true ->
  sub_from name value 0 (x +:+ post) = x +:+ sub_from name value 0 post.
Proof.
  induction x as [|c x IH]; [done|]. cbn [no_open].
  intros [Hc Hx]%andb_true_iff. rewrite !StrFacts.app_cons. cbn [sub_from].
  rewrite match_token_not_open by by destruct (Ascii.eqb c "{").
  f_equal. by apply IH.
Qed.

Lemma strip_prefix_clash a b y :
  clash a b = true -> strip_prefix a (b +:+ y) = None.
Proof.
  revert b; induction a as [|x a IH]; intros [|z b] H; try done.
  rewrite StrFacts.app_cons. cbn [strip_prefix clash] in *.
  destruct (Ascii.eqb x z); [by apply IH | done].
Qed.

(** A pass for another name leaves a token as it is. *)
Lemma sub_from_other_token name' name value tok post :
  clash name' name = true -> no_open name = true ->
  starts_nonspace name = true ->
  is_token name tok ->
  sub_from name' value 0 (tok +:+ post) = tok +:+ sub_from name' value 0 post.
Proof.
  intros Hcl Hn Hws (w1 & w2 & -> & Hw1 & Hw2)%is_token_shape.
  assert (no_open (w1 +:+ name +:+ w2 +:+ "}}") = true) as Hx.
  { rewrite !no_open_app, Hn, !allspace_no_open by done. done. }
  assert (match_token name' (String "{" (String "{"
            ((w1 +:+ name +:+ w2 +:+ "}}") +:+ post))) = None) as Hm.
  { rewrite match_token_after_open. unfold after_open.
    rewrite !StrFacts.app_assoc, skip_ws_allspace by done.
    assert (skip_ws (name +:+ w2 +:+ "}}" +:+ post) = name +:+ w2 +:+ "}}" +:+ post) as ->.
    { destruct name as [|c name]; [done|]. rewrite StrFacts.app_cons.
      cbn [skip_ws starts_nonspace] in *. by destruct (Str.isspace c). }
    by rewrite strip_prefix_clash. }
  assert (w1 +:+ name +:+ w2 +:+ "}}" <> EmptyString) as Hne.
  { destruct w1; [destruct name|]; done. }
  revert Hx Hm Hne. generalize (w1 +:+ name +:+ w2 +:+ "}}"). intros x Hx Hm Hne.
  change ("{{" +:+ x) with (String "{" (String "{" x)).
  rewrite !StrFacts.app_cons. cbn [sub_from].
  rewrite Hm. f_equal.
  destruct x as [|c x]; [done|].
  cbn [no_open] in Hx. apply andb_true_iff in Hx as [Hc Hx].
  assert (match_token name' (String "{" (String c x +:+ post)) = None) as ->.
  { unfold match_token. rewrite StrFacts.app_cons.
    change (strip_prefix "{{" (String "{" (String c (x +:+ post))))
      with (if Ascii.eqb "{" c then Some (x +:+ post) else None).
    rewrite Ascii.eqb_sym. by destruct (Ascii.eqb c "{"). }
  f_equal. apply sub_from_no_open. cbn [no_open]. by rewrite Hc, Hx.
Qed.

Lemma re_sub_other_token name' name value pre tok post :
  no_open name' = true -> name' <> EmptyString ->
  clash name' name = true -> no_open name = true ->
  starts_nonspace name = true ->
  is_token name tok ->
  re_sub name' value (pre +:+ tok +:+ post) =
  re_sub name' value pre +:+ tok +:+ re_sub name' value post.
Proof.
  intros Hn' Hne' Hcl Hn Hws Htok. unfold re_sub.
  rewrite <- (sub_from_other_token name' name value tok post) by done.
  destruct (is_token_open _ _ Htok) as [T ->].
  rewrite !StrFacts.app_cons. by apply sub_from_open.
Qed.

Theorem render_tree_json_verbatim ts pre tok post title nb_count tree :
  is_token "TREE_JSON" tok ->
  render_with ts (pre +:+ tok +:+ post) title nb_count (Some tree) =
  render_with ts pre title nb_count (Some tree) +:+ safe_json tree +:+
  render_with ts post title nb_count (Some tree).
Proof.
  intros Htok. unfold render_with.
  rewrite (re_sub_other_token "TITLE" "TREE_JSON") by done.
  rewrite (re_sub_other_token "TIMESTAMP" "TREE_JSON") by done.
  rewrite (re_sub_other_token "NBCOUNT" "TREE_JSON") by done.
  by rewrite re_sub_token.
Qed.

(** ** The escape of the serialized tree *)

Lemma startswith_cons a p b s :
  Str.startswith (String a p) (String b s) = Ascii.eqb a b && Str.startswith p s.
Proof. reflexivity. Qed.

Lemma contains_cons sub c s :
  Str.contains sub (String c s) = Str.startswith sub (String c s) || Str.contains sub s.
Proof. destruct sub; reflexivity. Qed.

Lemma replace_close_aux (s : string) : forall k,
  Str.contains "</" (Str.replace_from "</" "<\/" k s) = false /\
  (k = 0 -> Str.startswith "/" s = false ->
   Str.startswith "/" (Str.replace_from "</" "<\/" k s) = false).
Proof.
  induction s as [|c s IH]; intros k.
  { split; [reflexivity | intros; reflexivity]. }
  destruct k as [|k]; [|split; [apply IH | discriminate]].
  cbn [Str.replace_from].
  destruct (Str.startswith "</" (String c s)) eqn:Hm.
  - rewrite startswith_cons in Hm. apply andb_true_iff in Hm as [Hc _].
    apply Ascii.eqb_eq in Hc as <-.
    split; [|intros; reflexivity].
    change (Str.contains "</" (String "<" (String "\" (String "/"
      (Str.replace_from "</" "<\/" 1 s)))) = false).
    rewrite !contains_cons. destruct (IH 1) as [-> _]. reflexivity.
  - split.
    + rewrite contains_cons, startswith_cons.
      destruct (IH 0) as [-> IH2].
      rewrite startswith_cons in Hm.
      destruct (Ascii.eqb "<" c); [|reflexivity].
      simpl in Hm. rewrite (IH2 eq_refl Hm). reflexivity.
    + intros _ Hc. rewrite startswith_cons in *.
      apply andb_false_iff in Hc as [Hc|Hc]; [by rewrite Hc | discriminate].
Qed.

(** ** Pruning *)

Lemma prune_children_eq prune chs acc has :
  prune_children prune chs acc has =
  (acc ++ omap (fun c => fst (prune c)) chs,
   has || existsb (fun c => snd (prune c)) chs).
Proof.
  revert acc has. induction chs as [|c chs IH]; intros acc has; cbn.
  { by rewrite app_nil_r, orb_false_r. }
  destruct (prune c) as [[p|] b]; cbn; rewrite IH.
  - by rewrite <- app_assoc, orb_assoc.
  - by rewrite orb_assoc.
Qed.

Lemma prune_dir_eq name path ch :
  prune_empty_dirs (Dir name path ch) =
  let has := existsb (fun c => snd (prune_empty_dirs c)) ch in
  ((if has then Some (Dir name path (omap pruned ch)) else None), has).
Proof. cbn [prune_empty_dirs]. by rewrite prune_children_eq. Qed.

Lemma existsb_ext_Forall {A} (f g : A -> bool) l :
  Forall (fun x => f x = g x) l -> existsb f l = existsb g l.
Proof. induction 1 as [|x l E _ IH]; [done|]. cbn. by rewrite E, IH. Qed.

Lemma prune_has (n : node) : snd (prune_empty_dirs n) = has_file n.
Proof.
  induction n as [name path ch IH|] using node_induction; [|done].
  rewrite prune_dir_eq. cbn. by apply existsb_ext_Forall.
Qed.

Lemma prune_dir name path ch :
  pruned (Dir name path ch) =
  if existsb has_file ch then Some (Dir name path (omap pruned ch)) else None.
Proof.
  unfold pruned at 1. rewrite prune_dir_eq. cbn.
  rewrite (existsb_ext_Forall _ has_file); [done|].
  apply Forall_forall. intros; apply prune_has.
Qed.

Lemma pruned_is_Some (n : node) : is_Some (pruned n) <-> has_file n = true.
Proof.
  destruct n as [name path ch|]; [|by split; [|eexists]].
  rewrite prune_dir. cbn.
  destruct (existsb has_file ch).
  - split; [done | by eexists].
  - split; [by intros [? ?] | done].
Qed.

Lemma has_file_subnodes (n : node) : has_file n = existsb is_file (subnodes n).
Proof.
  induction n as [name path ch IH|] using node_induction; [|done]. cbn.
  induction IH as [|c ch E _ IH']; [done|]. cbn.
  by rewrite existsb_app, E, IH'.
Qed.

Lemma has_file_descendants name path ch :
  has_file (Dir name path ch) = true <->
  exists f, f ∈ descendants (Dir name path ch) /\ is_file f = true.
Proof.
  rewrite has_file_subnodes. cbn. rewrite existsb_exists.
  unfold descendants. cbn. by setoid_rewrite list_elem_of_In.
Qed.

Lemma pruned_name n t : pruned n = Some t -> node_name t = node_name n.
Proof.
  destruct n as [name path ch|]; [|by intros [= <-]].
  rewrite prune_dir. by destruct (existsb has_file ch); intros [= <-].
Qed.

Lemma pruned_count (n : node) :
  (forall t, pruned n = Some t -> count_files t = count_files n) /\
  (has_file n = false -> count_files n = 0).
Proof.
  induction n as [name path ch IH|] using node_induction; [|by split; [intros t [= <-]|]].
  assert (list_sum (map count_files (omap pruned ch)) = list_sum (map count_files ch)) as E.
  { induction IH as [|c ch [Hc1 Hc2] _ IH']; [done|]. csimpl.
    destruct (pruned c) as [t|] eqn:Ht; csimpl.
    - by rewrite (Hc1 t), IH'.
    - rewrite IH', Hc2; [done|].
      destruct (has_file c) eqn:Hf; [|done].
      apply pruned_is_Some in Hf as [? ?]. congruence. }
  split.
  - intros t. rewrite prune_dir. destruct (existsb has_file ch); intros [= <-]. done.
  - cbn [has_file count_files]. intros Hn. clear E.
    induction IH as [|c ch [_ Hc2] _ IH']; [done|].
    cbn [existsb] in Hn. apply orb_false_iff in Hn as [H1 H2].
    cbn [map list_sum foldr]. rewrite Hc2 by done. exact (IH' H2).
Qed.

Lemma pruned_has_file (n : node) : forall t,
  pruned n = Some t -> has_file t = true.
Proof.
  induction n as [name path ch IH|] using node_induction; intros t.
  2:{ by intros [= <-]. }
  rewrite prune_dir. destruct (existsb has_file ch) eqn:Hex; intros [= <-].
  cbn. induction IH as [|c ch Hc _ IH']; [done|]. csimpl in *.
  destruct (pruned c) as [t|] eqn:Ht; csimpl.
  - by rewrite (Hc t).
  - apply IH'. destruct (has_file c) eqn:Hf; [|done].
    apply pruned_is_Some in Hf as [? ?]. congruence.
Qed.

Lemma pruned_dirs_have_file (n : node) : forall t,
  pruned n = Some t -> Forall (fun d => has_file d = true) (subnodes t).
Proof.
  induction n as [name path ch IH|] using node_induction; intros t Ht.
  2:{ injection Ht as <-. cbn. by constructor. }
  pose proof (pruned_has_file _ _ Ht) as Hroot.
  rewrite prune_dir in Ht. destruct (existsb has_file ch); [|done].
  injection Ht as <-.
  cbn [subnodes]. constructor; [done|]. clear Hroot.
  induction IH as [|c ch Hc _ IH']; [constructor|]. csimpl.
  destruct (pruned c) as [t|] eqn:Ht; [|done]. csimpl.
  apply Forall_app. split; [by apply Hc | done].
Qed.
(** ** The monad *)

Lemma bind_Ok {A B} (m : M A) (k : A -> M B) w b w'' :
  bind m k w = (Ok b, w'') <->
  exists a w', m w = (Ok a, w') /\ k a w' = (Ok b, w'').
Proof.
  unfold bind. destruct (m w) as [[a|e] w']; split.
  - intros H. by exists a, w'.
  - by intros (a' & w2 & [= -> ->] & H).
  - done.
  - by intros (a' & w2 & [= ] & H).
Qed.

Lemma bind_Raise {A B} (m : M A) (k : A -> M B) w e w'' :
  bind m k w = (Raise e, w'') <->
  m w = (Raise e, w'') \/
  exists a w', m w = (Ok a, w') /\ k a w' = (Raise e, w'').
Proof.
  unfold bind. destruct (m w) as [[a|e'] w']; split.
  - intros H. right. by exists a, w'.
  - intros [[=]|(a' & w2 & [= -> ->] & H)]. done.
  - intros [= -> ->]. by left.
  - intros [[= -> ->]|(a' & w2 & [=] & H)]. done.
Qed.

Lemma for_each_app {A S} (body : S -> A -> M S) l1 l2 st w :
  for_each body (l1 ++ l2) st w =
  match for_each body l1 st w with
  | (Ok st', w') => for_each body l2 st' w'
  | (Raise e, w') => (Raise e, w')
  end.
Proof.
  revert st w. induction l1 as [|x l1 IH]; intros st w; [done|].
  cbn [for_each app]. unfold bind. destruct (body st x w) as [[st1|e] w1]; [|done].
  apply IH.
Qed.

Lemma for_each_invariant {A S} (body : S -> A -> M S)
    (I : list A -> S -> world -> Prop) :
  (forall x l st w st' w',
     I (x :: l) st w -> body st x w = (Ok st', w') -> I l st' w') ->
  forall l st w st' w',
    I l st w -> for_each body l st w = (Ok st', w') -> I [] st' w'.
Proof.
  intros Hstep. induction l as [|x l IH]; intros st w st' w' HI H.
  - by injection H as <- <-.
  - cbn [for_each] in H. apply bind_Ok in H as (st1 & w1 & H1 & H2).
    eapply IH; [|done]. by eapply Hstep.
Qed.

(** ** Positions in the tree *)

Lemma count_files_dir name path ch :
  count_files (Dir name path ch) = list_sum (map count_files ch).
Proof. reflexivity. Qed.

Lemma list_sum_cons x l : list_sum (x :: l) = x + list_sum l.
Proof. reflexivity. Qed.

Lemma append_at_count pos c : forall t t',
  append_at pos c t = Some t' ->
  count_files t' = count_files t + count_files c.
Proof.
  induction pos as [|i pos IH]; intros [name path ch|] t' H; try done.
  - injection H as <-. rewrite !count_files_dir, map_app, list_sum_app.
    cbn [map]. rewrite list_sum_cons. cbn [list_sum foldr]. lia.
  - cbn [append_at] in H.
    destruct (ch !! i) as [ti|] eqn:Hi; [|done].
    destruct (append_at pos c ti) as [t''|] eqn:Ht; [|done].
    injection H as <-. apply IH in Ht. rewrite !count_files_dir.
    rewrite <- (take_drop_middle ch i ti Hi) at 2.
    rewrite insert_take_drop by by eapply lookup_lt_Some.
    rewrite !map_app, !list_sum_app. cbn [map]. rewrite !list_sum_cons. lia.
Qed.

(** ** The order of paths *)

Lemma path_leb_refl p : path_leb p p = true.
Proof. induction p as [|a p IH]; [done|]. cbn. by rewrite String.eqb_refl. Qed.

Lemma string_leb_le a b : String.leb a b = true <-> String.le a b.
Proof. unfold String.le. by rewrite Is_true_true. Qed.

Lemma path_leb_trans p : forall q r,
  path_leb p q = true -> path_leb q r = true -> path_leb p r = true.
Proof.
  induction p as [|a p IH]; intros [|b q] [|c r]; cbn; try done.
  destruct (String.eqb_spec a b) as [->|Hab].
  - destruct (String.eqb_spec b c) as [->|Hbc]; [apply IH | done].
  - destruct (String.eqb_spec b c) as [->|Hbc].
    + destruct (String.eqb_spec a c); done.
    + rewrite !string_leb_le. intros H1 H2.
      destruct (String.eqb_spec a c) as [->|Hac].
      * destruct Hab. by apply (anti_symm String.le).
      * apply string_leb_le. by etrans.
Qed.

Lemma path_leb_total p : forall q, path_leb p q = true \/ path_leb q p = true.
Proof.
  induction p as [|a p IH]; intros [|b q]; cbn; auto.
  rewrite (String.eqb_sym b a). destruct (String.eqb_spec a b) as [->|Hab]; [apply IH|].
  apply String.leb_total.
Qed.

#[global] Instance path_le_refl : Reflexive path_le.
Proof. intros p. apply Is_true_true, path_leb_refl. Qed.

#[global] Instance path_le_trans : Transitive path_le.
Proof.
  intros p q r. unfold path_le. rewrite !Is_true_true. apply path_leb_trans.
Qed.

#[global] Instance path_le_total : Total path_le.
Proof.
  intros p q. unfold path_le. rewrite !Is_true_true. apply path_leb_total.
Qed.

Lemma path_leb_app k p q : path_leb (k ++ p) (k ++ q) = path_leb p q.
Proof. induction k as [|a k IH]; [done|]. cbn. by rewrite String.eqb_refl. Qed.

Lemma path_le_prefix k r : path_le k (k ++ r).
Proof.
  apply Is_true_true. rewrite <- (app_nil_r k) at 1. by rewrite path_leb_app.
Qed.

Lemma path_le_nil p : path_le [] p.
Proof. done. Qed.

(** Two entries of one directory are ordered as their names are. *)
Lemma path_le_sibling k a b r :
  path_le (k ++ [a]) (k ++ b :: r) -> String.le a b.
Proof.
  unfold path_le. rewrite path_leb_app. cbn.
  destruct (String.eqb_spec a b) as [->|]; [done|].
  by rewrite Is_true_true, string_leb_le.
Qed.

Lemma sorted_StronglySorted l : StronglySorted path_le (sorted l).
Proof. apply StronglySorted_merge_sort; apply _. Qed.

Lemma sorted_Permutation l : sorted l ≡ₚ l.
Proof. apply merge_sort_Permutation. Qed.

(** ** Appending to the tree *)

Lemma append_at_root pos c t t' :
  append_at pos c t = Some t' ->
  node_name t' = node_name t /\ is_file t' = false /\ is_file t = false.
Proof.
  destruct t as [name path ch|]; [|by destruct pos].
  destruct pos as [|i pos]; cbn [append_at].
  - by intros [= <-].
  - destruct (ch !! i) as [ti|]; [|done].
    destruct (append_at pos c ti); [|done]. by intros [= <-].
Qed.

Lemma map_name_insert (ch : list node) i x y :
  ch !! i = Some x -> node_name y = node_name x ->
  map node_name (<[i := y]> ch) = map node_name ch.
Proof.
  intros Hi Hn. change (map node_name) with (fmap (M := list) node_name).
  rewrite list_fmap_insert, Hn. apply list_insert_id.
  by rewrite list_lookup_fmap, Hi.
Qed.

(** What an append changes for the node at another position: nothing but,
    at the position of the append, one more child. *)
Lemma get_node_append c pos0 : forall pos t t' d,
  append_at pos0 c t = Some t' -> get_node pos t = Some d ->
  exists d', get_node pos t' = Some d' /\
    node_name d' = node_name d /\ is_file d' = is_file d /\
    map node_name (children d') =
      map node_name (children d) ++
      (if decide (pos = pos0) then [node_name c] else []).
Proof.
  induction pos0 as [|i pos0 IH]; intros pos [name path ch|] t' d Ha Hg; try done.
  - injection Ha as <-. destruct pos as [|j pos].
    + injection Hg as <-. eexists. split; [done|].
      rewrite decide_True by done. cbn [children]. by rewrite map_app.
    + cbn [get_node children] in *.
      destruct (ch !! j) as [tj|] eqn:Hj; [|done].
      rewrite (lookup_app_l_Some _ _ _ _ Hj). exists d.
      rewrite decide_False by done. by rewrite app_nil_r.
  - cbn [append_at] in Ha.
    destruct (ch !! i) as [ti|] eqn:Hi; [|done].
    destruct (append_at pos0 c ti) as [ti'|] eqn:Hti; [|done].
    injection Ha as <-. destruct pos as [|j pos].
    + injection Hg as <-. eexists. split; [done|].
      rewrite decide_False by done. cbn [children node_name is_file].
      rewrite app_nil_r. split; [done|]. split; [done|].
      apply (map_name_insert _ _ ti); [done|]. by apply append_at_root in Hti as [? _].
    + cbn [get_node children] in *. destruct (decide (j = i)) as [->|Hji].
      * rewrite Hi in Hg.
        rewrite list_lookup_insert_eq by by eapply lookup_lt_Some.
        destruct (IH pos ti ti' d Hti Hg) as (d' & ? & ? & ? & E).
        exists d'. repeat split; try done. rewrite E.
        destruct (decide (pos = pos0)) as [->|Hne].
        -- by rewrite decide_True.
        -- rewrite decide_False; [done|]. by intros [= ].
      * rewrite list_lookup_insert_ne by done.
        destruct (ch !! j) as [tj|]; [|done]. exists d.
        rewrite decide_False by (by intros [= ]). by rewrite app_nil_r.
Qed.

Lemma get_node_app pos1 pos2 t :
  get_node (pos1 ++ pos2) t =
  match get_node pos1 t with
  | Some d => get_node pos2 d
  | None => None
  end.
Proof.
  revert t. induction pos1 as [|i pos1 IH]; intros t; [done|].
  cbn [get_node app]. destruct (children t !! i); [apply IH | done].
Qed.

(** The appended child is the last child of the node at the position. *)
Lemma get_node_append_new c pos0 : forall t t' d,
  append_at pos0 c t = Some t' -> get_node pos0 t = Some d ->
  get_node (pos0 ++ [length (children d)]) t' = Some c /\
  get_node (pos0 ++ [length (children d)]) t = None.
Proof.
  induction pos0 as [|i pos0 IH]; intros [name path ch|] t' d Ha Hg; try done.
  - injection Ha as <-. injection Hg as <-. cbn [app get_node children].
    rewrite lookup_app_r, Nat.sub_diag by done. split; [done|].
    by rewrite lookup_ge_None_2.
  - cbn [append_at] in Ha. cbn [get_node children] in Hg.
    destruct (ch !! i) as [ti|] eqn:Hi; [|done].
    destruct (append_at pos0 c ti) as [ti'|] eqn:Hti; [|done].
    injection Ha as <-. cbn [app get_node children].
    rewrite list_lookup_insert_eq by by eapply lookup_lt_Some.
    rewrite Hi. by apply IH.
Qed.

Lemma append_at_is_Some c pos : forall t d,
  get_node pos t = Some d -> is_file d = false ->
  is_Some (append_at pos c t).
Proof.
  induction pos as [|i pos IH]; intros t d Hg Hd.
  - injection Hg as <-. destruct t; [by eexists | done].
  - cbn [get_node] in Hg. destruct t as [name path ch|]; [|done].
    cbn [children append_at] in *. destruct (ch !! i) as [ti|]; [|done].
    destruct (IH ti d Hg Hd) as [t'' ->]. by eexists.
Qed.

Lemma sorted_nodes_dir name path ch :
  sorted_nodes (Dir name path ch) <->
  StronglySorted String.le (map node_name ch) /\ Forall sorted_nodes ch.
Proof.
  unfold sorted_nodes. cbn [subnodes]. rewrite Forall_cons. cbn [children].
  apply and_iff_compat_l. induction ch as [|c ch IH]; cbn [flat_map].
  - split; constructor.
  - by rewrite Forall_app, Forall_cons, IH.
Qed.

Lemma sorted_nodes_leaf c : children c = [] -> sorted_nodes c.
Proof.
  destruct c as [name path ch|]; cbn; [intros ->|intros _].
  - apply sorted_nodes_dir. split; constructor.
  - repeat constructor.
Qed.

Lemma StronglySorted_snoc {A} (R : relation A) l x :
  StronglySorted R l -> Forall (fun y => R y x) l -> StronglySorted R (l ++ [x]).
Proof.
  intros Hl Hx. apply StronglySorted_app. repeat split; [|done|repeat constructor].
  intros a b Ha ->%list_elem_of_singleton. by eapply Forall_forall in Hx.
Qed.

(** Appending a child whose name comes after those of its siblings keeps
    the children in order. *)
Lemma append_at_sorted c pos : forall t t' d,
  append_at pos c t = Some t' -> get_node pos t = Some d ->
  children c = [] ->
  Forall (fun x => String.le (node_name x) (node_name c)) (children d) ->
  sorted_nodes t -> sorted_nodes t'.
Proof.
  induction pos as [|i pos IH]; intros [name path ch|] t' d Ha Hg Hc Hle Hs; try done.
  - injection Ha as <-. injection Hg as <-. cbn [children] in Hle.
    apply sorted_nodes_dir in Hs as [Hs1 Hs2]. apply sorted_nodes_dir. split.
    + rewrite map_app. apply StronglySorted_snoc; [done|].
      by apply Forall_fmap.
    + apply Forall_app. split; [done|]. constructor; [|done].
      by apply sorted_nodes_leaf.
  - cbn [append_at] in Ha. cbn [get_node children] in Hg.
    destruct (ch !! i) as [ti|] eqn:Hi; [|done].
    destruct (append_at pos c ti) as [ti'|] eqn:Hti; [|done].
    injection Ha as <-.
    apply sorted_nodes_dir in Hs as [Hs1 Hs2]. apply sorted_nodes_dir. split.
    + rewrite (map_name_insert _ _ ti); [done..|]. by apply append_at_root in Hti as [? _].
    + apply Forall_insert; [done|]. eapply IH; try done.
      by eapply Forall_lookup_1 in Hs2.
Qed.

(** ** The invariant of the walk *)

Lemma relative_to_Some p base rel :
  relative_to p base = Some rel <-> p = base ++ rel.
Proof.
  revert p. induction base as [|b base IH]; intros p; cbn.
  - split; [by intros [= ->] | by intros ->].
  - destruct p as [|a p]; [done|].
    destruct (String.eqb_spec a b) as [->|Hab].
    + rewrite IH. split; [by intros -> | by intros [= ->]].
    + split; [done | by intros [= ]].
Qed.

Lemma walk_inv_mono src b b' st :
  path_le b b' -> walk_inv src b st -> walk_inv src b' st.
Proof.
  intros Hb [H1 H2 H3 H4 H5]. split; try done.
  intros k pos d Hk Hd. eapply Forall_impl; [by eapply H4|].
  intros x Hx. by transitivity b.
Qed.

Lemma walk_inv_init src b : walk_inv src b (init_state src).
Proof.
  split; cbn [init_state dir_map root].
  - apply lookup_singleton_eq.
  - intros k pos [-> <-]%lookup_singleton_Some. by eexists.
  - by intros k k' pos [-> <-]%lookup_singleton_Some [-> _]%lookup_singleton_Some.
  - intros k pos d [-> <-]%lookup_singleton_Some [= <-]. constructor.
  - apply sorted_nodes_dir. split; constructor.
Qed.

Lemma Forall_children_names (P : string -> Prop) (d d' : node) extra :
  map node_name (children d') = map node_name (children d) ++ extra ->
  Forall (fun x => P (node_name x)) (children d) -> Forall P extra ->
  Forall (fun x => P (node_name x)) (children d').
Proof.
  intros E H1 H2.
  apply (Forall_fmap node_name P).
  change (node_name <$> children d') with (map node_name (children d')).
  rewrite E. apply Forall_app. split; [|done].
  by apply (Forall_fmap node_name P).
Qed.

(** Appending a last child that is an entry of the directory [k], on the way
    to the entry [b] or [b] itself. *)
Lemma walk_inv_append src b st k pos c r root' n :
  walk_inv src b st ->
  dir_map st !! k = Some pos ->
  b = k ++ node_name c :: r ->
  children c = [] ->
  append_at pos c (root st) = Some root' ->
  walk_inv src b {| nb_count := n; root := root'; dir_map := dir_map st |}.
Proof.
  intros [H1 H2 H3 H4 H5] Hk -> Hc Ha. split; cbn [dir_map root]; try done.
  - intros k1 pos1 Hk1. destruct (H2 _ _ Hk1) as (d1 & Hd1 & Hf1).
    destruct (get_node_append c pos pos1 _ _ _ Ha Hd1) as (d' & ? & ? & Hf & _).
    exists d'. by rewrite Hf.
  - intros k1 pos1 d' Hk1 Hd'. destruct (H2 _ _ Hk1) as (d1 & Hd1 & Hf1).
    destruct (get_node_append c pos pos1 _ _ _ Ha Hd1) as (d'' & Hd'' & _ & _ & E).
    rewrite Hd'' in Hd'. injection Hd' as ->.
    apply (Forall_children_names (fun nm => path_le (k1 ++ [nm]) _) d1 d' _ E).
    + by eapply H4.
    + destruct (decide (pos1 = pos)) as [->|]; [|constructor].
      rewrite (H3 _ _ _ Hk1 Hk). constructor; [|constructor].
      apply Is_true_true. rewrite path_leb_app. cbn. by rewrite String.eqb_refl.
  - destruct (H2 _ _ Hk) as (d & Hd & Hf).
    apply (append_at_sorted c pos (root st) root' d Ha Hd Hc); [|done].
    apply (Forall_impl _ _ _ (H4 k pos d Hk Hd)).
    intros x Hx. exact (path_le_sibling _ _ _ _ Hx).
Qed.

(** Recording in [dir_map] the directory node just appended. *)
Lemma walk_inv_register src b st key newpos c n :
  walk_inv src b st ->
  dir_map st !! key = None ->
  (forall k, dir_map st !! k <> Some newpos) ->
  get_node newpos (root st) = Some c -> is_file c = false -> children c = [] ->
  walk_inv src b {| nb_count := n; root := root st;
                    dir_map := <[key := newpos]> (dir_map st) |}.
Proof.
  intros [H1 H2 H3 H4 H5] Hkey Hfresh Hc Hf Hch. split; cbn [dir_map root]; try done.
  - rewrite lookup_insert_ne; [done|]. intros <-. congruence.
  - intros k pos. rewrite lookup_insert. case_decide as E.
    + intros [= <-]. by exists c.
    + apply H2.
  - intros k k' pos. rewrite !lookup_insert.
    repeat case_decide; subst; try done.
    + intros [= <-] Hk'. by destruct (Hfresh k').
    + intros Hk [= <-]. by destruct (Hfresh k).
    + apply H3.
  - intros k pos d. rewrite lookup_insert. case_decide as E.
    + intros [= <-]. rewrite Hc. intros [= <-]. rewrite Hch. constructor.
    + apply H4.
Qed.

Lemma ensure_dirs_inv src b rel : forall parts i cur pn st tail,
  walk_inv src b st -> dir_map st !! cur = Some pn ->
  b = cur ++ parts ++ tail ->
  exists pn' st',
    ensure_dirs rel i parts cur pn st = Some (cur ++ parts, pn', st') /\
    walk_inv src b st' /\ dir_map st' !! (cur ++ parts) = Some pn' /\
    nb_count st' = nb_count st /\ count_files (root st') = count_files (root st).
Proof.
  induction parts as [|p parts IH]; intros i cur pn st tail Hinv Hcur Hb.
  { exists pn, st. rewrite app_nil_r. by split_and!. }
  cbn [ensure_dirs].
  assert (b = (cur ++ [p]) ++ parts ++ tail) as Hb' by by rewrite <- app_assoc.
  assert (cur ++ p :: parts = (cur ++ [p]) ++ parts) as -> by by rewrite <- app_assoc.
  destruct (dir_map st !! (cur ++ [p])) as [pos|] eqn:Hk.
  { rewrite Hk. by apply (IH _ _ _ _ tail). }
  destruct (inv_dirs _ _ _ Hinv _ _ Hcur) as (d & Hd & Hf). rewrite Hd.
  destruct (append_at_is_Some (Dir p (str_rel (take (i + 1) rel)) []) pn _ _ Hd Hf)
    as [root' Ha].
  rewrite Ha. cbn [dir_map]. rewrite lookup_insert_eq.
  destruct (get_node_append_new _ _ _ _ _ Ha Hd) as [Hnew Hold].
  match goal with |- context [ensure_dirs _ _ _ _ _ ?s] => set (st1 := s) end.
  assert (walk_inv src b st1) as Hinv1.
  { apply (walk_inv_register src b
             {| nb_count := nb_count st; root := root'; dir_map := dir_map st |}
             (cur ++ [p]) _ (Dir p (str_rel (take (i + 1) rel)) []));
      cbn [dir_map root]; [|done| |done|done|done].
    - by apply (walk_inv_append src b st cur pn
                  (Dir p (str_rel (take (i + 1) rel)) []) (parts ++ tail)).
    - intros k Hk'. destruct (inv_dirs _ _ _ Hinv _ _ Hk') as (d' & Hd' & _).
      congruence. }
  destruct (IH (S i) (cur ++ [p]) (pn ++ [length (children d)]) st1 tail Hinv1)
    as (pn' & st' & He & Hi' & Hl & Hn & Hc); [apply lookup_insert_eq | done |].
  exists pn', st'. split_and!; try done.
  rewrite Hc. subst st1. cbn [root].
  apply append_at_count in Ha. cbn in Ha. lia.
Qed.

(** ** The conversion of one notebook *)

Lemma path_name_app p rel : rel <> [] -> path_name (p ++ rel) = path_name rel.
Proof.
  unfold path_name. intros H. destruct (exists_last H) as (l & a & ->).
  by rewrite app_assoc, !last_last.
Qed.

Lemma parent_app p rel : rel <> [] -> parent (p ++ rel) = p ++ parent rel.
Proof. intros H. by apply removelast_app. Qed.

Lemma parent_snoc p a : parent (p ++ [a]) = p.
Proof. apply removelast_last. Qed.

Lemma path_name_snoc p a : path_name (p ++ [a]) = a.
Proof. apply last_last. Qed.

Lemma parent_name p : p <> [] -> p = parent p ++ [path_name p].
Proof. intros H. by apply app_removelast_last. Qed.

Lemma rel_of_app src rel : rel_of src (src ++ rel) = rel.
Proof. unfold rel_of. by rewrite drop_app_length. Qed.

Lemma bind_ext {A B} (m : M A) (k1 k2 : A -> M B) w :
  (forall a w', k1 a w' = k2 a w') -> bind m k1 w = bind m k2 w.
Proof. intros H. unfold bind. destruct (m w) as [[a|e] w']; [apply H | done]. Qed.

Section NotebookStep.

Variable sys_executable : string.
Variable nbconvert : list string -> gmap (list string) obj -> option (string * string).
Variables (src out : path) (execute : bool).

(** The conversion of a notebook: the directory of the document is made,
    the converter is run, the file node becomes the last child of the
    directory of the notebook. *)
Lemma notebook_step_eq st rel w pos d :
  rel <> [] -> path_name rel <> EmptyString ->
  dir_map st !! parent (src ++ rel) = Some pos ->
  get_node pos (root st) = Some d -> is_file d = false ->
  exists root',
    append_at pos (file_node_of src (src ++ rel)) (root st) = Some root' /\
    notebook_step sys_executable nbconvert out execute st (src ++ rel) rel w =
    (do mkdir_p (out ++ parent rel) then
     do subprocess_run sys_executable nbconvert
          (conv_of src out execute (src ++ rel)) then
     ret {| nb_count := nb_count st + 1; root := root';
            dir_map := dir_map st |}) w.
Proof.
  intros Hrel Hname Hpos Hd Hf.
  destruct (append_at_is_Some (file_node_of src (src ++ rel)) pos _ _ Hd Hf)
    as [root' Ha].
  exists root'. split; [done|].
  unfold notebook_step, with_suffix, conv_of, file_node_of in *.
  rewrite rel_of_app in *.
  rewrite path_name_app by done.
  destruct (path_name rel) as [|c nm] eqn:En; [done|].
  cbn [lift]. unfold bind at 1. cbn [ret].
  rewrite parent_snoc, path_name_snoc, parent_app by done.
  apply bind_ext. intros _ w1. apply bind_ext. intros _ w2.
  assert (relative_to ((out ++ parent rel) ++ [name_with_suffix (String c nm) ".html"]) out
          = Some (parent rel ++ [name_with_suffix (String c nm) ".html"])) as ->.
  { apply relative_to_Some. by rewrite app_assoc. }
  cbn [lift]. unfold bind at 1. cbn [ret].
  rewrite Hpos. cbn [lift]. unfold bind at 1. cbn [ret].
  unfold parent in *. rewrite Ha. done.
Qed.

End NotebookStep.

(** ** The nodes of the tree *)

Lemma labels_dir name path ch :
  labels (Dir name path ch) = Dir name path [] :: flat_map labels ch.
Proof.
  unfold labels. cbn [subnodes map shallow]. f_equal.
  induction ch as [|c ch IH]; [done|]. cbn [flat_map]. by rewrite map_app, IH.
Qed.

Lemma labels_descendants t : labels t = shallow t :: map shallow (descendants t).
Proof. by destruct t. Qed.

Lemma flat_map_insert {A B} (f : A -> list B) (l : list A) i x y :
  l !! i = Some x ->
  flat_map f l = flat_map f (take i l) ++ f x ++ flat_map f (drop (S i) l) /\
  flat_map f (<[i := y]> l) = flat_map f (take i l) ++ f y ++ flat_map f (drop (S i) l).
Proof.
  intros Hi. split.
  - rewrite <- (take_drop_middle l i x Hi) at 1. by rewrite flat_map_app.
  - rewrite insert_take_drop by by eapply lookup_lt_Some. by rewrite flat_map_app.
Qed.

(** An append adds the nodes of the child and keeps all others. *)
Lemma labels_append c pos : forall t t',
  append_at pos c t = Some t' -> labels t' ≡ₚ labels t ++ labels c.
Proof.
  induction pos as [|i pos IH]; intros [name path ch|] t' Ha; try done.
  - injection Ha as <-. rewrite !labels_dir, flat_map_app. cbn [flat_map].
    by rewrite app_nil_r.
  - cbn [append_at] in Ha.
    destruct (ch !! i) as [ti|] eqn:Hi; [|done].
    destruct (append_at pos c ti) as [ti'|] eqn:Hti; [|done].
    injection Ha as <-. rewrite !labels_dir.
    destruct (flat_map_insert labels ch i ti ti' Hi) as [-> ->].
    rewrite (IH _ _ Hti). cbn [app]. constructor.
    rewrite <- !app_assoc. apply Permutation_app_head, Permutation_app_head.
    apply Permutation_app_comm.
Qed.

Lemma shallow_append c pos t t' :
  append_at pos c t = Some t' -> shallow t' = shallow t.
Proof.
  destruct t as [name path ch|]; [|by destruct pos].
  destruct pos as [|i pos]; cbn [append_at]; [by intros [= <-]|].
  destruct (ch !! i) as [ti|]; [|done].
  by destruct (append_at pos c ti); [intros [= <-]|].
Qed.

Lemma descendants_append c pos t t' :
  append_at pos c t = Some t' ->
  map shallow (descendants t') ≡ₚ map shallow (descendants t) ++ labels c.
Proof.
  intros Ha. pose proof (labels_append _ _ _ _ Ha) as H.
  rewrite !labels_descendants, (shallow_append _ _ _ _ Ha) in H.
  cbn [app] in H. apply Permutation_cons_inv in H.
  by rewrite (labels_descendants c).
Qed.

Lemma files_of_append c pos t t' :
  append_at pos c t = Some t' -> files_of t' ≡ₚ files_of t ++ files_of c.
Proof.
  intros Ha. unfold files_of. by rewrite (labels_append _ _ _ _ Ha), filter_app.
Qed.

Lemma files_of_dir name path ch :
  files_of (Dir name path ch) = flat_map files_of ch.
Proof.
  unfold files_of. rewrite labels_dir.
  rewrite filter_cons_False by (cbn; tauto).
  induction ch as [|c ch IH]; [done|]. cbn [flat_map]. by rewrite filter_app, IH.
Qed.

Lemma count_files_length t : count_files t = length (files_of t).
Proof.
  induction t as [name path ch IH|] using node_induction; [|done].
  rewrite files_of_dir, count_files_dir.
  induction IH as [|c ch Hc _ IH']; [done|].
  cbn [map flat_map]. by rewrite list_sum_cons, length_app, Hc, IH'.
Qed.

(** Pruning removes directories only. *)
Lemma pruned_files (n : node) :
  (forall t, pruned n = Some t -> files_of t = files_of n) /\
  (pruned n = None -> files_of n = []).
Proof.
  induction n as [name path ch IH|] using node_induction; [|by split; [intros t [= <-]|]].
  assert (flat_map files_of (omap pruned ch) = flat_map files_of ch) as E.
  { induction IH as [|c ch [Hc1 Hc2] _ IH']; [done|]. csimpl.
    destruct (pruned c) as [t|] eqn:Ht; csimpl.
    - by rewrite (Hc1 t), IH'.
    - by rewrite IH', Hc2. }
  rewrite prune_dir, !files_of_dir. split.
  - intros t. destruct (existsb has_file ch); intros [= <-].
    by rewrite files_of_dir.
  - destruct (existsb has_file ch) eqn:Hex; [done|]. intros _.
    clear E. induction IH as [|c ch [_ Hc2] _ IH']; [done|].
    cbn [existsb] in Hex. apply orb_false_iff in Hex as [H1 H2].
    cbn [flat_map]. rewrite IH' by done. rewrite Hc2; [done|].
    destruct (pruned c) eqn:Hp; [|done].
    assert (is_Some (pruned c)) as Hs by by eexists.
    apply pruned_is_Some in Hs. congruence.
Qed.

(** A node of the pruned tree is a node of the tree. *)
Lemma pruned_labels (n : node) : forall t,
  pruned n = Some t -> labels t ⊆ labels n.
Proof.
  induction n as [name path ch IH|] using node_induction; intros t.
  2:{ by intros [= <-]. }
  rewrite prune_dir. destruct (existsb has_file ch); intros [= <-].
  rewrite !labels_dir. intros x [->|Hx]%elem_of_cons; [left|right].
  clear -IH Hx. induction IH as [|c ch Hc _ IH']; [done|]. csimpl in *.
  apply elem_of_app. destruct (pruned c) as [t|] eqn:Ht; csimpl in *.
  - apply elem_of_app in Hx as [Hx|Hx]; [left; by apply (Hc t) | right; auto].
  - right; auto.
Qed.

(** ** Ancestors *)

Lemma removelast_fmap {A B} (f : A -> B) (l : list A) :
  removelast (map f l) = map f (removelast l).
Proof.
  induction l as [|x l IH]; [done|]. destruct l as [|y l]; [done|].
  cbn [map removelast] in *. by rewrite IH.
Qed.

Lemma prefixes_not_nil p : prefixes p <> [].
Proof. by destruct p. Qed.

Lemma elem_of_proper_prefixes p : forall q,
  q ∈ removelast (prefixes p) <-> exists r, r <> [] /\ p = q ++ r.
Proof.
  induction p as [|a p IH]; intros q.
  - cbn. split; [by intros ?%elem_of_nil|].
    intros (r & Hr & E). symmetry in E. by apply app_eq_nil in E as [_ ->].
  - cbn [prefixes].
    assert (removelast ([] :: map (cons a) (prefixes p)) =
            [] :: map (cons a) (removelast (prefixes p))) as ->.
    { rewrite <- removelast_fmap. cbn [removelast].
      destruct (map (cons a) (prefixes p)) eqn:E; [|done].
      apply map_eq_nil in E. by destruct (prefixes_not_nil p). }
    rewrite elem_of_cons. split.
    + intros [->|H]; [by exists (a :: p)|].
      apply list_elem_of_fmap in H as (y & -> & Hy).
      apply IH in Hy as (r & Hr & ->). by exists r.
    + intros (r & Hr & E). destruct q as [|b q]; [by left|right].
      injection E as <- ->. apply list_elem_of_fmap. exists q. split; [done|].
      apply IH. by exists r.
Qed.

Lemma elem_of_parents q p :
  q ∈ parents p <-> exists r, r <> [] /\ p = q ++ r.
Proof.
  unfold parents.
  by rewrite list_elem_of_In, <- in_rev, <- list_elem_of_In, elem_of_proper_prefixes.
Qed.

Lemma elem_of_prefixes q p : q ∈ prefixes p <-> exists r, p = q ++ r.
Proof.
  revert q. induction p as [|a p IH]; intros q; cbn [prefixes].
  - rewrite list_elem_of_singleton. split; [intros ->; by exists []|].
    intros (r & E). symmetry in E. by apply app_eq_nil in E as [-> _].
  - rewrite elem_of_cons, list_elem_of_fmap. split.
    + intros [->|(y & -> & (r & ->)%IH)]; [by exists (a :: p) | by exists r].
    + intros (r & E). destruct q as [|b q]; [by left|right].
      injection E as <- ->. exists q. split; [done|]. apply IH. by exists r.
Qed.

(** [inside p q]: [q] is [p] or an entry below [p]. *)
Lemma inside_spec p q : inside p q = true <-> exists r, q = p ++ r.
Proof.
  unfold inside. rewrite orb_true_iff, !bool_decide_eq_true, elem_of_parents.
  split.
  - intros [(r & _ & ->)| ->]; [by exists r | exists []; by rewrite app_nil_r].
  - intros (r & ->). destruct r as [|a r]; [right; by rewrite app_nil_r|].
    left. by exists (a :: r).
Qed.

Lemma inside_app p r : inside p (p ++ r) = true.
Proof. apply inside_spec. by exists r. Qed.

Lemma inside_prefix p k r : inside p (k ++ r) = false -> inside p k = false.
Proof.
  intros H. destruct (inside p k) eqn:E; [|done].
  apply inside_spec in E as (r' & ->). by rewrite <- app_assoc, inside_app in H.
Qed.

(** ** The filesystem *)

Lemma lookup_obj_Some f p o :
  f !! p = Some o -> p <> [] -> lookup_obj f p = Some o.
Proof. by destruct p. Qed.

Lemma mkdir_fold_inl target l e :
  fold_left (mkdir_one target) l (inl e) = inl e.
Proof. by induction l. Qed.

Lemma mkdir_fold target l : forall f f',
  fold_left (mkdir_one target) l (inr f) = inr f' ->
  (forall q o, f !! q = Some o -> f' !! q = Some o) /\
  (forall q o, f' !! q = Some o -> f !! q = Some o \/ (o = DirObj /\ q ∈ l)).
Proof.
  induction l as [|x l IH]; intros f f' H.
  { injection H as <-. split; auto. }
  cbn [fold_left mkdir_one] in H.
  destruct (lookup_obj f x) as [[|c]|] eqn:Hx.
  - apply IH in H as [H1 H2]. split; [done|].
    intros q o Hq. destruct (H2 q o Hq) as [?|[? ?]]; [by left|right].
    split; [done | by right].
  - by rewrite mkdir_fold_inl in H.
  - apply IH in H as [H1 H2].
    assert (f !! x = None) as Hn by (by destruct x).
    split.
    + intros q o Hq. apply H1. rewrite lookup_insert_ne; [done|]. congruence.
    + intros q o Hq. destruct (H2 q o Hq) as [Hq'|[? ?]].
      * rewrite lookup_insert in Hq'. case_decide as E.
        -- injection Hq' as <-. subst q. right. split; [done | by left].
        -- by left.
      * right. split; [done | by right].
Qed.

Lemma mkdir_fold_exn target l : forall f e,
  fold_left (mkdir_one target) l (inr f) = inl e ->
  e = FileExistsError \/ e = NotADirectoryError.
Proof.
  induction l as [|x l IH]; intros f e H; [done|].
  cbn [fold_left mkdir_one] in H.
  destruct (lookup_obj f x) as [[|c]|]; [by eapply IH| |by eapply IH].
  rewrite mkdir_fold_inl in H. injection H as <-. case_bool_decide; auto.
Qed.

(** Making directories keeps what there is and adds directories on the way
    to [p] only. *)
Lemma mkdir_in_inr f p f' :
  mkdir_in f p = inr f' ->
  (forall q o, f !! q = Some o -> f' !! q = Some o) /\
  (forall q o, f' !! q = Some o ->
     f !! q = Some o \/ (o = DirObj /\ exists r, p = q ++ r)).
Proof.
  intros H. apply mkdir_fold in H as [H1 H2]. split; [done|].
  intros q o Hq. destruct (H2 q o Hq) as [?|[? ?%elem_of_prefixes]]; auto.
Qed.

Lemma mkdir_in_inl f p e :
  mkdir_in f p = inl e -> e = FileExistsError \/ e = NotADirectoryError.
Proof. apply mkdir_fold_exn. Qed.

Lemma mkdir_p_Ok p w w' :
  mkdir_p p w = (Ok tt, w') <->
  exists f', mkdir_in (fs w) p = inr f' /\ w' = set_fs w f'.
Proof.
  unfold mkdir_p. destruct (mkdir_in (fs w) p) as [e|f'].
  - split; [done | by intros (? & ? & _)].
  - split; [intros [= <-]; by exists f' | by intros (? & [= <-] & ->)].
Qed.

Lemma mkdir_p_Raise p w e w' :
  mkdir_p p w = (Raise e, w') ->
  w' = w /\ (e = FileExistsError \/ e = NotADirectoryError).
Proof.
  unfold mkdir_p. destruct (mkdir_in (fs w) p) as [e'|f'] eqn:E; [|done].
  intros [= -> ->]. split; [done|]. by eapply mkdir_in_inl.
Qed.

Lemma write_in_inr f p c f' :
  write_in f p c = inr f' -> f' = <[p := FileObj c]> f.
Proof.
  unfold write_in.
  destruct (lookup_obj f p) as [[|?]|]; [done|..];
    destruct (lookup_obj f (parent p)) as [[|?]|]; by intros [= <-].
Qed.

(** ** The nodes made on the way to an entry *)

Section EnsureNodes.

Variable sys_executable : string.
Variable nbconvert : list string -> gmap (list string) obj -> option (string * string).
Variables (src out : path) (execute : bool).

Lemma subprocess_run_Ok cv w w' :
  subprocess_run sys_executable nbconvert cv w = (Ok tt, w') ->
  exists name doc,
    nbconvert (cmd_of sys_executable cv) (fs w) = Some (name, doc) /\
    w' = {| fs := <[cv_output_dir cv ++ [name] := FileObj doc]> (fs w);
            ticks := ticks w; log := log w ++ [cv] |}.
Proof.
  unfold subprocess_run. destruct (nbconvert _ _) as [[name doc]|]; [|done].
  destruct (write_in _ _ _) as [e|f'] eqn:E; [done|].
  intros [= <-]. exists name, doc. split; [done|].
  apply write_in_inr in E as ->. done.
Qed.

Lemma subprocess_run_Raise cv w e w' :
  subprocess_run sys_executable nbconvert cv w = (Raise e, w') ->
  e = CalledProcessError /\
  w' = {| fs := fs w; ticks := ticks w; log := log w ++ [cv] |}.
Proof.
  unfold subprocess_run. destruct (nbconvert _ _) as [[name doc]|].
  - destruct (write_in _ _ _) as [e'|f']; [|done]. by intros [= <- <-].
  - by intros [= <- <-].
Qed.

(** The nodes and keys that [ensure_dirs] adds are those of the
    directories on the way to the entry. *)
Lemma ensure_dirs_nodes rel tail : forall parts i pre pn st cur' pn' st',
  length pre = i -> rel = pre ++ parts ++ tail ->
  ensure_dirs rel i parts (src ++ pre) pn st = Some (cur', pn', st') ->
  shallow (root st') = shallow (root st) /\
  (exists news,
     map shallow (descendants (root st')) ≡ₚ
       map shallow (descendants (root st)) ++ news /\
     Forall (fun n => exists q r, q <> [] /\ rel = q ++ r /\
                                  n = dir_node_of src (src ++ q)) news) /\
  (forall k pos, dir_map st' !! k = Some pos ->
     is_Some (dir_map st !! k) \/
     exists q r, q <> [] /\ rel = q ++ r /\ k = src ++ q).
Proof.
  induction parts as [|p parts IH]; intros i pre pn st cur' pn' st' Hi Hrel H.
  { injection H as <- <- <-. split; [done|]. split; [|by left; eexists].
    exists []. by rewrite app_nil_r. }
  cbn [ensure_dirs] in H.
  assert (rel = (pre ++ [p]) ++ parts ++ tail) as Hrel' by by rewrite <- app_assoc.
  assert (length (pre ++ [p]) = S i) as Hi' by (rewrite length_app; cbn; lia).
  rewrite <- app_assoc in H.
  destruct (dir_map st !! (src ++ pre ++ [p])) as [pos|] eqn:Hk.
  { rewrite Hk in H. by apply (IH _ _ _ _ _ _ _ Hi' Hrel') in H. }
  destruct (get_node pn (root st)) as [par|]; [|done].
  destruct (append_at pn _ (root st)) as [root'|] eqn:Ha; [|done].
  cbn [dir_map] in H. rewrite lookup_insert_eq in H.
  apply (IH _ _ _ _ _ _ _ Hi' Hrel') in H as (H1 & (news & H2 & H3) & H4).
  cbn [root dir_map] in *.
  assert (take (i + 1) rel = pre ++ [p]) as Et.
  { rewrite Hrel', Nat.add_1_r, <- Hi'. apply take_app_length. }
  rewrite Et in *.
  assert (Dir p (str_rel (pre ++ [p])) [] = dir_node_of src (src ++ pre ++ [p])) as En.
  { unfold dir_node_of. by rewrite rel_of_app, path_name_snoc. }
  split; [|split].
  - rewrite H1. by eapply shallow_append.
  - exists (Dir p (str_rel (pre ++ [p])) [] :: news). split.
    + rewrite H2, (descendants_append _ _ _ _ Ha). cbn.
      by rewrite <- app_assoc.
    + constructor; [|done]. exists (pre ++ [p]), (parts ++ tail).
      split; [by destruct pre|]. by split.
  - intros k pos Hk'. destruct (H4 k pos Hk') as [Hs|?]; [|by right].
    rewrite lookup_insert in Hs. case_decide as E; [|by left].
    right. exists (pre ++ [p]), (parts ++ tail). split; [by destruct pre|]. by split.
Qed.

End EnsureNodes.

(** ** The body of the loop and the count *)

Section Visit.

Variable sys_executable : string.
Variable nbconvert : list string -> gmap (list string) obj -> option (string * string).
Variables (src out : path) (execute : bool).

Lemma visit_unfold st p w :
  visit sys_executable nbconvert src out execute st p w =
  if inside out p then (Ok st, w)
  else
    match relative_to p src with
    | None => (Raise ValueError, w)
    | Some [] => (Ok st, w)
    | Some rel =>
        let isdir := is_dir_in (fs w) p in
        match ensure_dirs rel 0 (if isdir then rel else removelast rel) src [] st with
        | None => (Raise KeyError, w)
        | Some (_, _, st1) =>
            if isdir then (Ok st1, w)
            else if is_notebook (fs w) p
                 then notebook_step sys_executable nbconvert out execute st1 p rel w
                 else (Ok st1, w)
        end
    end.
Proof.
  unfold visit, is_notebook. destruct (inside out p); [done|].
  destruct (relative_to p src) as [[|a rel]|]; try done.
  unfold bind at 1. cbn [lift ret].
  unfold bind at 1. cbn [is_dir].
  destruct (is_dir_in (fs w) p) eqn:Hd; cbn [negb andb].
  - unfold bind at 1.
    destruct (ensure_dirs _ _ _ _ _ _) as [[[? ?] st1]|]; [|done].
    cbn [lift ret]. unfold bind at 1. cbn [is_dir]. by rewrite Hd.
  - unfold bind at 1.
    destruct (ensure_dirs _ _ _ _ _ _) as [[[? ?] st1]|]; [|done].
    cbn [lift ret]. unfold bind at 1. cbn [is_dir]. rewrite Hd.
    by destruct (String.eqb _ _).
Qed.

Lemma ensure_dirs_count rel : forall parts i cur pn st cur' pn' st',
  ensure_dirs rel i parts cur pn st = Some (cur', pn', st') ->
  nb_count st' = nb_count st /\ count_files (root st') = count_files (root st).
Proof.
  induction parts as [|p parts IH]; intros i cur pn st cur' pn' st' H.
  { by injection H as <- <- <-. }
  cbn [ensure_dirs] in H.
  destruct (dir_map st !! (cur ++ [p])) as [pos|] eqn:Hk.
  - rewrite Hk in H. by apply IH in H.
  - destruct (get_node pn (root st)) as [par|]; [|done].
    destruct (append_at pn _ (root st)) as [root'|] eqn:Ha; [|done].
    cbn [dir_map] in H. rewrite lookup_insert_eq in H.
    apply IH in H as [H1 H2]. cbn [nb_count root] in *.
    apply append_at_count in Ha. cbn in Ha. split; [done | lia].
Qed.

Lemma notebook_step_count st p rel w st' w' :
  notebook_step sys_executable nbconvert out execute st p rel w = (Ok st', w') ->
  nb_count st' = nb_count st + 1 /\
  count_files (root st') = count_files (root st) + 1.
Proof.
  unfold notebook_step. intros H.
  apply bind_Ok in H as (out_html & w1 & _ & H).
  apply bind_Ok in H as (? & w2 & _ & H).
  apply bind_Ok in H as (? & w3 & _ & H).
  apply bind_Ok in H as (rel_html & w4 & _ & H).
  apply bind_Ok in H as (pos & w5 & _ & H).
  apply bind_Ok in H as (root' & w6 & Ha & H).
  injection H as <- <-. cbn [nb_count root]. split; [done|].
  destruct (append_at pos _ (root st)) as [r|] eqn:E; [|done].
  injection Ha as -> _. by apply append_at_count in E.
Qed.

Lemma visit_count st p w st' w' :
  visit sys_executable nbconvert src out execute st p w = (Ok st', w') ->
  count_files (root st) = nb_count st ->
  count_files (root st') = nb_count st'.
Proof.
  rewrite visit_unfold. intros H Hc.
  destruct (inside out p); [by injection H as <- <-|].
  destruct (relative_to p src) as [[|a rel]|]; [by injection H as <- <-| |done].
  cbn zeta in H.
  destruct (ensure_dirs _ _ _ _ _ _) as [[[? ?] st1]|] eqn:He; [|done].
  apply ensure_dirs_count in He as [E1 E2].
  destruct (is_dir_in (fs w) p); [injection H as <- <-; lia|].
  destruct (is_notebook (fs w) p); [|injection H as <- <-; lia].
  apply notebook_step_count in H as [? ?]. lia.
Qed.

Lemma has_file_count (n : node) : has_file n = false <-> count_files n = 0.
Proof.
  induction n as [name path ch IH|] using node_induction; [|done].
  rewrite count_files_dir. cbn [has_file].
  induction IH as [|c ch Hc _ IH']; [done|].
  cbn [existsb map]. rewrite list_sum_cons, orb_false_iff, Hc, IH'. lia.
Qed.

Theorem collect_tree_count w t n w' :
  collect_tree sys_executable nbconvert src out execute w = (Ok (t, n), w') ->
  count_files t = n.
Proof.
  unfold collect_tree, walk. intros H.
  apply bind_Ok in H as (st & w1 & H & Hr). injection Hr as <- <- <-.
  apply bind_Ok in H as (entries & w0 & _ & H).
  assert (count_files (root st) = nb_count st) as Hc.
  { revert H. apply (for_each_invariant _ (fun _ st _ => count_files (root st) = nb_count st)).
    - intros x l st0 wa st1 wb Hi Hv. by eapply visit_count.
    - done. }
  destruct (pruned (root st)) as [r|] eqn:Hp; fold (pruned (root st)); rewrite Hp.
  - rewrite <- Hc. by apply pruned_count.
  - rewrite <- Hc. symmetry. apply has_file_count.
    destruct (has_file (root st)) eqn:Hf; [|done].
    apply pruned_is_Some in Hf as [? ?]. congruence.
Qed.

End Visit.

(** ** The body of the loop: the directories *)

Lemma filter_all_false {A} (P : A -> Prop) `{!forall x, Decision (P x)} (l : list A) :
  Forall (fun x => ~ P x) l -> filter P l = [].
Proof.
  induction 1 as [|x l Hx _ IH]; [done|]. by rewrite filter_cons_False.
Qed.

Lemma is_dir_in_keep (f0 f : gmap (list string) obj) p o :
  f0 !! p = Some o -> f !! p = Some o -> p <> [] ->
  is_dir_in f p = is_dir_in f0 p.
Proof. intros H0 H1 Hp. unfold is_dir_in, lookup_obj. destruct p; [done|]. by rewrite H0, H1. Qed.

Section VisitEnsure.

Variable sys_executable : string.
Variable nbconvert : list string -> gmap (list string) obj -> option (string * string).
Variables (src out : path) (execute : bool).
Variable w0 : world.

(** The first half of the body of the loop: the directory nodes on the way
    to the entry are there afterwards, and nothing else has changed. *)
Lemma visit_ensure b done st w p :
  loop_inv sys_executable nbconvert src out execute w0 b done st w ->
  path_le b p -> src ∈ parents p -> is_Some (fs w0 !! p) ->
  exists st1,
    loop_inv sys_executable nbconvert src out execute w0 p done st1 w /\
    (inside out p = false -> is_dir_in (fs w0) p = false ->
     exists pos d, dir_map st1 !! parent p = Some pos /\
                   get_node pos (root st1) = Some d /\ is_file d = false) /\
    visit sys_executable nbconvert src out execute st p w =
    (if convertible out (fs w0) p
     then notebook_step sys_executable nbconvert out execute st1 p (rel_of src p) w
     else (Ok st1, w)).
Proof.
  intros Hinv Hb (rel & Hrel & ->)%elem_of_parents [o Ho].
  rewrite visit_unfold, rel_of_app. unfold convertible.
  destruct (inside out (src ++ rel)) eqn:Hin.
  { exists st. split; [|by split]. destruct Hinv. split; try done.
    by eapply walk_inv_mono. }
  assert (relative_to (src ++ rel) src = Some rel) as -> by by apply relative_to_Some.
  assert (src ++ rel <> []) as Hne by (by destruct src, rel).
  assert (is_dir_in (fs w) (src ++ rel) = is_dir_in (fs w0) (src ++ rel)) as Ed.
  { eapply is_dir_in_keep; try done. by eapply li_keep. }
  assert (is_notebook (fs w) (src ++ rel) = is_notebook (fs w0) (src ++ rel)) as En.
  { unfold is_notebook. by rewrite Ed. }
  cbn zeta. rewrite Ed, En. cbn [negb andb].
  set (parts := if is_dir_in (fs w0) (src ++ rel) then rel else removelast rel).
  set (tail := if is_dir_in (fs w0) (src ++ rel) then [] else [path_name rel]).
  assert (rel = parts ++ tail) as Hpt.
  { subst parts tail. destruct (is_dir_in (fs w0) (src ++ rel)); [by rewrite app_nil_r|].
    by apply parent_name. }
  assert (walk_inv src (src ++ rel) st) as Hw.
  { eapply walk_inv_mono; [done|]. by destruct Hinv. }
  destruct (ensure_dirs_inv src (src ++ rel) rel parts 0 src [] st tail Hw)
    as (pn' & st1 & He & Hw1 & Hl1 & Hn1 & Hc1);
    [by eapply inv_root | by rewrite <- Hpt |].
  pose proof He as He'. rewrite <- (app_nil_r src) in He' at 1.
  apply (ensure_dirs_nodes src rel tail parts 0 []) in He'
    as (Hs & (news & Hp & Hnews) & Hkeys); [|done|done].
  exists st1. split; [|split].
  - destruct Hinv. split; try done.
    + intros k pos Hk. destruct (Hkeys k pos Hk) as [[pos' Hk']|(q & r & Hq & Hr & ->)].
      * by eapply li_keys0.
      * right. split; [apply elem_of_parents; by exists q|].
        apply (inside_prefix _ _ r). by rewrite <- app_assoc, <- Hr.
    + rewrite Hp. apply Forall_app. split; [done|].
      eapply Forall_impl; [done|]. intros n (q & r & Hq & Hr & ->).
      exists (src ++ q). split; [apply elem_of_parents; by exists q|].
      split; [|by left].
      apply (inside_prefix _ _ r). by rewrite <- app_assoc, <- Hr.
    + rewrite <- li_files0. unfold files_of.
      rewrite !labels_descendants, Hs, Hp. cbn [app].
      rewrite !filter_cons, filter_app.
      rewrite (filter_all_false _ news), app_nil_r; [done|].
      eapply Forall_impl; [done|]. intros n (q & r & _ & _ & ->). cbn. tauto.
    + by rewrite Hn1.
  - intros _ Hd. subst parts. rewrite Hd in Hl1.
    rewrite parent_app by done. exists pn'.
    destruct (inv_dirs _ _ _ Hw1 _ _ Hl1) as (d & ? & ?). by exists d.
  - destruct rel as [|a rel'] eqn:Erel; [by destruct Hrel|]. rewrite <- Erel in *.
    fold parts. rewrite He. unfold is_notebook.
    by destruct (is_dir_in (fs w0) _).
Qed.

End VisitEnsure.

(** ** The body of the loop: the notebook *)

Lemma converted_snoc out f done p :
  converted out f (done ++ [p]) =
  converted out f done ++ (if convertible out f p then [p] else []).
Proof.
  unfold converted. rewrite filter_app. f_equal.
  destruct (convertible out f p) eqn:E.
  - rewrite filter_cons_True; [done|]. by apply Is_true_true.
  - rewrite filter_cons_False; [done|]. by apply Is_true_false.
Qed.

Lemma is_notebook_name f p : is_notebook f p = true -> path_name p <> EmptyString.
Proof.
  unfold is_notebook, suffix. intros [_ H]%andb_true_iff E. by rewrite E in H.
Qed.

Section NotebookInv.

Variable sys_executable : string.
Variable nbconvert : list string -> gmap (list string) obj -> option (string * string).
Variables (src out : path) (execute : bool).
Variable w0 : world.

(** An entry that is not converted leaves the loop as it was. *)
Lemma loop_inv_skip b done st w p :
  loop_inv sys_executable nbconvert src out execute w0 b done st w ->
  convertible out (fs w0) p = false ->
  loop_inv sys_executable nbconvert src out execute w0 b (done ++ [p]) st w.
Proof.
  intros [] Hc. split; try done; rewrite converted_snoc, Hc, app_nil_r; done.
Qed.

(** The second half of the body of the loop, for a notebook. *)
Lemma notebook_step_inv p done st w pos d r w' :
  loop_inv sys_executable nbconvert src out execute w0 p done st w ->
  src ∈ parents p -> convertible out (fs w0) p = true ->
  dir_map st !! parent p = Some pos ->
  get_node pos (root st) = Some d -> is_file d = false ->
  notebook_step sys_executable nbconvert out execute st p (rel_of src p) w = (r, w') ->
  match r with
  | Ok st2 => loop_inv sys_executable nbconvert src out execute w0 p (done ++ [p]) st2 w'
  | Raise e =>
      (w' = w /\ (e = FileExistsError \/ e = NotADirectoryError)) \/
      (e = CalledProcessError /\
       exists f1, mkdir_in (fs w) (cv_output_dir (conv_of src out execute p)) = inr f1 /\
         w' = {| fs := f1; ticks := ticks w;
                 log := log w ++ [conv_of src out execute p] |})
  end.
Proof.
  intros Hinv (rel & Hrel & ->)%elem_of_parents Hconv Hpos Hd Hf.
  apply andb_true_iff in Hconv as [Hin Hnb].
  apply negb_true_iff in Hin.
  pose proof (is_notebook_name _ _ Hnb) as Hname.
  rewrite path_name_app in Hname by done.
  rewrite rel_of_app.
  destruct (notebook_step_eq sys_executable nbconvert src out execute
              st rel w pos d Hrel Hname Hpos Hd Hf) as (root' & Ha & ->).
  unfold bind at 1.
  destruct (mkdir_p (out ++ parent rel) w) as [[[]|e] w1] eqn:Hm.
  2:{ intros [= <- <-]. left. by apply mkdir_p_Raise in Hm. }
  apply mkdir_p_Ok in Hm as (f1 & Hf1 & ->).
  destruct (mkdir_in_inr _ _ _ Hf1) as [Hk1 Hk2].
  unfold bind at 1.
  destruct (subprocess_run _ _ _ _) as [[[]|e] w2] eqn:Hs.
  2:{ intros [= <- <-]. right. apply subprocess_run_Raise in Hs as [-> ->].
      split; [done|]. exists f1. split; [|done].
      unfold conv_of. cbn [cv_output_dir]. by rewrite rel_of_app. }
  intros [= <- <-].
  apply subprocess_run_Ok in Hs as (name & doc & Hrun & ->).
  cbn [set_fs fs ticks log] in *.
  assert (names_document sys_executable nbconvert src out execute (src ++ rel) name)
    as Hname'.
  { by exists f1, doc. }
  assert (inside out (cv_output_dir (conv_of src out execute (src ++ rel)) ++ [name])
          = true) as Hinside.
  { unfold conv_of. cbn [cv_output_dir]. rewrite <- app_assoc. apply inside_app. }
  destruct Hinv. split; cbn [root dir_map nb_count fs ticks log]; try done.
  - apply (walk_inv_append src _ st (parent (src ++ rel)) pos
             (file_node_of src (src ++ rel)) []); try done.
    cbn [file_node_of node_name]. rewrite rel_of_app.
    rewrite <- (path_name_app src rel) by done.
    apply parent_name. by destruct src, rel.
  - rewrite (descendants_append _ _ _ _ Ha). apply Forall_app. split; [done|].
    constructor; [|done]. exists (src ++ rel).
    split; [apply elem_of_parents; by exists rel|]. split; [done | by right].
  - rewrite (files_of_append _ _ _ _ Ha), li_files0, converted_snoc.
    unfold convertible. rewrite Hin, Hnb. cbn [negb andb].
    by rewrite map_app.
  - rewrite converted_snoc. unfold convertible. rewrite Hin, Hnb. cbn [negb andb].
    rewrite length_app, li_count0. done.
  - rewrite converted_snoc. unfold convertible. rewrite Hin, Hnb. cbn [negb andb].
    by rewrite map_app, app_assoc, li_log0.
  - intros q o Hq Hiq. rewrite lookup_insert_ne by congruence. auto.
  - intros p'. rewrite converted_snoc. unfold convertible. rewrite Hin, Hnb.
    cbn [negb andb]. intros [Hp'| ->%list_elem_of_singleton]%elem_of_app.
    + destruct (li_docs0 p' Hp') as (name' & c & Hn' & Hc). exists name'.
      rewrite lookup_insert. case_decide; eauto.
    + exists name. rewrite lookup_insert_eq. eauto.
  - intros q c. rewrite converted_snoc. unfold convertible. rewrite Hin, Hnb.
    cbn [negb andb]. rewrite lookup_insert. case_decide as E.
    + intros _. right. exists (src ++ rel), name. split_and!; [|done|done].
      apply elem_of_app. right. by apply list_elem_of_singleton.
    + intros Hq. destruct (Hk2 _ _ Hq) as [Hq'|[? _]]; [|done].
      destruct (li_new0 _ _ Hq') as [?|(p' & name' & Hp' & Hn' & ->)]; [by left|right].
      exists p', name'. split_and!; [|done|done]. apply elem_of_app. by left.
  - rewrite converted_snoc. unfold convertible. rewrite Hin, Hnb. cbn [negb andb].
    by intros [_ ?]%app_eq_nil.
Qed.

End NotebookInv.

(** ** The loop *)

Section Loop.

Variable sys_executable : string.
Variable nbconvert : list string -> gmap (list string) obj -> option (string * string).
Variables (src out : path) (execute : bool).
Variable w0 : world.

Lemma last_cons_cons_or_nil (p b : path) rest :
  List.last (p :: rest) b = List.last rest p.
Proof.
  revert p b. induction rest as [|x rest IH]; intros p b; [done|].
  change (List.last (p :: x :: rest) b) with (List.last (x :: rest) b).
  by rewrite !IH.
Qed.

Lemma for_each_loop_inv : forall rest done b st w r w',
  StronglySorted path_le rest -> Forall (path_le b) rest ->
  Forall (fun p => src ∈ parents p /\ is_Some (fs w0 !! p)) rest ->
  loop_inv sys_executable nbconvert src out execute w0 b done st w ->
  for_each (visit sys_executable nbconvert src out execute) rest st w = (r, w') ->
  match r with
  | Ok st' => loop_inv sys_executable nbconvert src out execute w0 (List.last rest b) (done ++ rest) st' w'
  | Raise e =>
      exists d1 p d2 st1 w1 b1,
        rest = d1 ++ p :: d2 /\
        for_each (visit sys_executable nbconvert src out execute) d1 st w = (Ok st1, w1) /\
        loop_inv sys_executable nbconvert src out execute w0 b1 (done ++ d1) st1 w1 /\
        convertible out (fs w0) p = true /\
        failed_at src out execute p e w1 w'
  end.
Proof.
  induction rest as [|p rest IH]; intros done b st w r w' Hs Hb He Hinv H.
  { injection H as <- <-. by rewrite app_nil_r. }
  apply StronglySorted_cons in Hs as [Hp Hs].
  apply Forall_cons in Hb as [Hbp _].
  apply Forall_cons in He as [[Hsrc Hex] He].
  destruct (visit_ensure sys_executable nbconvert src out execute w0
              b done st w p Hinv Hbp Hsrc Hex) as (st1 & Hinv1 & Hpar & Hv).
  cbn [for_each] in H. unfold bind in H. rewrite Hv in H.
  destruct (convertible out (fs w0) p) eqn:Hc.
  - pose proof Hc as Hc'. apply andb_true_iff in Hc' as [Hin Hnb].
    apply negb_true_iff in Hin. unfold is_notebook in Hnb.
    apply andb_true_iff in Hnb as [Hd _]. apply negb_true_iff in Hd.
    destruct (Hpar Hin Hd) as (pos & d & Hpos & Hgd & Hfd).
    destruct (notebook_step _ _ _ _ _ _ _ _) as [[st2|e] w2] eqn:Hn;
      pose proof (notebook_step_inv sys_executable nbconvert src out execute w0
                    p done st1 w pos d _ _ Hinv1 Hsrc Hc Hpos Hgd Hfd Hn) as Hstep.
    + specialize (IH (done ++ [p]) p st2 w2 r w' Hs Hp He Hstep H).
      destruct r as [st'|e].
      * rewrite <- app_assoc in IH. by rewrite last_cons_cons_or_nil.
      * destruct IH as (d1 & q & d2 & st3 & w3 & b1 & -> & Hf & Hi & Hq & Hfail).
        exists (p :: d1), q, d2, st3, w3, b1. split; [done|].
        split; [|by rewrite <- app_assoc in Hi].
        cbn [for_each]. unfold bind. by rewrite Hv.
    + injection H as <- <-.
      exists [], p, rest, st, w, b. rewrite app_nil_r. by split_and!.
  - specialize (IH (done ++ [p]) p st1 w r w' Hs Hp He
                   (loop_inv_skip sys_executable nbconvert src out execute w0 p done st1 w p Hinv1 Hc) H).
    destruct r as [st'|e].
    + rewrite <- app_assoc in IH. by rewrite last_cons_cons_or_nil.
    + destruct IH as (d1 & q & d2 & st3 & w3 & b1 & -> & Hf & Hi & Hq & Hfail).
      exists (p :: d1), q, d2, st3, w3, b1. split; [done|].
      split; [|by rewrite <- app_assoc in Hi].
      cbn [for_each]. unfold bind. by rewrite Hv.
Qed.

Lemma loop_inv_init b :
  loop_inv sys_executable nbconvert src out execute w0 b [] (init_state src) w0.
Proof.
  split; unfold converted; rewrite ?filter_nil;
    cbn [init_state root dir_map nb_count map length]; rewrite ?app_nil_r;
    try done.
  - apply walk_inv_init.
  - intros k pos [-> _]%lookup_singleton_Some. by left.
  - by intros p ?%elem_of_nil.
  - intros q c ?. by left.
Qed.

Lemma elem_of_rglob_in f p :
  p ∈ rglob_in f src <->
  is_dir_in f src = true /\ src ∈ parents p /\ is_Some (f !! p).
Proof.
  unfold rglob_in. destruct (is_dir_in f src).
  - rewrite list_elem_of_filter, list_elem_of_fmap. split.
    + intros (Hp & [q o] & -> & Hq%elem_of_map_to_list). cbn in *. eauto.
    + intros (_ & Hp & [o Ho]). split; [done|]. exists (p, o).
      split; [done|]. by apply elem_of_map_to_list.
  - split; [by intros ?%elem_of_nil | by intros [? _]].
Qed.


(** The walk as a whole. *)
Theorem walk_spec r w' :
  walk sys_executable nbconvert src out execute w0 = (r, w') ->
  match r with
  | Ok st' =>
      exists b', loop_inv sys_executable nbconvert src out execute w0 b' (sorted (rglob_in (fs w0) src)) st' w'
  | Raise e =>
      exists d1 p d2 st1 w1 b1,
        sorted (rglob_in (fs w0) src) = d1 ++ p :: d2 /\
        for_each (visit sys_executable nbconvert src out execute) d1 (init_state src) w0 = (Ok st1, w1) /\
        loop_inv sys_executable nbconvert src out execute w0 b1 d1 st1 w1 /\
        convertible out (fs w0) p = true /\
        failed_at src out execute p e w1 w'
  end.
Proof.
  unfold walk, bind, rglob. intros H.
  apply (for_each_loop_inv _ [] [] _ _ _ _) in H.
  - destruct r; [by eexists | done].
  - apply sorted_StronglySorted.
  - apply Forall_forall. intros; apply path_le_nil.
  - apply Forall_forall. intros p Hp.
    rewrite sorted_Permutation in Hp. by apply elem_of_rglob_in in Hp as (_ & ? & ?).
  - apply loop_inv_init.
Qed.

End Loop.

(** * The claims *)

Lemma startswith_app p q s :
  Str.startswith (p +:+ q) s = true -> Str.startswith p s = true.
Proof.
  revert s. induction p as [|a p IH]; intros s; [done|].
  destruct s as [|b s]; [done|]. rewrite StrFacts.app_cons, !startswith_cons.
  intros [-> H]%andb_true_iff. by rewrite (IH s).
Qed.

Lemma contains_app p q s :
  Str.contains (p +:+ q) s = true -> Str.contains p s = true.
Proof.
  induction s as [|c s IH].
  - destruct p; [done|]. by destruct q.
  - rewrite !contains_cons. intros [H|H]%orb_true_iff.
    + by rewrite (startswith_app _ _ _ H).
    + rewrite (IH H). by rewrite orb_true_r.
Qed.

(** C8. For every tree, the value substituted for [TREE_JSON], which is the
    serialized tree with every [</] replaced by [<\/], contains no [</]; in
    particular it never contains [</script]. *)
Theorem C8_tree_json_has_no_closing_tag (tree : node) :
  Str.contains "</" (safe_json tree) = false /\
  Str.contains "</script" (safe_json tree) = false.
Proof.
  assert (Str.contains "</" (safe_json tree) = false) as H.
  { unfold safe_json, Str.replace. apply replace_close_aux. }
  split; [done|].
  destruct (Str.contains "</script" (safe_json tree)) eqn:E; [|done].
  apply (contains_app "</" "script") in E. congruence.
Qed.

(** C3, the claim as stated fails: a title that is token-shaped is
    substituted by the later pass for [NBCOUNT], so that it does not appear
    unchanged in the rendered page. *)
Lemma C3_counterexample :
  html_escape "{{ NBCOUNT }}" = "{{ NBCOUNT }}" /\
  render_with "2026-01-01 10:00 UTC" "<h1>{{ TITLE }}</h1>" "{{ NBCOUNT }}" 3 None
    = "<h1>3</h1>" /\
  Str.contains (html_escape "{{ NBCOUNT }}")
    (render_with "2026-01-01 10:00 UTC" "<h1>{{ TITLE }}</h1>" "{{ NBCOUNT }}" 3 None)
    = false.
Proof. by vm_compute. Qed.

(** C3, amended. Each pass of the substitution replaces a token by its value
    as it is and goes on behind the token, so that the value is not scanned
    again by this pass; the passes run one after the other, for [TITLE],
    [TIMESTAMP], [NBCOUNT] and then [TREE_JSON], each over the result of the
    one before, and the value of the last pass, the serialized tree, is in
    the rendered page as it is, whatever token-shaped text it contains. *)
Theorem C3_values_inserted_per_pass (name value ts pre tok post title : string)
    (nb_count : nat) (tree : node) :
  In name ["TITLE"; "TIMESTAMP"; "NBCOUNT"; "TREE_JSON"] ->
  is_token name tok ->
  re_sub name value (pre +:+ tok +:+ post) =
    re_sub name value pre +:+ value +:+ re_sub name value post /\
  (name = "TREE_JSON" ->
   render_with ts (pre +:+ tok +:+ post) title nb_count (Some tree) =
     render_with ts pre title nb_count (Some tree) +:+ safe_json tree +:+
     render_with ts post title nb_count (Some tree)).
Proof.
  intros Hname Htok. split.
  - destruct Hname as [<-|[<-|[<-|[<-|[]]]]]; by apply re_sub_token.
  - intros ->. by apply render_tree_json_verbatim.
Qed.

Lemma C3_witness :
  render_with "2026-01-01 10:00 UTC"
    ("<script>var t = " +:+ "{{ TREE_JSON }}" +:+ ";</script>{{ NBCOUNT }}")
    "Notebooks" 1
    (Some (Dir "src" EmptyString [File "{{ NBCOUNT }}.ipynb" "{{ NBCOUNT }}.ipynb" "{{ NBCOUNT }}.html"]))
  = render_with "2026-01-01 10:00 UTC" "<script>var t = " "Notebooks" 1
      (Some (Dir "src" EmptyString [File "{{ NBCOUNT }}.ipynb" "{{ NBCOUNT }}.ipynb" "{{ NBCOUNT }}.html"]))
    +:+ safe_json (Dir "src" EmptyString [File "{{ NBCOUNT }}.ipynb" "{{ NBCOUNT }}.ipynb" "{{ NBCOUNT }}.html"])
    +:+ render_with "2026-01-01 10:00 UTC" ";</script>{{ NBCOUNT }}" "Notebooks" 1
      (Some (Dir "src" EmptyString [File "{{ NBCOUNT }}.ipynb" "{{ NBCOUNT }}.ipynb" "{{ NBCOUNT }}.html"])).
Proof.
  apply (C3_values_inserted_per_pass "TREE_JSON" "v").
  - simpl. tauto.
  - reflexivity.
  - reflexivity.
Defined.

(** ** The tree and the conversions *)

Lemma pruned_sorted (n : node) : forall t,
  sorted_nodes n -> pruned n = Some t -> sorted_nodes t.
Proof.
  induction n as [name path ch IH|] using node_induction; intros t Hs.
  2:{ by intros [= <-]. }
  rewrite prune_dir. destruct (existsb has_file ch); intros [= <-].
  apply sorted_nodes_dir in Hs as [Hs1 Hs2]. apply sorted_nodes_dir.
  clear name path. induction IH as [|c ch Hc _ IH']; [by split; constructor|].
  cbn [map] in Hs1. apply StronglySorted_cons in Hs1 as [Hle Hs1].
  apply Forall_cons in Hs2 as [Hc2 Hs2].
  destruct (IH' Hs1 Hs2) as [IH1 IH2]. csimpl.
  destruct (pruned c) as [t|] eqn:Ht; csimpl; [|done]. split.
  - apply StronglySorted_cons. split; [|done].
    rewrite (pruned_name _ _ Ht). clear -Hle.
    induction ch as [|x ch IH]; [constructor|]. csimpl in *.
    apply Forall_cons in Hle as [Hx Hle].
    destruct (pruned x) as [tx|] eqn:Hx'; csimpl; [|auto].
    constructor; [|auto]. by rewrite (pruned_name _ _ Hx').
  - constructor; [by apply Hc | done].
Qed.

Lemma pruned_descendants name path ch t :
  pruned (Dir name path ch) = Some t ->
  map shallow (descendants t) ⊆ map shallow (descendants (Dir name path ch)).
Proof.
  rewrite prune_dir. destruct (existsb has_file ch); intros [= <-].
  unfold descendants. cbn [children].
  induction ch as [|c ch IH]; [done|]. csimpl.
  destruct (pruned c) as [tc|] eqn:Ht; csimpl.
  - rewrite !map_app. intros x [Hx|Hx]%elem_of_app; apply elem_of_app.
    + left. by apply (pruned_labels c tc Ht).
    + right. by apply IH.
  - rewrite map_app. intros x Hx. apply elem_of_app. right. by apply IH.
Qed.

Section Claims.

Variable sys_executable : string.
Variable nbconvert : list string -> gmap (list string) obj -> option (string * string).
Variables (src out : path) (execute : bool).

Lemma collect_tree_Ok w t n w' :
  collect_tree sys_executable nbconvert src out execute w = (Ok (t, n), w') <->
  exists st,
    walk sys_executable nbconvert src out execute w = (Ok st, w') /\
    n = nb_count st /\
    t = match pruned (root st) with Some r => r | None => empty_root src end.
Proof.
  unfold collect_tree, bind.
  destruct (walk _ _ _ _ _ w) as [[st|e] w1].
  - cbn [ret]. split.
    + intros [= <- <- <-]. by exists st.
    + by intros (st' & [= <- <-] & -> & ->).
  - split; [done | by intros (? & ? & _)].
Qed.

Lemma collect_tree_Raise w e w' :
  collect_tree sys_executable nbconvert src out execute w = (Raise e, w') <->
  walk sys_executable nbconvert src out execute w = (Raise e, w').
Proof.
  unfold collect_tree, bind.
  destruct (walk _ _ _ _ _ w) as [[st|e'] w1]; cbn [ret].
  - split; intros H; discriminate H.
  - split; by intros [= -> ->].
Qed.

(** C10. The count that [collect_tree] returns is the number of file nodes
    of the tree that it returns. *)
Theorem C10_count_is_number_of_file_nodes w t n w' :
  collect_tree sys_executable nbconvert src out execute w = (Ok (t, n), w') ->
  count_files t = n.
Proof. apply collect_tree_count. Qed.

(** C6. In the tree that [collect_tree] returns, the children of every
    directory node are in the order of their names, strings being compared
    character by character, whether a child is a directory or a file. *)
Theorem C6_children_in_order_of_names w t n w' :
  collect_tree sys_executable nbconvert src out execute w = (Ok (t, n), w') ->
  forall d, d ∈ subnodes t ->
    StronglySorted String.le (map node_name (children d)).
Proof.
  intros (st & Hw & _ & ->)%collect_tree_Ok.
  apply walk_spec in Hw as [b Hinv].
  pose proof (inv_sorted _ _ _ (li_walk _ _ _ _ _ _ _ _ _ _ Hinv)) as Hs.
  assert (sorted_nodes (match pruned (root st) with
                        | Some r => r | None => empty_root src end)) as H.
  { destruct (pruned (root st)) as [r|] eqn:Hp.
    - by eapply pruned_sorted.
    - apply sorted_nodes_dir. split; constructor. }
  intros d Hd. unfold sorted_nodes in H. by eapply Forall_forall in H.
Qed.

Lemma root_is_dir b done st w0 w :
  loop_inv sys_executable nbconvert src out execute w0 b done st w -> is_file (root st) = false.
Proof.
  intros Hinv. pose proof (li_walk _ _ _ _ _ _ _ _ _ _ Hinv) as Hw.
  destruct (inv_dirs _ _ _ Hw _ _ (inv_root _ _ _ Hw)) as (d & [= <-] & Hd).
  done.
Qed.

Lemma elem_of_notebooks w p :
  p ∈ notebooks src out w <->
  is_dir_in (fs w) src = true /\ src ∈ parents p /\ is_Some (fs w !! p) /\
  inside out p = false /\ is_dir_in (fs w) p = false /\
  String.eqb (Str.lower (suffix p)) ".ipynb" = true.
Proof.
  unfold notebooks. rewrite list_elem_of_filter, sorted_Permutation, elem_of_rglob_in.
  unfold convertible, is_notebook.
  rewrite Is_true_true, !andb_true_iff, !negb_true_iff. tauto.
Qed.


(** C9. No entry inside the output path is processed by the walk: every
    run of the converter is for an entry that is not inside it; no entry
    inside it other than the source root itself, whose node exists before
    the walk, gets a directory node in [dir_map]; and every node of the
    returned tree below the root is the node of an entry that is not
    inside it. *)
Theorem C9_entries_inside_out_are_skipped w r w' :
  collect_tree sys_executable nbconvert src out execute w = (r, w') ->
  (exists cvs, log w' = log w ++ cvs /\
     forall p cv, inside out p = true -> cv ∈ cvs -> cv_input cv <> p) /\
  (forall t n, r = Ok (t, n) ->
     (exists st,
        walk sys_executable nbconvert src out execute w = (Ok st, w') /\
        forall p, inside out p = true -> p <> src -> dir_map st !! p = None) /\
     Forall (node_ok src out) (map shallow (descendants t))).
Proof.
  intros H.
  assert (forall done p cv, inside out p = true ->
            cv ∈ map (conv_of src out execute) (converted out (fs w) done) ->
            cv_input cv <> p) as Hcv.
  { intros done p cv Hp (q & -> & Hq)%list_elem_of_fmap. cbn [conv_of cv_input].
    apply list_elem_of_filter in Hq as [Hq _]. apply Is_true_true in Hq.
    apply andb_true_iff in Hq as [Hq _]. apply negb_true_iff in Hq. congruence. }
  destruct r as [[t n]|e].
  - apply collect_tree_Ok in H as (st & Hw & _ & ->).
    pose proof Hw as Hw'. apply walk_spec in Hw' as [b Hinv].
    pose proof (root_is_dir _ _ _ _ _ Hinv) as Hroot. destruct Hinv.
    split; [eexists; split; [done|]; by eauto|].
    intros t n' [= <- <-]. split.
    + exists st. split; [done|]. intros p Hp Hne.
      destruct (dir_map st !! p) as [pos|] eqn:E; [|done].
      destruct (li_keys0 _ _ E) as [?|[_ ?]]; congruence.
    + destruct (pruned (root st)) as [r|] eqn:Hp; [|apply Forall_nil_2].
      destruct (root st) as [name path ch|]; [|done].
      apply Forall_forall. intros x Hx.
      apply (pruned_descendants _ _ _ _ Hp) in Hx.
      by eapply Forall_forall in li_nodes0.
  - apply collect_tree_Raise, walk_spec in H
      as (d1 & p & d2 & st1 & w1 & b1 & Hl & _ & Hinv & Hc & Hfail).
    split; [|done]. destruct Hinv.
    destruct Hfail as [[-> _]|(_ & f1 & _ & ->)].
    + eexists; split; [done|]; by eauto.
    + cbn [log]. rewrite li_log0, <- app_assoc. eexists. split; [done|].
      intros q cv Hq [Hcv'| ->%list_elem_of_singleton]%elem_of_app; [by eauto|].
      cbn [conv_of cv_input]. apply andb_true_iff in Hc as [Hc _].
      apply negb_true_iff in Hc. congruence.
Qed.


End Claims.

(** ** The failure of a conversion *)

Section Abort.

Variable sys_executable : string.
Variable utcnow_at : nat -> datetime.
Variable nbconvert : list string -> gmap (list string) obj -> option (string * string).
Variables (src out template_dir : path) (title : string) (execute : bool).

(** The loop up to an entry of the walk. *)
Lemma walk_prefix w d1 p d2 st1 w1 :
  sorted (rglob_in (fs w) src) = d1 ++ p :: d2 ->
  for_each (visit sys_executable nbconvert src out execute) d1 (init_state src) w
    = (Ok st1, w1) ->
  loop_inv sys_executable nbconvert src out execute w (List.last d1 []) d1 st1 w1 /\
  path_le (List.last d1 []) p /\ src ∈ parents p /\ is_Some (fs w !! p).
Proof.
  intros Hl Hf.
  pose proof (sorted_StronglySorted (rglob_in (fs w) src)) as Hs.
  assert (forall q, q ∈ d1 ++ p :: d2 -> src ∈ parents q /\ is_Some (fs w !! q)) as He.
  { intros q Hq. rewrite <- Hl, sorted_Permutation in Hq.
    by apply elem_of_rglob_in in Hq as (_ & ? & ?). }
  rewrite Hl in Hs.
  apply (for_each_loop_inv sys_executable nbconvert src out execute w d1 [] []) in Hf.
  - split; [done|]. split; [|apply He, elem_of_app; right; by left].
    clear Hf. destruct d1 as [|x d _] using rev_ind; [apply path_le_nil|].
    rewrite last_last. rewrite <- app_assoc in Hs.
    apply StronglySorted_app_1_r, StronglySorted_cons in Hs as [Hs _].
    by apply Forall_cons in Hs as [? _].
  - by apply StronglySorted_app_1_l in Hs.
  - apply Forall_forall. intros; apply path_le_nil.
  - apply Forall_forall. intros q Hq. apply He, elem_of_app. by left.
  - apply loop_inv_init.
Qed.

(** C7. If the converter exits with a non-zero status for a notebook, the
    build ends there with [CalledProcessError]: the world is left as it
    was when the converter was started but for the record of this run, the
    last one; the entries after the notebook are not visited, the clock is
    not read and no file is written, so that no page is rendered. *)
Theorem C7_failed_conversion_aborts_build w d1 p d2 st1 w1 f1 :
  sorted (rglob_in (fs w) src) = d1 ++ p :: d2 ->
  for_each (visit sys_executable nbconvert src out execute) d1 (init_state src) w
    = (Ok st1, w1) ->
  convertible out (fs w) p = true ->
  mkdir_in (fs w1) (cv_output_dir (conv_of src out execute p)) = inr f1 ->
  nbconvert (cmd_of sys_executable (conv_of src out execute p)) f1 = None ->
  let w' := {| fs := f1; ticks := ticks w1;
               log := log w1 ++ [conv_of src out execute p] |} in
  build_static_site sys_executable utcnow_at nbconvert src out template_dir
    title execute w = (Raise CalledProcessError, w') /\
  collect_tree sys_executable nbconvert src out execute w
    = (Raise CalledProcessError, w') /\
  ticks w' = ticks w /\
  (forall q doc, fs w' !! q = Some (FileObj doc) -> fs w1 !! q = Some (FileObj doc)).
Proof.
  intros Hl Hf Hc Hmk Hnb w'.
  destruct (walk_prefix w d1 p d2 st1 w1 Hl Hf) as (Hinv & Hle & Hsrc & Hex).
  destruct (visit_ensure sys_executable nbconvert src out execute w
              _ d1 st1 w1 p Hinv Hle Hsrc Hex) as (st2 & Hinv2 & Hpar & Hv).
  rewrite Hc in Hv.
  pose proof Hc as Hc'. apply andb_true_iff in Hc' as [Hin Hn].
  apply negb_true_iff in Hin. pose proof Hn as Hname.
  apply is_notebook_name in Hname.
  unfold is_notebook in Hn. apply andb_true_iff in Hn as [Hd _].
  apply negb_true_iff in Hd.
  destruct (Hpar Hin Hd) as (pos & d & Hpos & Hgd & Hfd).
  apply elem_of_parents in Hsrc as (rel & Hrel & ->).
  rewrite path_name_app in Hname by done. rewrite rel_of_app in Hv.
  destruct (notebook_step_eq sys_executable nbconvert src out execute
              st2 rel w1 pos d Hrel Hname Hpos Hgd Hfd) as (root' & _ & Hstep).
  assert (cv_output_dir (conv_of src out execute (src ++ rel)) = out ++ parent rel)
    as Edir by (unfold conv_of; cbn [cv_output_dir]; by rewrite rel_of_app).
  assert (visit sys_executable nbconvert src out execute st1 (src ++ rel) w1
          = (Raise CalledProcessError, w')) as Hvisit.
  { rewrite Hv, Hstep. unfold bind at 1, mkdir_p. rewrite <- Edir, Hmk.
    unfold bind, subprocess_run. cbn [set_fs fs ticks log]. by rewrite Hnb. }
  assert (walk sys_executable nbconvert src out execute w
          = (Raise CalledProcessError, w')) as Hw.
  { unfold walk, bind, rglob. rewrite Hl, for_each_app, Hf.
    cbn [for_each]. unfold bind. by rewrite Hvisit. }
  split_and!.
  - unfold build_static_site, bind. by rewrite (proj2 (collect_tree_Raise _ _ _ _ _ _ _ _) Hw).
  - by apply collect_tree_Raise.
  - apply (li_ticks _ _ _ _ _ _ _ _ _ _ Hinv).
  - intros q doc Hq. cbn [fs] in Hq.
    destruct (proj2 (mkdir_in_inr _ _ _ Hmk) _ _ Hq) as [?|[? _]]; done.
Qed.

End Abort.

(** ** The pages *)

Section Pages.

Variable utcnow_at : nat -> datetime.
Variables (out template_dir : path) (title : string) (nb_count : nat) (tree : node).

Lemma render_page_Ok fname needs w w1 :
  render_page utcnow_at out template_dir title nb_count tree tt (fname, needs) w
    = (Ok tt, w1) ->
  (fs w !! (template_dir ++ [fname]) = None /\ w1 = w) \/
  (exists c,
     fs w !! (template_dir ++ [fname]) = Some (FileObj c) /\
     w1 = {| fs := <[out ++ [fname] :=
                      FileObj (render_with (strftime (utcnow_at (ticks w))) c title
                                 nb_count (if needs then Some tree else None))]>
                     (fs w);
             ticks := S (ticks w); log := log w |}).
Proof.
  assert (lookup_obj (fs w) (template_dir ++ [fname]) = fs w !! (template_dir ++ [fname]))
    as Hl by by destruct template_dir.
  unfold render_page. intros H.
  apply bind_Ok in H as (e & wa & He & H).
  unfold exists_ in He. injection He as <- <-. rewrite Hl in H.
  destruct (fs w !! (template_dir ++ [fname])) as [o|] eqn:E.
  2:{ rewrite bool_decide_eq_false_2 in H by by intros [? ?].
      injection H as <-. by left. }
  rewrite bool_decide_eq_true_2 in H by by eexists. cbn [negb] in H.
  apply bind_Ok in H as (c & wb & Hr & H).
  unfold read_text in Hr. rewrite Hl in Hr.
  destruct o as [|c']; [done|]. injection Hr as <- <-.
  apply bind_Ok in H as (html_doc & wc & Ht & H).
  unfold render_tokens in Ht. apply bind_Ok in Ht as (now & wd & Hn & Ht).
  unfold utcnow in Hn. injection Hn as <- <-. injection Ht as <- <-.
  unfold write_text in H. cbn [fs] in H.
  destruct (write_in _ _ _) as [e|f'] eqn:Hw; [done|].
  apply write_in_inr in Hw as ->. injection H as <-. right. by exists c'.
Qed.

(** When the readings of the clock that are taken while the pages are
    rendered give the same string, the pages carry that string. *)
Lemma render_pages_same_ts ts : forall (l : list (string * bool)) w w',
  render_pages utcnow_at out template_dir title nb_count tree l w = (Ok tt, w') ->
  NoDup (map fst l) ->
  (forall k, ticks w <= k < ticks w' -> strftime (utcnow_at k) = ts) ->
  (forall (fname : string) (needs : bool) c,
     (fname, needs) ∈ l ->
     fs w !! (template_dir ++ [fname]) = Some (FileObj c) ->
     fs w' !! (out ++ [fname]) =
       Some (FileObj (render_with ts c title nb_count
                        (if needs then Some tree else None)))) /\
  (forall q, (forall fname, fname ∈ map fst l -> q <> out ++ [fname]) ->
     fs w' !! q = fs w !! q) /\
  ticks w <= ticks w' <= ticks w + length l.
Proof.
  unfold render_pages.
  induction l as [|[f nd] l IH]; intros w w' H Hnd Hts.
  { injection H as <-. split_and!; [by intros ??? ?%elem_of_nil|done|lia|cbn; lia]. }
  cbn [for_each] in H. apply bind_Ok in H as ([] & w1 & H1 & H2).
  cbn [map fst] in Hnd. apply NoDup_cons in Hnd as [Hf Hnd].
  assert (ticks w <= ticks w1 <= S (ticks w) /\
          (forall q, q <> out ++ [f] -> fs w1 !! q = fs w !! q)) as [Ht1 Hfr1].
  { apply render_page_Ok in H1 as [[_ ->]|(c & _ & ->)]; cbn [ticks fs].
    - split; [lia | done].
    - split; [lia|]. intros q Hq. by rewrite lookup_insert_ne. }
  destruct (IH w1 w' H2 Hnd) as (IH1 & IH2 & IH3).
  { intros k Hk. apply Hts. lia. }
  split_and!.
  - intros fname needs c [[= -> ->]|Hin]%elem_of_cons Hc.
    + rewrite IH2.
      2:{ intros g Hg [_ ->]%app_inj_tail. done. }
      apply render_page_Ok in H1 as [[Hn _]|(c' & Hc' & ->)]; [congruence|].
      cbn [fs]. rewrite lookup_insert_eq. rewrite Hc in Hc'. injection Hc' as <-.
      cbn [ticks] in IH3. by rewrite <- (Hts (ticks w)) by lia.
    + apply (IH1 fname needs c Hin). rewrite Hfr1; [done|].
      intros [_ ->]%app_inj_tail. apply Hf.
      apply list_elem_of_fmap. by exists (f, needs).
  - intros q Hq. rewrite IH2, Hfr1; [done| |].
    + apply Hq. by left.
    + intros g Hg. apply Hq. by right.
  - lia.
  - cbn [length]. lia.
Qed.

End Pages.

(** ** The pages of a build *)

Section PagesClaims.

Variable sys_executable : string.
Variable utcnow_at : nat -> datetime.
Variable nbconvert : list string -> gmap (list string) obj -> option (string * string).
Variables (src out template_dir : path) (title : string) (execute : bool).

(** C2, amended. The clock is read once for each page that is rendered,
    not once for the build: [render_tokens] reads it at each call and uses
    this reading for every [TIMESTAMP] token of the page; the pages of one
    build carry the same string when the readings of the clock that are
    taken while they are rendered, those from [ticks w] up to [ticks w'],
    give the same string. *)
Theorem C2_timestamp_is_read_for_each_page (nb_count : nat) (tree : node)
    (ts : string) w w' :
  render_pages utcnow_at out template_dir title nb_count tree pages w = (Ok tt, w') ->
  (forall k, ticks w <= k < ticks w' -> strftime (utcnow_at k) = ts) ->
  (forall page tree' w1,
     render_tokens utcnow_at page title nb_count tree' w1 =
     (Ok (render_with (strftime (utcnow_at (ticks w1))) page title nb_count tree'),
      {| fs := fs w1; ticks := S (ticks w1); log := log w1 |})) /\
  (forall (fname : string) (needs : bool) c,
     (fname, needs) ∈ pages ->
     fs w !! (template_dir ++ [fname]) = Some (FileObj c) ->
     fs w' !! (out ++ [fname]) =
       Some (FileObj (render_with ts c title nb_count
                        (if needs then Some tree else None)))).
Proof.
  intros H Hts. split; [done|].
  apply (render_pages_same_ts utcnow_at out template_dir title nb_count tree ts
           pages w w' H); [|done].
  apply (bool_decide_unpack _). by vm_compute.
Qed.

(** C1, amended. A template directory without [index.html] does not make
    the build fail: when the pages are rendered, after the notebooks have
    been converted and the output directory has been made, the page is
    skipped as any other missing page is, and the build goes on with the
    other pages and the assets. [load_template_index], which raises
    [FileNotFoundError] for a missing [index.html], is not part of the
    build. *)
Theorem C1_missing_index_page_is_skipped w tree n w1 w2 :
  collect_tree sys_executable nbconvert src out execute w = (Ok (tree, n), w1) ->
  mkdir_p out w1 = (Ok tt, w2) ->
  fs w2 !! (template_dir ++ ["index.html"]) = None ->
  load_template_index template_dir w2 = (Raise FileNotFoundError, w2) /\
  build_static_site sys_executable utcnow_at nbconvert src out template_dir
    title execute w =
  (do render_pages utcnow_at out template_dir title n tree (List.tl pages) then
   do copy_assets out template_dir then
   ret n) w2.
Proof.
  intros Hc Hm Hi.
  assert (exists_ (template_dir ++ ["index.html"]) w2 = (Ok false, w2)) as He.
  { unfold exists_. rewrite bool_decide_eq_false_2; [done|].
    assert (lookup_obj (fs w2) (template_dir ++ ["index.html"]) = None) as ->
      by by destruct template_dir.
    by intros [? ?]. }
  split.
  - unfold load_template_index, bind. by rewrite He.
  - unfold build_static_site, bind at 1. rewrite Hc. unfold bind at 1. rewrite Hm.
    unfold bind at 1 3. unfold render_pages, pages. cbn [for_each List.tl].
    unfold bind at 1. unfold render_page at 1. unfold bind at 1. by rewrite He.
Qed.

End PagesClaims.

(** C1, the claim as stated fails: the template of this world has no
    [index.html], and the build returns the count 3, with the notebooks
    converted, the page [software.html] rendered and the style sheet
    copied. *)
Lemma C1_counterexample :
  Ex.files !! (Ex.template_dir ++ ["index.html"]) = None /\
  fst (build_static_site "python3" Ex.clock Ex.converter Ex.src Ex.out
         Ex.template_dir "Notebooks" false Ex.w) = Ok 3 /\
  (exists c,
     fs (snd (build_static_site "python3" Ex.clock Ex.converter Ex.src Ex.out
                Ex.template_dir "Notebooks" false Ex.w))
       !! ["repo"; "site"; "software.html"] = Some (FileObj c)) /\
  fs (snd (build_static_site "python3" Ex.clock Ex.converter Ex.src Ex.out
             Ex.template_dir "Notebooks" false Ex.w))
    !! ["repo"; "site"; "B.html"] = Some (FileObj "<html>notebook</html>") /\
  fs (snd (build_static_site "python3" Ex.clock Ex.converter Ex.src Ex.out
             Ex.template_dir "Notebooks" false Ex.w))
    !! ["repo"; "site"; "css"; "site.css"] = Some (FileObj "body { margin: 0 }").
Proof.
  split_and!; [by vm_compute | by vm_compute | | by vm_compute | by vm_compute].
  eexists. vm_compute. reflexivity.
Qed.

Lemma run_fst {A} (p : result A * world) (a : A) :
  fst p = Ok a -> p = (Ok a, snd p).
Proof. destruct p as [r w]. cbn. by intros ->. Qed.

Lemma run_ok {A} (p : result A * world) (d : A) :
  is_ok (fst p) = true -> p = (Ok (from_ok d (fst p)), snd p).
Proof. by destruct p as [[a|e] w]. Qed.

Lemma inr_from_inr {A B} (x : A + B) (d : B) :
  is_inr x = true -> x = inr (from_inr d x).
Proof. by destruct x. Qed.

Lemma C1_witness :
  load_template_index Ex.template_dir ExTree.w_converted
    = (Raise FileNotFoundError, ExTree.w_converted).
Proof.
  refine (proj1 (C1_missing_index_page_is_skipped "python3" Ex.clock Ex.converter
                   Ex.src Ex.out Ex.template_dir "Notebooks" false Ex.w ExTree.tree 3
                   ExTree.w_converted ExTree.w_converted _ _ _)).
  - unfold ExTree.w_converted. apply run_fst. vm_compute. reflexivity.
  - vm_compute. reflexivity.
  - vm_compute. reflexivity.
Defined.

(** C2, the claim as stated fails: with a clock that is one minute further
    at the second reading, the two pages of this build carry different
    times. *)
Lemma C2_counterexample :
  fs (snd (build_static_site "python3" Ex.clock Ex.converter Ex.src Ex.out
             Ex.template_dir "Notebooks" false Ex.w_pages))
    !! ["repo"; "site"; "index.html"] = Some (FileObj "built 2026-01-02 03:00 UTC") /\
  fs (snd (build_static_site "python3" Ex.clock Ex.converter Ex.src Ex.out
             Ex.template_dir "Notebooks" false Ex.w_pages))
    !! ["repo"; "site"; "software.html"] = Some (FileObj "built 2026-01-02 03:01 UTC").
Proof. split; by vm_compute. Qed.

Lemma C2_witness :
  fs ExTree.w_rendered_late !! (Ex.src ++ ["software.html"])
    = Some (FileObj (render_with "2026-01-02 03:04 UTC" "built {{ TIMESTAMP }}"
                       "Notebooks" 0 (if true then Some (empty_root Ex.src) else None))).
Proof.
  refine (proj2 (C2_timestamp_is_read_for_each_page Ex.clock_late Ex.src
                   Ex.template_dir "Notebooks" 0 (empty_root Ex.src)
                   "2026-01-02 03:04 UTC" Ex.w_pages ExTree.w_rendered_late _ _)
            "software.html" true "built {{ TIMESTAMP }}" _ _).
  - unfold ExTree.w_rendered_late. apply run_fst. vm_compute. reflexivity.
  - intros k Hk. change (ticks ExTree.w_rendered_late) with 2 in Hk.
    destruct k as [|[|k]]; [reflexivity | reflexivity | lia].
  - right. left.
  - vm_compute. reflexivity.
Defined.

(** ** The claims on the example worlds *)


(** The notebook [..ipynb]: the walk passes [--output ..html]; a converter
    that names the documents as [nbconvert] does writes [..html.html], so
    that the link of the file node leads to no file. *)
Example document_of_dotted_notebook :
  fst (collect_tree "python3" Ex.converter_ext Ex.src Ex.out false Ex.w_dots)
    = Ok (Dir "repo" EmptyString [File "..ipynb" "..ipynb" "..html"], 1) /\
  map cv_output (log ExTree.w_dots_converted) = ["..html"] /\
  fs ExTree.w_dots_converted !! ["repo"; "site"; "..html"] = None /\
  fs ExTree.w_dots_converted !! ["repo"; "site"; "..html.html"]
    = Some (FileObj "<html>notebook</html>") /\
  ~ names_as_told "python3" Ex.converter_ext Ex.src Ex.out false ["repo"; "..ipynb"].
Proof.
  split_and!; [by vm_compute..|].
  intros H. specialize (H "..html.html"). discriminate H.
  by exists ∅, "<html>notebook</html>".
Qed.


Lemma C6_witness :
  StronglySorted String.le (map node_name (children ExTree.tree)).
Proof.
  refine (C6_children_in_order_of_names "python3" Ex.converter Ex.src Ex.out false
            Ex.w ExTree.tree 3 ExTree.w_converted _ ExTree.tree _).
  - unfold ExTree.w_converted, ExTree.w_rendered. apply run_fst. vm_compute. reflexivity.
  - left.
Defined.

Lemma C7_witness :
  build_static_site "python3" Ex.clock Ex.converter_failing Ex.src Ex.out
    Ex.template_dir "Notebooks" false Ex.w
  = (Raise CalledProcessError,
     {| fs := ExTree.f1; ticks := ticks ExTree.w1;
        log := log ExTree.w1 ++
               [conv_of Ex.src Ex.out false ["repo"; "a"; "b"; "nb1.ipynb"]] |}).
Proof.
  refine (proj1 (C7_failed_conversion_aborts_build "python3" Ex.clock
                   Ex.converter_failing Ex.src Ex.out Ex.template_dir "Notebooks"
                   false Ex.w ExTree.before_nb1 ["repo"; "a"; "b"; "nb1.ipynb"]
                   ExTree.after_nb1 ExTree.st1 ExTree.w1 ExTree.f1 _ _ _ _ _)).
  - vm_compute. reflexivity.
  - unfold ExTree.st1, ExTree.w1. apply run_ok. vm_compute. reflexivity.
  - vm_compute. reflexivity.
  - unfold ExTree.f1. apply inr_from_inr. vm_compute. reflexivity.
  - vm_compute. reflexivity.
Defined.

Lemma C9_witness :
  exists cvs,
    log ExTree.w_converted = log Ex.w ++ cvs /\
    forall p cv, inside Ex.out p = true -> cv ∈ cvs -> cv_input cv <> p.
Proof.
  refine (proj1 (C9_entries_inside_out_are_skipped "python3" Ex.converter Ex.src
                   Ex.out false Ex.w (Ok (ExTree.tree, 3)) ExTree.w_converted _)).
  unfold ExTree.w_converted, ExTree.w_rendered. apply run_fst. vm_compute. reflexivity.
Defined.

Lemma C10_witness : count_files ExTree.tree = 3.
Proof.
  refine (C10_count_is_number_of_file_nodes "python3" Ex.converter Ex.src Ex.out
            false Ex.w ExTree.tree 3 ExTree.w_converted _).
  unfold ExTree.w_converted, ExTree.w_rendered. apply run_fst. vm_compute. reflexivity.
Defined.

(** The scenario of the specification: the tree of [Ex.files] and the result
    for a repository without notebook. *)
Example collect_tree_scenario :
  fst (collect_tree "python3" Ex.converter Ex.src Ex.out false Ex.w)
    = Ok (ExTree.tree, 3) /\
  collect_tree "python3" Ex.converter Ex.src Ex.out false Ex.w_plain
    = (Ok (empty_root Ex.src, 0), Ex.w_plain).
Proof. split; by vm_compute. Qed.

(** * Further properties of the script *)

(** ** Pruning, once more *)

Lemma omap_pruned_fixed ch :
  Forall (fun c => forall t, pruned c = Some t -> pruned t = Some t) ch ->
  omap pruned (omap pruned ch) = omap pruned ch.
Proof.
  induction 1 as [|c ch Hc _ IH]; [done|]. csimpl.
  destruct (pruned c) as [t|] eqn:Ht; csimpl; [|done].
  by rewrite (Hc t eq_refl), IH.
Qed.

Lemma has_file_omap_pruned ch :
  existsb has_file (omap pruned ch) = existsb has_file ch.
Proof.
  induction ch as [|c ch IH]; [done|]. csimpl.
  destruct (pruned c) as [t|] eqn:Ht; csimpl.
  - rewrite (pruned_has_file _ _ Ht), IH.
    assert (is_Some (pruned c)) as Hs by by eexists.
    apply pruned_is_Some in Hs. by rewrite Hs.
  - rewrite IH. destruct (has_file c) eqn:Hf; [|done].
    apply pruned_is_Some in Hf as [? ?]. congruence.
Qed.

(** X1. Pruning a tree that is already pruned changes nothing, and
    pruning keeps the file nodes of a tree, all of them and in their
    order. *)
Theorem X1_pruning_is_idempotent (n t : node) :
  pruned n = Some t -> pruned t = Some t /\ files_of t = files_of n.
Proof.
  intros Ht. split; [|by apply pruned_files].
  revert t Ht. induction n as [name path ch IH|] using node_induction; intros t.
  2:{ by intros [= <-]. }
  rewrite prune_dir. destruct (existsb has_file ch) eqn:Hex; intros [= <-].
  by rewrite prune_dir, has_file_omap_pruned, Hex, omap_pruned_fixed.
Qed.

(** ** The escape of the title *)

Lemma replace_char_eq c new s :
  Str.replace (String c EmptyString) new s =
  match s with
  | EmptyString => EmptyString
  | String x s' =>
      if Ascii.eqb c x then new +:+ Str.replace (String c EmptyString) new s'
      else String x (Str.replace (String c EmptyString) new s')
  end.
Proof.
  destruct s as [|x s']; [done|]. unfold Str.replace. cbn.
  by rewrite andb_true_r.
Qed.

Lemma has_char_app c a b : has_char c (a +:+ b) = has_char c a || has_char c b.
Proof.
  induction a as [|x a IH]; [done|]. rewrite StrFacts.app_cons. cbn [has_char].
  by rewrite IH, orb_assoc.
Qed.

(** The character that is replaced is gone, if the replacement is without
    it. *)
Lemma replace_char_gone c new s :
  has_char c new = false -> has_char c (Str.replace (String c EmptyString) new s) = false.
Proof.
  intros Hn. induction s as [|x s IH]; [done|]. rewrite replace_char_eq.
  destruct (Ascii.eqb c x) eqn:E.
  - by rewrite has_char_app, Hn, IH.
  - cbn [has_char]. by rewrite E, IH.
Qed.

(** A character that is absent stays absent, if the replacement is without
    it. *)
Lemma replace_char_absent d c new s :
  has_char d new = false -> has_char d s = false ->
  has_char d (Str.replace (String c EmptyString) new s) = false.
Proof.
  intros Hn. induction s as [|x s IH]; [done|]. rewrite replace_char_eq.
  cbn [has_char]. intros [Hx Hs]%orb_false_iff.
  destruct (Ascii.eqb c x).
  - by rewrite has_char_app, Hn, IH.
  - cbn [has_char]. by rewrite Hx, IH.
Qed.

Lemma replace_char_id c new s :
  has_char c s = false -> Str.replace (String c EmptyString) new s = s.
Proof.
  induction s as [|x s IH]; [done|]. rewrite replace_char_eq. cbn [has_char].
  intros [Hx Hs]%orb_false_iff. by rewrite Hx, IH.
Qed.

(** X2. The value of [TITLE]: the escaped title holds none of the
    characters [<], [>], the double quote and the single quote, so that a
    title cannot open or close a tag or an attribute of the page; a title
    without these characters and without [&] is left as it is. *)
Theorem X2_escaped_title_has_no_markup (title : string) :
  has_char "<" (html_escape title) = false /\
  has_char ">" (html_escape title) = false /\
  has_char (ascii_of_nat 34) (html_escape title) = false /\
  has_char "'" (html_escape title) = false /\
  (has_char "&" title = false -> has_char "<" title = false ->
   has_char ">" title = false -> has_char (ascii_of_nat 34) title = false ->
   has_char "'" title = false -> html_escape title = title).
Proof.
  unfold html_escape, dquote. cbv zeta. split_and!.
  - do 3 (apply replace_char_absent; [reflexivity|]). by apply replace_char_gone.
  - do 2 (apply replace_char_absent; [reflexivity|]). by apply replace_char_gone.
  - apply replace_char_absent; [reflexivity|]. by apply replace_char_gone.
  - by apply replace_char_gone.
  - intros H1 H2 H3 H4 H5.
    rewrite (replace_char_id "&") by done. rewrite (replace_char_id "<") by done.
    rewrite (replace_char_id ">") by done.
    rewrite (replace_char_id (ascii_of_nat 34)) by done.
    by rewrite (replace_char_id "'").
Qed.

(** ** Pages without token, and the shape of a token *)

Lemma match_token_None name s :
  Str.startswith "{{" s = false -> match_token name s = None.
Proof.
  unfold match_token. destruct s as [|a [|b s]]; cbn [strip_prefix Str.startswith].
  - done.
  - by destruct (Ascii.eqb "{" a).
  - destruct (Ascii.eqb "{" a); [|done]. by destruct (Ascii.eqb "{" b).
Qed.

Lemma re_sub_no_token name value s :
  Str.contains "{{" s = false -> re_sub name value s = s.
Proof.
  unfold re_sub. induction s as [|c s IH]; [done|].
  rewrite contains_cons. intros [Hs Hc]%orb_false_iff.
  cbn [sub_from]. by rewrite match_token_None, IH.
Qed.

(** X3. A page that holds no two opening braces in a row holds no token:
    it is rendered as it is, whatever the title, the count, the time and
    the tree. *)
Theorem X3_page_without_braces_is_unchanged (ts src title : string) (nb_count : nat)
    (tree : option node) :
  Str.contains "{{" src = false ->
  render_with ts src title nb_count tree = src.
Proof.
  intros H. unfold render_with.
  rewrite !(re_sub_no_token _ _ src) by done.
  destruct tree; [by apply re_sub_no_token | done].
Qed.

Lemma skip_ws_nonspace name s :
  starts_nonspace name = true -> skip_ws (name +:+ s) = name +:+ s.
Proof.
  destruct name as [|c name]; [done|]. cbn [starts_nonspace].
  intros Hc%negb_true_iff. rewrite StrFacts.app_cons. cbn [skip_ws]. by rewrite Hc.
Qed.

Lemma strip_prefix_same p s : strip_prefix p (p +:+ s) = Some s.
Proof.
  induction p as [|c p IH]; [done|]. rewrite StrFacts.app_cons. cbn [strip_prefix].
  by rewrite Ascii.eqb_refl.
Qed.

(** X4. The shape of a token: the text that the pattern of a name matches
    is two opening braces, white space or none, the name letter for
    letter, white space or none, and two closing braces, and every such
    text is matched. *)
Theorem X4_token_shape (name tok : string) :
  starts_nonspace name = true ->
  (is_token name tok <->
   exists w1 w2, tok = "{{" +:+ w1 +:+ name +:+ w2 +:+ "}}" /\
                 allspace w1 = true /\ allspace w2 = true).
Proof.
  intros Hn. split; [apply is_token_shape|].
  intros (w1 & w2 & -> & H1 & H2). unfold is_token, match_token.
  rewrite (strip_prefix_same "{{"), (skip_ws_allspace w1) by done.
  rewrite skip_ws_nonspace, strip_prefix_same by done.
  rewrite (skip_ws_allspace w2) by done.
  change (skip_ws "}}") with "}}"%string. apply (strip_prefix_same "}}" EmptyString).
Qed.

(** ** [render_index] *)

(** X5. [render_index] renders a page as [render_tokens] does when it is
    given the tree: it reads the clock once, leaves the files alone and
    returns the page with the four tokens replaced in the same order. *)
Theorem X5_render_index_is_render_tokens (utcnow_at : nat -> datetime)
    (index_src title : string) (nb_count : nat) (tree : node) (w : world) :
  render_index utcnow_at index_src title nb_count tree w =
    render_tokens utcnow_at index_src title nb_count (Some tree) w /\
  render_index utcnow_at index_src title nb_count tree w =
    (Ok (render_with (strftime (utcnow_at (ticks w))) index_src title nb_count
           (Some tree)),
     {| fs := fs w; ticks := S (ticks w); log := log w |}).
Proof. split; reflexivity. Qed.

(** ** The flag [--execute] *)

Lemma lower_char_t x : Str.lower_char x = "t"%char -> x = "t"%char \/ x = "T"%char.
Proof. destruct x as [[] [] [] [] [] [] [] []]; vm_compute; intros [=]; auto. Qed.

Lemma lower_char_r x : Str.lower_char x = "r"%char -> x = "r"%char \/ x = "R"%char.
Proof. destruct x as [[] [] [] [] [] [] [] []]; vm_compute; intros [=]; auto. Qed.

Lemma lower_char_u x : Str.lower_char x = "u"%char -> x = "u"%char \/ x = "U"%char.
Proof. destruct x as [[] [] [] [] [] [] [] []]; vm_compute; intros [=]; auto. Qed.

Lemma lower_char_e x : Str.lower_char x = "e"%char -> x = "e"%char \/ x = "E"%char.
Proof. destruct x as [[] [] [] [] [] [] [] []]; vm_compute; intros [=]; auto. Qed.

(** X6. The notebooks are executed exactly when the argument of
    [--execute] is the word true, each letter in upper or lower case; any
    other argument, be it yes, 1 or true with a space, means no execution
    and is no error. *)
Theorem X6_execute_flag (arg : string) :
  main_execute arg = true <->
  exists a b c d : ascii,
    arg = String a (String b (String c (String d EmptyString))) /\
    (a = "t"%char \/ a = "T"%char) /\ (b = "r"%char \/ b = "R"%char) /\
    (c = "u"%char \/ c = "U"%char) /\ (d = "e"%char \/ d = "E"%char).
Proof.
  unfold main_execute. rewrite String.eqb_eq. split.
  - destruct arg as [|a [|b [|c [|d [|]]]]]; cbn [Str.lower]; try by intros [=].
    intros [= Ha Hb Hc Hd]. exists a, b, c, d.
    split_and!; [done|by apply lower_char_t|by apply lower_char_r
                |by apply lower_char_u|by apply lower_char_e].
  - intros (a & b & c & d & -> & Ha & Hb & Hc & Hd).
    by destruct Ha as [-> | ->], Hb as [-> | ->], Hc as [-> | ->], Hd as [-> | ->].
Qed.

(** ** The names of the documents *)



Lemma length_substring s : forall i n,
  i + n <= String.length s -> String.length (String.substring i n s) = n.
Proof.
  induction s as [|c s IH]; intros i n Hl; cbn in Hl.
  { replace i with 0 by lia. by replace n with 0 by lia. }
  destruct i as [|i]; cbn [String.substring].
  - destruct n as [|n]; [done|]. cbn [String.length]. rewrite IH; lia.
  - apply IH. lia.
Qed.

Lemma length_name_suffix name :
  String.length (name_suffix name) <= String.length name.
Proof.
  unfold name_suffix. destruct (rfind "." name 0) as [i|]; [|cbn; lia].
  destruct (_ && _) eqn:E; [|cbn; lia].
  apply andb_true_iff in E as [_ E%Nat.ltb_lt].
  rewrite length_substring; lia.
Qed.







(** ** Filesystems *)

Lemma is_dir_in_lookup f p :
  p <> [] -> is_dir_in f p = true <-> f !! p = Some DirObj.
Proof.
  intros Hp. unfold is_dir_in. destruct p as [|a p]; [done|]. cbn [lookup_obj].
  destruct (f !! (a :: p)) as [[|c]|]; split; done.
Qed.

Lemma is_dir_in_Some f p : f !! p = Some DirObj -> is_dir_in f p = true.
Proof.
  intros H. unfold is_dir_in. destruct p as [|a p]; [done|]. cbn [lookup_obj].
  by rewrite H.
Qed.

Lemma is_dir_in_file f p c : p <> [] -> f !! p = Some (FileObj c) -> is_dir_in f p = false.
Proof.
  intros Hp H. unfold is_dir_in. destruct p as [|a p]; [done|]. cbn [lookup_obj].
  by rewrite H.
Qed.

Lemma wf_parent f p o : wf_fs f -> f !! p = Some o -> is_dir_in f (parent p) = true.
Proof. intros Hwf H. exact (Hwf p o H). Qed.

(** In a well-formed filesystem what lies above an entry is a directory. *)
Lemma wf_prefix f p : forall r o,
  wf_fs f -> f !! (p ++ r) = Some o -> r <> [] -> is_dir_in f p = true.
Proof.
  induction r as [|x r IH] using rev_ind; intros o Hwf H Hr; [done|].
  apply wf_parent in H; [|done]. rewrite app_assoc, parent_snoc in H.
  destruct r as [|y r]; [by rewrite app_nil_r in H|].
  apply is_dir_in_lookup in H; [|by destruct p]. by eapply IH.
Qed.

Lemma wf_prefix_dir f p r :
  wf_fs f -> is_dir_in f (p ++ r) = true -> is_dir_in f p = true.
Proof.
  intros Hwf H. destruct r as [|x r]; [by rewrite app_nil_r in H|].
  apply is_dir_in_lookup in H; [|by destruct p]. by eapply wf_prefix.
Qed.

Lemma inside_refl p : inside p p = true.
Proof. apply inside_spec. exists []. by rewrite app_nil_r. Qed.

Lemma not_inside_nil p q : inside p q = false -> p <> [].
Proof. intros H ->. by rewrite (proj2 (inside_spec [] q)) in H by by exists q. Qed.

Lemma inside_false p q : inside p q = false <-> forall r, q <> p ++ r.
Proof.
  split.
  - intros H r ->. by rewrite inside_app in H.
  - intros H. destruct (inside p q) eqn:E; [|done].
    apply inside_spec in E as [r ->]. by destruct (H r).
Qed.

(** Of two paths above a third, one is above the other. *)
Lemma prefix_cases (a b : path) : forall x y,
  a ++ x = b ++ y -> (exists r, b = a ++ r) \/ (exists r, a = b ++ r).
Proof.
  revert b. induction a as [|c a IH]; intros b x y H.
  { left. by exists b. }
  destruct b as [|d b]; [right; by eexists|].
  injection H as -> H. destruct (IH _ _ _ H) as [[r ->]|[r ->]]; [left|right]; by exists r.
Qed.

Lemma outside_kept_refl out f : outside_kept out f f.
Proof. intros q _. by left. Qed.

Lemma outside_kept_trans out f1 f2 f3 :
  outside_kept out f1 f2 -> outside_kept out f2 f3 -> outside_kept out f1 f3.
Proof.
  intros H12 H23 q Hq.
  destruct (H12 q Hq) as [E12|(N1 & D2 & I2)], (H23 q Hq) as [E23|(N2 & D3 & I3)].
  - left. congruence.
  - right. split_and!; [congruence|done|done].
  - right. split_and!; [done|congruence|done].
  - congruence.
Qed.

(** What is kept outside a directory is kept outside the directory above
    it. *)
Lemma outside_kept_below out x f f' :
  outside_kept (out ++ x) f f' -> outside_kept out f f'.
Proof.
  intros H q Hq.
  assert (inside (out ++ x) q = false) as Hq'.
  { apply inside_false. intros r ->. by rewrite <- app_assoc, inside_app in Hq. }
  destruct (H q Hq') as [E|(N & D & I)]; [by left|right].
  split_and!; [done|done|].
  apply inside_spec in I as [r E].
  destruct (prefix_cases _ _ _ _ E) as [[r' ->]|[r' ->]].
  - by rewrite inside_app in Hq.
  - apply inside_app.
Qed.

Lemma mkdir_fold_dirs target l : forall f f',
  fold_left (mkdir_one target) l (inr f) = inr f' ->
  forall q, q ∈ l -> is_dir_in f' q = true.
Proof.
  induction l as [|x l IH]; intros f f' H q Hq; [by apply elem_of_nil in Hq|].
  cbn [fold_left mkdir_one] in H.
  apply elem_of_cons in Hq as [->|Hq].
  2:{ destruct (lookup_obj f x) as [[|c]|]; [by eapply IH| |by eapply IH].
      by rewrite mkdir_fold_inl in H. }
  destruct x as [|a x]; [done|]. cbn [lookup_obj] in H.
  destruct (f !! (a :: x)) as [[|c]|] eqn:Hx.
  - apply mkdir_fold in H as [H1 _]. apply is_dir_in_Some. by apply H1.
  - by rewrite mkdir_fold_inl in H.
  - apply mkdir_fold in H as [H1 _]. apply is_dir_in_Some. apply H1.
    by rewrite lookup_insert_eq.
Qed.

Lemma mkdir_in_dir f p f' : mkdir_in f p = inr f' -> is_dir_in f' p = true.
Proof.
  intros H. eapply mkdir_fold_dirs; [exact H|].
  apply elem_of_prefixes. exists []. by rewrite app_nil_r.
Qed.

Lemma mkdir_fold_succeeds target l : forall f,
  (forall q c, q ∈ l -> lookup_obj f q <> Some (FileObj c)) ->
  exists f', fold_left (mkdir_one target) l (inr f) = inr f'.
Proof.
  induction l as [|x l IH]; intros f H; [by eexists|].
  cbn [fold_left mkdir_one].
  destruct (lookup_obj f x) as [[|c]|] eqn:Hx.
  - apply IH. intros q c Hq. apply H. by right.
  - destruct (H x c); [by left | done].
  - apply IH. intros q c Hq. destruct q as [|b q]; [done|]. cbn [lookup_obj].
    rewrite lookup_insert. case_decide; [done|].
    specialize (H (b :: q) c). cbn [lookup_obj] in H. apply H. by right.
Qed.

(** The directories can be made when no file is in the way. *)
Lemma mkdir_in_succeeds f p :
  (forall q c, q <> [] -> inside q p = true -> f !! q <> Some (FileObj c)) ->
  exists f', mkdir_in f p = inr f'.
Proof.
  intros H. apply mkdir_fold_succeeds. intros q c Hq%elem_of_prefixes.
  destruct q as [|b q]; [done|]. cbn [lookup_obj]. apply H; [done|].
  by apply inside_spec.
Qed.

Lemma wf_fs_below src f : wf_fs f -> wf_below src f.
Proof. intros Hwf r o _ H. by eapply wf_parent. Qed.

(** Below [src] what lies above an entry is a directory. *)
Lemma wf_below_dir src f r : forall y o,
  wf_below src f -> f !! (src ++ r ++ y) = Some o -> y <> [] ->
  is_dir_in f (src ++ r) = true.
Proof.
  induction y as [|x y IH] using rev_ind; intros o Hwf H Hy; [done|].
  apply Hwf in H; [|by destruct r, y].
  rewrite !app_assoc, parent_snoc, <- app_assoc in H.
  destruct y as [|z y]; [by rewrite app_nil_r in H|].
  apply is_dir_in_lookup in H; [|by destruct src, r]. by eapply IH.
Qed.

Lemma write_in_not_dir f p c f' :
  write_in f p c = inr f' -> is_dir_in f p = false.
Proof.
  unfold write_in, is_dir_in. by destruct (lookup_obj f p) as [[|?]|].
Qed.

Lemma write_in_succeeds f p c :
  is_dir_in f p = false -> is_dir_in f (parent p) = true ->
  write_in f p c = inr (<[p := FileObj c]> f).
Proof.
  unfold write_in, is_dir_in.
  destruct (lookup_obj f p) as [[|?]|]; [done|..];
    by destruct (lookup_obj f (parent p)) as [[|?]|].
Qed.

(** ** [copy_tree] *)

Lemma copy2_run s d w :
  copy2 s d w =
  match lookup_obj (fs w) s with
  | Some (FileObj c) =>
      match write_in (fs w) (if is_dir_in (fs w) d then d ++ [path_name s] else d) c with
      | inr f => (Ok tt, set_fs w f)
      | inl e => (Raise e, w)
      end
  | Some DirObj => (Raise IsADirectoryError, w)
  | None => (Raise FileNotFoundError, w)
  end.
Proof.
  unfold copy2, bind, read_text, is_dir, write_text.
  by destruct (lookup_obj (fs w) s) as [[|c]|].
Qed.

(** The listing of [os.walk]: the directories at and below [top], each with
    the files in it. *)
Lemma os_walk_Ok top w :
  exists l, os_walk top w = (Ok l, w) /\
    listed top (fs w) l /\
    (is_dir_in (fs w) top = false -> l = []) /\
    (is_dir_in (fs w) top = true ->
     forall d, is_dir_in (fs w) d = true -> inside top d = true ->
       exists fl, (d, fl) ∈ l /\
         forall name c, fs w !! (d ++ [name]) = Some (FileObj c) -> name ∈ fl).
Proof.
  eexists. split; [reflexivity|]. split_and!.
  - intros d fl [d' [[= <- ->] Hd]]%list_elem_of_fmap.
    assert (is_dir_in (fs w) d = true /\ inside top d = true) as [Hd1 Hd2].
    { destruct (is_dir_in (fs w) top) eqn:Ht; [|by apply elem_of_nil in Hd].
      apply elem_of_cons in Hd as [->|Hd]; [by rewrite inside_refl|].
      rewrite sorted_Permutation in Hd.
      apply list_elem_of_filter in Hd as [[Hp Hdir] _]. split; [done|].
      apply elem_of_parents in Hp as (r & _ & ->). apply inside_app. }
    split_and!; [done|done|].
    intros name [p [-> Hp]]%list_elem_of_fmap.
    rewrite sorted_Permutation in Hp.
    apply list_elem_of_filter in Hp as [(Hne & Hpar & Hnd) Hp].
    apply list_elem_of_fmap in Hp as [[p' o] [-> Ho%elem_of_map_to_list]].
    cbn [fst] in *. rewrite <- Hpar, <- parent_name by done.
    destruct o as [|c]; [|by exists c].
    apply is_dir_in_Some in Ho. congruence.
  - by intros ->.
  - intros Ht d Hd Hin. rewrite Ht. eexists. split.
    + apply list_elem_of_fmap. exists d. split; [reflexivity|].
      apply inside_spec in Hin as [r ->]. destruct r as [|x r].
      { rewrite app_nil_r. by left. }
      right. rewrite sorted_Permutation. apply list_elem_of_filter. split.
      * split; [|done]. apply elem_of_parents. by exists (x :: r).
      * apply is_dir_in_lookup in Hd; [|by destruct top].
        apply list_elem_of_fmap. exists (top ++ x :: r, DirObj).
        split; [done | by apply elem_of_map_to_list].
    + intros name c Hf. apply list_elem_of_fmap. exists (d ++ [name]).
      split; [by rewrite path_name_snoc|].
      rewrite sorted_Permutation. apply list_elem_of_filter. split.
      * split_and!; [by destruct d | by rewrite parent_snoc|].
        eapply is_dir_in_file; [by destruct d | done].
      * apply list_elem_of_fmap. exists (d ++ [name], FileObj c).
        split; [done | by apply elem_of_map_to_list].
Qed.

Lemma copy_mono_refl src dst f0 f : copy_mono src dst f0 f f.
Proof. by split. Qed.

Lemma copy_mono_trans src dst f0 f1 f2 f3 :
  copy_mono src dst f0 f1 f2 -> copy_mono src dst f0 f2 f3 ->
  copy_mono src dst f0 f1 f3.
Proof. intros [A1 B1] [A2 B2]. split; eauto. Qed.

Section CopyTree.

Variables (src dst : path) (f0 : gmap (list string) obj).
Hypothesis Hwf : wf_below src f0.
Hypothesis Hsd : inside src dst = false.
Hypothesis Hds : inside dst src = false.

(** What is below [src] is outside [dst]. *)
Lemma below_src_outside r : inside dst (src ++ r) = false.
Proof.
  apply inside_false. intros y E.
  destruct (prefix_cases _ _ _ _ E) as [[r' E']|[r' E']].
  - by rewrite E', inside_app in Hsd.
  - by rewrite E', inside_app in Hds.
Qed.

Lemma copy_inv_init : copy_inv src dst f0 f0.
Proof. split; auto. Qed.

(** The place of a copy is a directory now if it was one at the start. *)
Lemma place_is_dir f r c :
  copy_inv src dst f0 f -> r <> [] -> f0 !! (src ++ r) = Some (FileObj c) ->
  is_dir_in f (dst ++ r) = is_dir_in f0 (dst ++ r).
Proof.
  intros Hinv Hr Hf.
  assert (dst ++ r <> []) as Hne by by destruct dst, r.
  destruct (is_dir_in f0 (dst ++ r)) eqn:E0.
  - apply is_dir_in_lookup in E0; [|done].
    apply is_dir_in_Some. by apply (ci_dirs_kept _ _ _ _ Hinv).
  - destruct (is_dir_in f (dst ++ r)) eqn:E; [|done].
    apply is_dir_in_lookup in E; [|done].
    apply (ci_dirs _ _ _ _ Hinv) in E as [E|[E|(r' & E & Hd)]].
    + apply is_dir_in_Some in E. congruence.
    + apply inside_spec in E as [y E]. rewrite <- app_assoc in E.
      apply (f_equal length) in E. rewrite !length_app in E.
      destruct r; [done|]. cbn in E. lia.
    + apply app_inv_head in E as <-.
      apply is_dir_in_lookup in Hd; [congruence | by destruct src, r].
Qed.

(** Making the mirror of a directory. *)
Lemma copy_inv_mkdir f rd f' :
  copy_inv src dst f0 f -> is_dir_in f0 (src ++ rd) = true ->
  mkdir_in f (dst ++ rd) = inr f' ->
  copy_inv src dst f0 f' /\ is_dir_in f' (dst ++ rd) = true /\
  copy_mono src dst f0 f f'.
Proof.
  intros Hinv Hd Hm. pose proof (mkdir_in_dir _ _ _ Hm) as Hdir.
  apply mkdir_in_inr in Hm as [H1 H2].
  assert (forall q, is_dir_in f q = true -> is_dir_in f' q = true) as Hmono.
  { intros q Hq. destruct q as [|a q]; [done|].
    apply is_dir_in_lookup in Hq; [|done]. apply is_dir_in_Some. by apply H1. }
  split_and!; [split| done | split; [done|]].
  - intros q o Hq Ho. apply H1. by apply (ci_keep _ _ _ _ Hinv).
  - intros q Hq. apply H1. by apply (ci_dirs_kept _ _ _ _ Hinv).
  - intros q Hq. destruct (H2 q _ Hq) as [Hq'|[_ [r E]]].
    { by apply (ci_dirs _ _ _ _ Hinv). }
    right. symmetry in E.
    destruct (prefix_cases _ _ _ _ E) as [[r' ->]|[r' ->]].
    + left. apply inside_app.
    + right. exists r'. split; [done|].
      rewrite <- app_assoc in E. apply app_inv_head in E as <-.
      destruct r as [|x r]; [by rewrite app_nil_r in Hd|].
      apply is_dir_in_lookup in Hd; [|by destruct src, r'].
      by eapply wf_below_dir.
  - intros q c Hq. destruct (H2 q _ Hq) as [Hq'|[[=] _]].
    by apply (ci_files _ _ _ _ Hinv).
  - intros rd2 name _ Hc c Hf. apply H1. by apply Hc.
Qed.

(** Writing the copy of a file. *)
Lemma copy_inv_write f rd name c f' :
  copy_inv src dst f0 f -> is_dir_in f0 (src ++ rd) = true ->
  f0 !! (src ++ rd ++ [name]) = Some (FileObj c) ->
  write_in f (if is_dir_in f (dst ++ rd ++ [name])
              then dst ++ (rd ++ [name]) ++ [name] else dst ++ rd ++ [name]) c
    = inr f' ->
  copy_inv src dst f0 f' /\ copied src dst f0 f' (rd ++ [name]) /\
  copy_mono src dst f0 f f'.
Proof.
  intros Hinv Hd Hf Hw.
  assert (rd ++ [name] <> []) as Hr by by destruct rd.
  pose proof (place_is_dir f (rd ++ [name]) c Hinv Hr Hf) as Hplace.
  rewrite Hplace in Hw.
  set (t := if is_dir_in f0 (dst ++ rd ++ [name])
            then dst ++ (rd ++ [name]) ++ [name] else dst ++ rd ++ [name]) in *.
  assert (inside dst t = true) as Ht.
  { unfold t. destruct (is_dir_in f0 (dst ++ rd ++ [name]));
      [rewrite <- !app_assoc|]; apply inside_app. }
  assert (t <> []) as Htne.
  { unfold t. destruct (is_dir_in f0 (dst ++ rd ++ [name])); by destruct dst, rd. }
  pose proof (write_in_not_dir _ _ _ _ Hw) as Hnd.
  apply write_in_inr in Hw as ->.
  assert (forall q, is_dir_in f q = true ->
                    is_dir_in (<[t := FileObj c]> f) q = true) as Hmono.
  { intros q Hq. destruct q as [|a q]; [done|].
    apply is_dir_in_lookup in Hq; [|done]. apply is_dir_in_Some.
    rewrite lookup_insert_ne; [done|]. intros E.
    apply is_dir_in_Some in Hq. rewrite <- E in Hq. congruence. }
  split_and!; [split| | split; [done|]].
  - intros q o Hq Ho. rewrite lookup_insert_ne by congruence.
    by apply (ci_keep _ _ _ _ Hinv).
  - intros q Hq. apply (ci_dirs_kept _ _ _ _ Hinv) in Hq.
    rewrite lookup_insert_ne; [done|]. intros <-.
    apply is_dir_in_Some in Hq. congruence.
  - intros q Hq. rewrite lookup_insert in Hq. case_decide; [done|].
    by apply (ci_dirs _ _ _ _ Hinv).
  - intros q c' Hq. rewrite lookup_insert in Hq. case_decide as E.
    2:{ by apply (ci_files _ _ _ _ Hinv). }
    injection Hq as <-. subst q. right. exists (rd ++ [name]).
    split_and!; [done|done|]. unfold t. rewrite path_name_snoc.
    destruct (is_dir_in f0 (dst ++ rd ++ [name])); [right|left]; done.
  - intros c' Hf'. rewrite Hf in Hf'. injection Hf' as <-.
    rewrite path_name_snoc. fold t. by rewrite lookup_insert_eq.
  - intros rd2 name2 Hd2 Hc c2 Hf2. specialize (Hc c2 Hf2).
    rewrite path_name_snoc in *.
    rewrite lookup_insert. case_decide as E; [|done].
    f_equal. f_equal.
    assert (rd2 ++ [name2] = rd ++ [name]) as E'; [|by rewrite E', Hf in Hf2; injection Hf2].
    revert E. unfold t.
    destruct (is_dir_in f0 (dst ++ rd ++ [name])) eqn:E1,
             (is_dir_in f0 (dst ++ rd2 ++ [name2])) eqn:E2;
      intros E; apply app_inv_head in E.
    + by apply app_inj_tail in E as [E _].
    + exfalso. apply app_inj_tail in E as [<- _].
      apply is_dir_in_lookup in Hd2; [|by destruct src, rd]. congruence.
    + exfalso. apply app_inj_tail in E as [-> _].
      apply is_dir_in_lookup in Hd; [|by destruct src, rd2]. congruence.
    + done.
Qed.

End CopyTree.

Lemma is_dir_in_None f p : p <> [] -> f !! p = None -> is_dir_in f p = false.
Proof.
  intros Hp H. unfold is_dir_in. destruct p as [|a p]; [done|]. cbn [lookup_obj].
  by rewrite H.
Qed.

Section CopyLoops.

Variables (src dst : path) (f0 : gmap (list string) obj).
Hypothesis Hwf : wf_below src f0.
Hypothesis Hsd : inside src dst = false.
Hypothesis Hds : inside dst src = false.

(** The body of the loop over the files of the directory [src ++ rd]. *)
Lemma copy_file_Ok rd name w w' :
  copy_inv src dst f0 (fs w) -> is_dir_in f0 (src ++ rd) = true ->
  is_Some (f0 !! (src ++ rd ++ [name])) ->
  copy2 ((src ++ rd) ++ [name]) ((dst ++ rd) ++ [name]) w = (Ok tt, w') ->
  copy_inv src dst f0 (fs w') /\ copied src dst f0 (fs w') (rd ++ [name]) /\
  copy_mono src dst f0 (fs w) (fs w') /\ ticks w' = ticks w /\ log w' = log w.
Proof.
  intros Hinv Hd [o Ho] H. rewrite copy2_run, <- !app_assoc in H.
  pose proof (ci_keep _ _ _ _ Hinv _ _ Ho (below_src_outside src dst Hsd Hds _)) as Hk.
  rewrite (lookup_obj_Some _ _ _ Hk) in H by by destruct src, rd.
  destruct o as [|c]; [done|].
  destruct (write_in _ _ _) as [e|f'] eqn:Hw in H; [done|]. injection H as <-.
  rewrite path_name_app, path_name_snoc in Hw by by destruct rd.
  rewrite (app_assoc rd [name] [name]) in Hw.
  destruct (copy_inv_write src dst f0 Hwf Hsd Hds (fs w) rd name c f' Hinv Hd Ho Hw)
    as (A & B & C).
  done.
Qed.

Lemma copy_files_Ok rd : forall fl w w',
  copy_inv src dst f0 (fs w) -> is_dir_in f0 (src ++ rd) = true ->
  (forall name, name ∈ fl -> is_Some (f0 !! (src ++ rd ++ [name]))) ->
  for_each (fun (_ : unit) f => copy2 ((src ++ rd) ++ [f]) ((dst ++ rd) ++ [f]))
    fl tt w = (Ok tt, w') ->
  copy_inv src dst f0 (fs w') /\ copy_mono src dst f0 (fs w) (fs w') /\
  (forall name, name ∈ fl -> copied src dst f0 (fs w') (rd ++ [name])) /\
  ticks w' = ticks w /\ log w' = log w.
Proof.
  induction fl as [|name fl IH]; intros w w' Hinv Hd Hfl H.
  { injection H as <-. split_and!; [done|apply copy_mono_refl| |done|done].
    by intros ? ?%elem_of_nil. }
  cbn [for_each] in H. apply bind_Ok in H as ([] & w1 & H1 & H2).
  apply copy_file_Ok in H1 as (Hinv1 & Hc1 & Hm1 & Ht1 & Hl1);
    [|done|done|apply Hfl; by left].
  apply IH in H2 as (Hinv2 & Hm2 & Hc2 & Ht2 & Hl2);
    [|done|done|intros; apply Hfl; by right].
  split_and!; [done|by eapply copy_mono_trans| |congruence|congruence].
  intros name' [->|Hn]%elem_of_cons; [|by apply Hc2].
  by apply (proj2 Hm2).
Qed.

(** The body of the loop over the directories. *)
Lemma copy_dir_Ok d fl w w' :
  copy_inv src dst f0 (fs w) -> is_dir_in f0 d = true -> inside src d = true ->
  (forall name, name ∈ fl -> is_Some (f0 !! (d ++ [name]))) ->
  (let* rel := lift ValueError (relative_to d src) in
   let out_root := dst ++ rel in
   do mkdir_p out_root then
   for_each (fun (_ : unit) f => copy2 (d ++ [f]) (out_root ++ [f])) fl tt) w
    = (Ok tt, w') ->
  copy_inv src dst f0 (fs w') /\ copy_mono src dst f0 (fs w) (fs w') /\
  dir_copied src dst f0 (fs w') d fl /\ ticks w' = ticks w /\ log w' = log w.
Proof.
  intros Hinv Hd [rd ->]%inside_spec Hfl H.
  rewrite (proj2 (relative_to_Some _ _ rd) eq_refl) in H. cbn [lift] in H.
  apply bind_Ok in H as (rel & w0 & [= <- <-] & H).
  apply bind_Ok in H as ([] & w1 & H1 & H2).
  apply mkdir_p_Ok in H1 as (f1 & Hm & ->).
  apply (copy_inv_mkdir src dst f0 Hwf Hsd Hds) in Hm as (Hinv1 & Hdir1 & Hm1);
    [|done|done].
  apply copy_files_Ok in H2 as (Hinv2 & Hm2 & Hc2 & Ht2 & Hl2);
    [|done|done|intros; rewrite app_assoc; by apply Hfl].
  split_and!; [done|by eapply copy_mono_trans| |done|done].
  unfold dir_copied. rewrite rel_of_app. split; [|done].
  by apply (proj1 Hm2).
Qed.

Lemma dir_copied_mono f f' d fl :
  copy_mono src dst f0 f f' -> is_dir_in f0 d = true -> inside src d = true ->
  dir_copied src dst f0 f d fl -> dir_copied src dst f0 f' d fl.
Proof.
  intros [Hm1 Hm2] Hd [rd ->]%inside_spec. unfold dir_copied.
  rewrite rel_of_app. intros [Hc1 Hc2].
  split; [by apply Hm1|]. intros name Hn. apply Hm2; [done|]. by apply Hc2.
Qed.

Lemma copy_dirs_Ok : forall l w w',
  listed src f0 l -> copy_inv src dst f0 (fs w) ->
  for_each
    (fun (_ : unit) '(root, files) =>
       let* rel := lift ValueError (relative_to root src) in
       let out_root := dst ++ rel in
       do mkdir_p out_root then
       for_each (fun (_ : unit) f => copy2 (root ++ [f]) (out_root ++ [f]))
         files tt)
    l tt w = (Ok tt, w') ->
  copy_inv src dst f0 (fs w') /\ copy_mono src dst f0 (fs w) (fs w') /\
  (forall d fl, (d, fl) ∈ l -> dir_copied src dst f0 (fs w') d fl) /\
  ticks w' = ticks w /\ log w' = log w.
Proof.
  induction l as [|[d fl] l IH]; intros w w' Hl Hinv H.
  { injection H as <-. split_and!; [done|apply copy_mono_refl| |done|done].
    by intros ?? ?%elem_of_nil. }
  cbn [for_each] in H. apply bind_Ok in H as ([] & w1 & H1 & H2).
  destruct (Hl d fl) as (Hd & Hin & Hfl); [by left|].
  apply copy_dir_Ok in H1 as (Hinv1 & Hm1 & Hc1 & Ht1 & Hl1);
    [|done|done|done|].
  2:{ intros name Hn. destruct (Hfl name Hn) as [c Hc]. by eexists. }
  apply IH in H2 as (Hinv2 & Hm2 & Hc2 & Ht2 & Hl2);
    [|intros d' fl' Hd'; apply Hl; by right|done].
  split_and!; [done|by eapply copy_mono_trans| |congruence|congruence].
  intros d' fl' [[= -> ->]|Hd']%elem_of_cons; [|by apply Hc2].
  by eapply dir_copied_mono.
Qed.

End CopyLoops.

Lemma copy_inv_outside src dst f0 f :
  copy_inv src dst f0 f -> outside_kept dst f0 f.
Proof.
  intros Hinv q Hq. destruct (f0 !! q) as [o|] eqn:E0.
  { left. by apply (ci_keep _ _ _ _ Hinv). }
  destruct (f !! q) as [[|c]|] eqn:E; [|exfalso|by left].
  - right. split_and!; [done|done|].
    apply (ci_dirs _ _ _ _ Hinv) in E as [E|[E|(r & -> & _)]]; [congruence|done|].
    by rewrite inside_app in Hq.
  - apply (ci_files _ _ _ _ Hinv) in E as [E|(r & _ & _ & [->| [-> _]])]; [congruence|..].
    + by rewrite inside_app in Hq.
    + by rewrite inside_app in Hq.
Qed.

Lemma exists_dir p w : is_dir_in (fs w) p = true -> exists_ p w = (Ok true, w).
Proof.
  unfold exists_, is_dir_in. intros H.
  rewrite bool_decide_eq_true_2; [done|].
  by destruct (lookup_obj (fs w) p).
Qed.

(** [copy_tree] when it returns. *)
Lemma copy_tree_Ok src dst w w' :
  wf_below src (fs w) -> inside src dst = false -> inside dst src = false ->
  is_dir_in (fs w) src = true ->
  copy_tree src dst w = (Ok tt, w') ->
  copy_inv src dst (fs w) (fs w') /\
  (forall r, is_dir_in (fs w) (src ++ r) = true -> is_dir_in (fs w') (dst ++ r) = true) /\
  (forall r, r <> [] -> copied src dst (fs w) (fs w') r) /\
  ticks w' = ticks w /\ log w' = log w.
Proof.
  intros Hwf Hsd Hds Hsrc H. unfold copy_tree in H.
  apply bind_Ok in H as (e & w0 & He & H).
  rewrite exists_dir in He by done. injection He as <- <-. cbn [negb] in H.
  apply bind_Ok in H as (l & w0 & Hl & H).
  destruct (os_walk_Ok src w) as (l' & Hl' & Hlisted & _ & Hall).
  rewrite Hl' in Hl. injection Hl as <- <-.
  apply (copy_dirs_Ok src dst (fs w) Hwf Hsd Hds) in H
    as (Hinv & Hmono & Hdone & Ht & Hlog); [|done|by apply copy_inv_init].
  split_and!; [done| | |done|done].
  - intros r Hr. destruct (Hall Hsrc (src ++ r) Hr (inside_app _ _)) as (fl & Hin & _).
    destruct (Hdone _ _ Hin) as [Hd _]. by rewrite rel_of_app in Hd.
  - intros r Hr c Hc. destruct (exists_last Hr) as (rd & name & ->).
    assert (is_dir_in (fs w) (src ++ rd) = true) as Hrd.
    { apply Hwf in Hc; [|done]. by rewrite app_assoc, parent_snoc in Hc. }
    destruct (Hall Hsrc (src ++ rd) Hrd (inside_app _ _)) as (fl & Hin & Hfl).
    destruct (Hdone _ _ Hin) as [_ Hcp]. rewrite rel_of_app in Hcp.
    apply Hcp; [|done]. apply (Hfl name c). by rewrite <- app_assoc.
Qed.

(** X8. [copy_tree] copies the tree below the source directory: when it
    returns, in a well-formed filesystem and for a source and a destination
    neither of which lies in the other, every directory at or below the
    source has its mirror below the destination, and every file below the
    source has a copy with its content at the mirrored place, where it
    replaces the file that was there, or, if a directory was in that place,
    in that directory under its own name. *)
Theorem X8_copy_tree_copies (src_dir dst_dir : path) (w w' : world) :
  wf_fs (fs w) ->
  inside src_dir dst_dir = false -> inside dst_dir src_dir = false ->
  is_dir_in (fs w) src_dir = true ->
  copy_tree src_dir dst_dir w = (Ok tt, w') ->
  (forall r, is_dir_in (fs w) (src_dir ++ r) = true ->
     is_dir_in (fs w') (dst_dir ++ r) = true) /\
  (forall r c, fs w !! (src_dir ++ r) = Some (FileObj c) ->
     fs w' !! (if is_dir_in (fs w) (dst_dir ++ r)
               then dst_dir ++ r ++ [path_name r] else dst_dir ++ r)
       = Some (FileObj c)).
Proof.
  intros Hwf Hsd Hds Hsrc H.
  apply copy_tree_Ok in H as (_ & Hd & Hc & _); [|by apply wf_fs_below|done..].
  split; [done|]. intros r c Hf. apply Hc; [|done]. intros ->.
  rewrite app_nil_r in Hf. apply is_dir_in_lookup in Hsrc; [congruence|].
  by eapply not_inside_nil.
Qed.

(** X9. [copy_tree] of a source that is missing, or that is a file and no
    directory, does nothing and is no error. *)
Theorem X9_copy_tree_without_source (src_dir dst_dir : path) (w : world) :
  is_dir_in (fs w) src_dir = false ->
  copy_tree src_dir dst_dir w = (Ok tt, w).
Proof.
  intros H. unfold copy_tree, bind, exists_.
  destruct (bool_decide _); [|done]. cbn [negb].
  destruct (os_walk_Ok src_dir w) as (l & -> & _ & Hl & _). by rewrite (Hl H).
Qed.

(** ** [copy_tree] into a new directory *)

Section CopyFresh.

Variables (src dst : path) (f0 : gmap (list string) obj).
Hypothesis Hwf : wf_below src f0.
Hypothesis Hsd : inside src dst = false.
Hypothesis Hds : inside dst src = false.
Hypothesis Hfresh : forall q, inside dst q = true -> f0 !! q = None.
Hypothesis Hway : forall q c,
  q <> [] -> inside q dst = true -> f0 !! q <> Some (FileObj c).

Lemma fresh_not_dir r : is_dir_in f0 (dst ++ r) = false.
Proof.
  apply is_dir_in_None; [|apply Hfresh, inside_app].
  pose proof (not_inside_nil _ _ Hds). by destruct dst.
Qed.

Lemma fresh_mkdir f rd :
  copy_inv src dst f0 f -> is_dir_in f0 (src ++ rd) = true ->
  exists f', mkdir_in f (dst ++ rd) = inr f'.
Proof.
  intros Hinv Hd. apply mkdir_in_succeeds. intros q c Hqne [y E]%inside_spec Hf.
  apply (ci_files _ _ _ _ Hinv) in Hf as [Hf|(r & Hr & Hfr & [->|[-> Hdir]])].
  - symmetry in E. destruct (prefix_cases _ _ _ _ E) as [[r' ->]|[r' ->]].
    + by apply (Hway q c Hqne (inside_app _ _)).
    + by rewrite (Hfresh _ (inside_app _ _)) in Hf.
  - rewrite <- app_assoc in E. apply app_inv_head in E as ->.
    destruct y as [|x y].
    + rewrite app_nil_r in Hd.
      apply is_dir_in_lookup in Hd; [congruence | by destruct src, r].
    + apply is_dir_in_lookup in Hd; [|by destruct src, r].
      eapply wf_below_dir in Hd; [|done|done].
      apply is_dir_in_lookup in Hd; [congruence | by destruct src, r].
  - by rewrite fresh_not_dir in Hdir.
Qed.

Lemma fresh_copy rd name c w :
  copy_inv src dst f0 (fs w) -> f0 !! (src ++ rd ++ [name]) = Some (FileObj c) ->
  is_dir_in (fs w) (dst ++ rd) = true ->
  exists w', copy2 ((src ++ rd) ++ [name]) ((dst ++ rd) ++ [name]) w = (Ok tt, w').
Proof.
  intros Hinv Hf Hdir. rewrite copy2_run, <- !app_assoc.
  pose proof (ci_keep _ _ _ _ Hinv _ _ Hf (below_src_outside src dst Hsd Hds _)) as Hk.
  rewrite (lookup_obj_Some _ _ _ Hk) by by destruct src, rd.
  rewrite (place_is_dir src dst f0 Hwf Hsd Hds (fs w) (rd ++ [name]) c)
    by (done || by destruct rd).
  rewrite fresh_not_dir, write_in_succeeds; [by eexists| |].
  - rewrite (place_is_dir src dst f0 Hwf Hsd Hds (fs w) (rd ++ [name]) c)
      by (done || by destruct rd).
    apply fresh_not_dir.
  - by rewrite !app_assoc, parent_snoc.
Qed.

Lemma fresh_files rd : forall fl w,
  copy_inv src dst f0 (fs w) -> is_dir_in f0 (src ++ rd) = true ->
  (forall name, name ∈ fl -> exists c, f0 !! (src ++ rd ++ [name]) = Some (FileObj c)) ->
  is_dir_in (fs w) (dst ++ rd) = true ->
  exists w',
    for_each (fun (_ : unit) f => copy2 ((src ++ rd) ++ [f]) ((dst ++ rd) ++ [f]))
      fl tt w = (Ok tt, w').
Proof.
  induction fl as [|name fl IH]; intros w Hinv Hd Hfl Hdir; [by eexists|].
  destruct (Hfl name) as [c Hc]; [by left|].
  destruct (fresh_copy rd name c w Hinv Hc Hdir) as [w1 H1].
  pose proof H1 as H1'.
  apply (copy_file_Ok src dst f0 Hwf Hsd Hds) in H1' as (Hinv1 & _ & Hm1 & _);
    [|done|done|by eexists].
  destruct (IH w1) as [w2 H2]; [done|done|intros; apply Hfl; by right|by apply (proj1 Hm1)|].
  exists w2. cbn [for_each]. apply bind_Ok. by exists tt, w1.
Qed.

Lemma fresh_dirs : forall l w,
  listed src f0 l -> copy_inv src dst f0 (fs w) ->
  exists w',
    for_each
      (fun (_ : unit) '(root, files) =>
         let* rel := lift ValueError (relative_to root src) in
         let out_root := dst ++ rel in
         do mkdir_p out_root then
         for_each (fun (_ : unit) f => copy2 (root ++ [f]) (out_root ++ [f]))
           files tt)
      l tt w = (Ok tt, w').
Proof.
  induction l as [|[d fl] l IH]; intros w Hl Hinv; [by eexists|].
  destruct (Hl d fl) as (Hd & [rd ->]%inside_spec & Hfl); [by left|].
  destruct (fresh_mkdir (fs w) rd Hinv Hd) as [f1 Hm].
  pose proof Hm as Hm'.
  apply (copy_inv_mkdir src dst f0 Hwf Hsd Hds) in Hm' as (Hinv1 & Hdir1 & _);
    [|done|done].
  destruct (fresh_files rd fl (set_fs w f1)) as [w2 H2]; [done|done| |done|].
  { intros name Hn. rewrite app_assoc. by apply Hfl. }
  assert ((let* rel := lift ValueError (relative_to (src ++ rd) src) in
           let out_root := dst ++ rel in
           do mkdir_p out_root then
           for_each (fun (_ : unit) f => copy2 ((src ++ rd) ++ [f]) (out_root ++ [f]))
             fl tt) w = (Ok tt, w2)) as Hbody.
  { rewrite (proj2 (relative_to_Some _ _ rd) eq_refl). cbn [lift].
    apply bind_Ok. exists rd, w. split; [done|].
    apply bind_Ok. exists tt, (set_fs w f1). split; [|done].
    apply mkdir_p_Ok. by exists f1. }
  pose proof Hbody as Hbody'.
  apply (copy_dir_Ok src dst f0 Hwf Hsd Hds) in Hbody' as (Hinv2 & _);
    [|done|done|apply inside_app|].
  2:{ intros name Hn. destruct (Hfl name Hn) as [c Hc]. by eexists. }
  destruct (IH w2) as [w3 H3]; [intros ???; apply Hl; by right|done|].
  exists w3. cbn [for_each]. apply bind_Ok. by exists tt, w2.
Qed.

End CopyFresh.

(** X10. [copy_tree] into a new directory: in a well-formed filesystem,
    when the source is a directory, nothing is at or below the destination,
    no file is on the way to it and it does not lie in the source, the
    copy returns and the destination is the image of the source: what is at
    a place below the destination is what is at that place below the
    source, a directory for a directory, a file with the same content for a
    file, nothing for nothing. *)
Theorem X10_copy_tree_into_new_directory (src_dir dst_dir : path) (w : world) :
  wf_fs (fs w) ->
  is_dir_in (fs w) src_dir = true ->
  inside src_dir dst_dir = false ->
  map_Forall (fun q _ => inside dst_dir q = false) (fs w) ->
  Forall (fun q => is_file_in (fs w) q = false) (prefixes dst_dir) ->
  exists w',
    copy_tree src_dir dst_dir w = (Ok tt, w') /\
    (forall r, fs w' !! (dst_dir ++ r) = fs w !! (src_dir ++ r)) /\
    ticks w' = ticks w /\ log w' = log w.
Proof.
  intros Hwf Hsrc Hsd Hfresh Hway.
  assert (src_dir <> []) as Hsne.
  { by eapply not_inside_nil. }
  assert (fs w !! src_dir = Some DirObj) as Hsrc' by by apply is_dir_in_lookup.
  assert (forall q, inside dst_dir q = true -> fs w !! q = None) as Hfresh'.
  { intros q Hq. destruct (fs w !! q) as [o|] eqn:E; [|done].
    apply Hfresh in E. cbn in E. congruence. }
  assert (inside dst_dir src_dir = false) as Hds.
  { destruct (inside dst_dir src_dir) eqn:E; [|done].
    apply Hfresh' in E. congruence. }
  assert (dst_dir <> []) as Hdne.
  { by eapply not_inside_nil. }
  assert (forall q c, q <> [] -> inside q dst_dir = true ->
                      fs w !! q <> Some (FileObj c)) as Hway'.
  { intros q c Hqne [r E]%inside_spec Hq.
    assert (q ∈ prefixes dst_dir) as Hp by (apply elem_of_prefixes; by exists r).
    eapply Forall_forall in Hway; [|done]. unfold is_file_in in Hway.
    rewrite (lookup_obj_Some _ _ _ Hq) in Hway; done. }
  pose proof (wf_fs_below src_dir _ Hwf) as Hwfb.
  destruct (os_walk_Ok src_dir w) as (l & Hl & Hlisted & _ & _).
  destruct (fresh_dirs src_dir dst_dir (fs w) Hwfb Hsd Hds Hfresh' Hway' l w Hlisted)
    as [w' Hrun]; [by apply copy_inv_init|].
  assert (copy_tree src_dir dst_dir w = (Ok tt, w')) as Hct.
  { unfold copy_tree. apply bind_Ok. exists true, w. split; [by apply exists_dir|].
    cbn [negb]. apply bind_Ok. by exists l, w. }
  exists w'. split; [done|].
  apply copy_tree_Ok in Hct as (Hinv & Hd & Hc & Ht & Hlog); [|done..].
  split_and!; [|done|done].
  assert (forall r, is_dir_in (fs w) (dst_dir ++ r) = false) as Hnd.
  { intros r. apply is_dir_in_None; [by destruct dst_dir | apply Hfresh', inside_app]. }
  intros r. destruct (fs w !! (src_dir ++ r)) as [[|c]|] eqn:E.
  - apply is_dir_in_Some, Hd in E.
    apply is_dir_in_lookup in E; [done | by destruct dst_dir].
  - assert (r <> []) as Hr by (intros ->; rewrite app_nil_r in E; congruence).
    specialize (Hc r Hr c E).
    by rewrite Hnd in Hc.
  - destruct (fs w' !! (dst_dir ++ r)) as [[|c]|] eqn:E'; [exfalso..|done].
    + apply (ci_dirs _ _ _ _ Hinv) in E' as [E'|[E'|(r' & E' & Hr')]].
      * by rewrite (Hfresh' _ (inside_app _ _)) in E'.
      * apply inside_spec in E' as [y E']. rewrite <- app_assoc in E'.
        apply (f_equal length) in E'. rewrite !length_app in E'.
        assert (r = []) as -> by (destruct r; [done | cbn in E'; lia]).
        rewrite app_nil_r in E. congruence.
      * apply app_inv_head in E' as <-.
        destruct r as [|x r]; [rewrite app_nil_r in E; congruence|].
        apply is_dir_in_lookup in Hr'; [congruence | by destruct src_dir].
    + apply (ci_files _ _ _ _ Hinv) in E' as [E'|(r' & _ & Hf & [E'|[_ E']])].
      * by rewrite (Hfresh' _ (inside_app _ _)) in E'.
      * apply app_inv_head in E' as <-. congruence.
      * by rewrite Hnd in E'.
Qed.

(** ** What a computation leaves alone, whether it returns or raises *)

Section WorldRelation.

Variable R : world -> world -> Prop.
Hypothesis R_refl : forall w, R w w.
Hypothesis R_trans : forall w1 w2 w3, R w1 w2 -> R w2 w3 -> R w1 w3.

Lemma bind_world {A B} (m : M A) (k : A -> M B) w r w' :
  (forall r1 w1, m w = (r1, w1) -> R w w1) ->
  (forall a w1 r2 w2, m w = (Ok a, w1) -> k a w1 = (r2, w2) -> R w1 w2) ->
  bind m k w = (r, w') -> R w w'.
Proof.
  intros Hm Hk. unfold bind. destruct (m w) as [[a|e] w1] eqn:E.
  - intros H. eapply R_trans; [by eapply Hm | by eapply Hk].
  - intros [= <- <-]. by eapply Hm.
Qed.

Lemma for_each_world {A S} (body : S -> A -> M S) :
  (forall st x w r w', body st x w = (r, w') -> R w w') ->
  forall l st w r w', for_each body l st w = (r, w') -> R w w'.
Proof.
  intros Hbody. induction l as [|x l IH]; intros st w r w' H.
  { injection H as <- <-. apply R_refl. }
  cbn [for_each] in H. eapply bind_world in H; [done|by eauto|by eauto].
Qed.

Lemma lift_world {A} e (o : option A) w r w' : lift e o w = (r, w') -> R w w'.
Proof. destruct o; intros [= <- <-]; apply R_refl. Qed.

End WorldRelation.

Lemma mkdir_in_outside out f p f' :
  mkdir_in f p = inr f' -> inside out p = true -> outside_kept out f f'.
Proof.
  intros [H1 H2]%mkdir_in_inr [x ->]%inside_spec q Hq.
  destruct (f !! q) as [o|] eqn:E; [left; by apply H1|].
  destruct (f' !! q) as [o|] eqn:E'; [|by left].
  right. destruct (H2 q o E') as [?|[-> [r Hr]]]; [congruence|].
  split_and!; [done|done|]. symmetry in Hr.
  destruct (prefix_cases _ _ _ _ Hr) as [[r' ->]|[r' ->]].
  - apply inside_app.
  - by rewrite inside_app in Hq.
Qed.

Lemma write_in_outside out f p c f' :
  write_in f p c = inr f' -> inside out p = true -> outside_kept out f f'.
Proof.
  intros -> %write_in_inr Hp q Hq. left.
  rewrite lookup_insert_ne; [done|]. congruence.
Qed.





(** The steps of the script for a relation [F] between the filesystems
    before and after that making directories and writing files in [out]
    respect. *)
Section FsRelation.

Variable out : path.
Variable F : gmap (list string) obj -> gmap (list string) obj -> Prop.
Hypothesis F_refl : forall f, F f f.
Hypothesis F_trans : forall f1 f2 f3, F f1 f2 -> F f2 f3 -> F f1 f3.
Hypothesis F_mkdir : forall f p f',
  mkdir_in f p = inr f' -> inside out p = true -> F f f'.
Hypothesis F_write : forall f p c f',
  write_in f p c = inr f' -> inside out p = true -> F f f'.

Variable sys_executable : string.
Variable utcnow_at : nat -> datetime.
Variable nbconvert : list string -> gmap (list string) obj -> option (string * string).
Variables (src template_dir : path) (title : string) (execute : bool).

Collection Rel := F_refl F_trans F_mkdir F_write.

Lemma copy_world_refl w :
  F (fs w) (fs w) /\ ticks w = ticks w /\ log w = log w.
Proof using Rel. split; [apply F_refl | done]. Qed.

Lemma copy_world_trans w1 w2 w3 :
  F (fs w1) (fs w2) /\ ticks w2 = ticks w1 /\ log w2 = log w1 ->
  F (fs w2) (fs w3) /\ ticks w3 = ticks w2 /\ log w3 = log w2 ->
  F (fs w1) (fs w3) /\ ticks w3 = ticks w1 /\ log w3 = log w1.
Proof using Rel.
  intros (A1 & B1 & C1) (A2 & B2 & C2).
  split_and!; [by eapply F_trans|congruence|congruence].
Qed.

Lemma mkdir_p_rel p w r w' :
  inside out p = true -> mkdir_p p w = (r, w') ->
  F (fs w) (fs w') /\ ticks w' = ticks w /\ log w' = log w.
Proof using Rel.
  intros Hp. unfold mkdir_p. destruct (mkdir_in (fs w) p) as [e|f'] eqn:E.
  - intros [= <- <-]. apply copy_world_refl.
  - intros [= <- <-]. split; [|done]. by eapply F_mkdir.
Qed.

Lemma write_text_rel p c w r w' :
  inside out p = true -> write_text p c w = (r, w') ->
  F (fs w) (fs w') /\ ticks w' = ticks w /\ log w' = log w.
Proof using Rel.
  intros Hp. unfold write_text. destruct (write_in (fs w) p c) as [e|f'] eqn:E.
  - intros [= <- <-]. apply copy_world_refl.
  - intros [= <- <-]. split; [|done]. by eapply F_write.
Qed.

Lemma copy2_rel s d w r w' :
  inside out d = true -> copy2 s d w = (r, w') ->
  F (fs w) (fs w') /\ ticks w' = ticks w /\ log w' = log w.
Proof using Rel.
  intros [x ->]%inside_spec. rewrite copy2_run.
  destruct (lookup_obj (fs w) s) as [[|c]|]; try (intros [= <- <-]; apply copy_world_refl).
  destruct (write_in _ _ _) as [e|f'] eqn:E.
  - intros [= <- <-]. apply copy_world_refl.
  - intros [= <- <-]. split; [|done]. eapply F_write; [done|].
    destruct (is_dir_in _ _); [rewrite <- app_assoc|]; apply inside_app.
Qed.

Lemma copy_tree_rel src_dir dst_dir w r w' :
  inside out dst_dir = true -> copy_tree src_dir dst_dir w = (r, w') ->
  F (fs w) (fs w') /\ ticks w' = ticks w /\ log w' = log w.
Proof using Rel.
  intros [y ->]%inside_spec.
  set (R := fun w w' : world =>
              F (fs w) (fs w') /\ ticks w' = ticks w /\ log w' = log w).
  assert (forall w, R w w) as Hrefl by (intros; apply copy_world_refl).
  assert (forall w1 w2 w3, R w1 w2 -> R w2 w3 -> R w1 w3) as Htrans
    by (intros ???; apply copy_world_trans).
  change (copy_tree src_dir (out ++ y) w = (r, w') -> R w w').
  unfold copy_tree. intros H.
  eapply (bind_world R Htrans) in H; [done|by intros ?? [= <- <-]|].
  intros e w1 r2 w2 [= <- <-]. destruct (negb _); [by intros [= <- <-]|].
  clear H. intros H.
  eapply (bind_world R Htrans) in H; [done|by intros ?? [= <- <-]|].
  intros l w1 r3 w3 [= <- <-]. clear H.
  apply (for_each_world R Hrefl Htrans). intros [] [root files] w1 r1 w1' H1.
  eapply (bind_world R Htrans) in H1; [done|by apply lift_world|].
  intros rel w4 r4 w5 _ H4.
  eapply (bind_world R Htrans) in H4; [done| |].
  { intros r5 w6. apply mkdir_p_rel. rewrite <- app_assoc. apply inside_app. }
  intros _ w6 r6 w7 _. apply (for_each_world R Hrefl Htrans).
  intros [] f w8 r8 w9. apply copy2_rel. rewrite <- !app_assoc. apply inside_app.
Qed.

Lemma walk_world_refl w : F (fs w) (fs w) /\ ticks w = ticks w.
Proof using Rel. split; [apply F_refl | done]. Qed.

Lemma walk_world_trans w1 w2 w3 :
  F (fs w1) (fs w2) /\ ticks w2 = ticks w1 ->
  F (fs w2) (fs w3) /\ ticks w3 = ticks w2 ->
  F (fs w1) (fs w3) /\ ticks w3 = ticks w1.
Proof using Rel.
  intros (A1 & B1) (A2 & B2). split; [by eapply F_trans|congruence].
Qed.

Lemma subprocess_run_rel cv w r w' :
  inside out (cv_output_dir cv) = true ->
  subprocess_run sys_executable nbconvert cv w = (r, w') ->
  F (fs w) (fs w') /\ ticks w' = ticks w.
Proof using Rel.
  intros [x Hx]%inside_spec. unfold subprocess_run.
  destruct (nbconvert _ _) as [[name doc]|];
    [|intros [= <- <-]; split; [apply F_refl | done]].
  destruct (write_in _ _ _) as [e|f'] eqn:E; intros [= <- <-].
  - split; [apply F_refl | done].
  - split; [|done]. eapply F_write; [done|].
    rewrite Hx, <- app_assoc. apply inside_app.
Qed.

Lemma notebook_step_rel st p rel w r w' :
  rel <> [] ->
  notebook_step sys_executable nbconvert out execute st p rel w = (r, w') ->
  F (fs w) (fs w') /\ ticks w' = ticks w.
Proof using Rel.
  set (R := fun w w' : world => F (fs w) (fs w') /\ ticks w' = ticks w).
  assert (forall w, R w w) as Hrefl by (intros; apply walk_world_refl).
  assert (forall w1 w2 w3, R w1 w2 -> R w2 w3 -> R w1 w3) as Htrans
    by (intros ???; apply walk_world_trans).
  intros Hrel H. change (R w w'). unfold notebook_step in H.
  eapply (bind_world R Htrans) in H; [done|by apply lift_world|].
  intros out_html w1 r1 w1' Ho H1. clear H.
  assert (inside out (parent out_html) = true) as Hin.
  { unfold with_suffix in Ho. destruct (path_name (out ++ rel)); [done|].
    injection Ho as <- <-. rewrite parent_snoc, parent_app by done. apply inside_app. }
  eapply (bind_world R Htrans) in H1; [done| |].
  { intros r2 w2 H2. apply mkdir_p_rel in H2 as (? & ? & _); done. }
  intros _ w2 r2 w2' _ H2. clear H1.
  eapply (bind_world R Htrans) in H2; [done| |].
  { intros r3 w3. by apply subprocess_run_rel. }
  intros _ w3 r3 w3' _ H3. clear H2.
  eapply (bind_world R Htrans) in H3; [done|by apply lift_world|].
  intros rel_html w4 r4 w4' _ H4. clear H3.
  eapply (bind_world R Htrans) in H4; [done|by apply lift_world|].
  intros pos w5 r5 w5' _ H5. clear H4.
  eapply (bind_world R Htrans) in H5; [done|by apply lift_world|].
  intros root' w6 r6 w6' _ [= <- <-]. apply Hrefl.
Qed.

Lemma visit_rel st p w r w' :
  visit sys_executable nbconvert src out execute st p w = (r, w') ->
  F (fs w) (fs w') /\ ticks w' = ticks w.
Proof using Rel.
  rewrite visit_unfold.
  destruct (inside out p); [intros [= <- <-]; apply walk_world_refl|].
  destruct (relative_to p src) as [[|a rel]|];
    try (intros [= <- <-]; apply walk_world_refl).
  cbv zeta.
  destruct (ensure_dirs _ _ _ _ _ _) as [[[? ?] st1]|];
    [|intros [= <- <-]; apply walk_world_refl].
  destruct (is_dir_in (fs w) p); [intros [= <- <-]; apply walk_world_refl|].
  destruct (is_notebook (fs w) p); [|intros [= <- <-]; apply walk_world_refl].
  by apply notebook_step_rel.
Qed.

Lemma collect_tree_rel w r w' :
  collect_tree sys_executable nbconvert src out execute w = (r, w') ->
  F (fs w) (fs w') /\ ticks w' = ticks w.
Proof using Rel.
  set (R := fun w w' : world => F (fs w) (fs w') /\ ticks w' = ticks w).
  assert (forall w, R w w) as Hrefl by (intros; apply walk_world_refl).
  assert (forall w1 w2 w3, R w1 w2 -> R w2 w3 -> R w1 w3) as Htrans
    by (intros ???; apply walk_world_trans).
  intros H. change (R w w'). unfold collect_tree in H.
  eapply (bind_world R Htrans) in H; [done| |by intros ????? [= <- <-]].
  intros r1 w1 H1. unfold walk in H1.
  eapply (bind_world R Htrans) in H1; [done|by intros ?? [= <- <-]|].
  intros entries w2 r2 w2' _. apply (for_each_world R Hrefl Htrans).
  intros st x w3 r3 w3'. apply visit_rel.
Qed.

Lemma render_page_rel tree nb_count u page w r w' :
  render_page utcnow_at out template_dir title nb_count tree u page w = (r, w') ->
  F (fs w) (fs w') /\ log w' = log w.
Proof using Rel.
  set (R := fun w w' : world => F (fs w) (fs w') /\ log w' = log w).
  assert (forall w, R w w) as Hrefl by (split; [apply F_refl | done]).
  assert (forall w1 w2 w3, R w1 w2 -> R w2 w3 -> R w1 w3) as Htrans.
  { intros ??? (A1 & B1) (A2 & B2). split; [by eapply F_trans|congruence]. }
  intros H. change (R w w'). destruct page as [fname needs]. unfold render_page in H.
  eapply (bind_world R Htrans) in H; [done|by intros ?? [= <- <-]|].
  intros e w1 r1 w1' _. destruct (negb e); [by intros [= <- <-]|]. clear H. intros H.
  eapply (bind_world R Htrans) in H; [done| |].
  { intros r2 w2. unfold read_text.
    destruct (lookup_obj _ _) as [[|c]|]; by intros [= <- <-]. }
  intros src_html w2 r2 w2' _ H2. clear H.
  eapply (bind_world R Htrans) in H2; [done| |].
  { intros r3 w3. unfold render_tokens, bind, utcnow. intros [= <- <-].
    split; [apply F_refl | done]. }
  intros html_doc w3 r3 w3' _ H3.
  apply write_text_rel in H3 as (? & _ & ?); [done | apply inside_app].
Qed.

Lemma render_pages_rel nb_count tree l w r w' :
  render_pages utcnow_at out template_dir title nb_count tree l w = (r, w') ->
  F (fs w) (fs w').
Proof using Rel.
  unfold render_pages.
  apply (for_each_world (fun w w' => F (fs w) (fs w'))).
  - intros; apply F_refl.
  - intros ???; apply F_trans.
  - intros u page w4 r4 w4' H4. by apply render_page_rel in H4 as [? _].
Qed.



End FsRelation.

(** ** What is outside the output directory *)

Ltac outside_instance :=
  first [ apply outside_kept_refl
        | apply outside_kept_trans
        | intros; by eapply mkdir_in_outside
        | intros; by eapply write_in_outside ].

Lemma mkdir_p_world out p w r w' :
  inside out p = true -> mkdir_p p w = (r, w') ->
  outside_kept out (fs w) (fs w') /\ ticks w' = ticks w /\ log w' = log w.
Proof. apply (mkdir_p_rel out (outside_kept out)); outside_instance. Qed.

Lemma copy_tree_world src_dir dst_dir w r w' :
  copy_tree src_dir dst_dir w = (r, w') ->
  outside_kept dst_dir (fs w) (fs w') /\ ticks w' = ticks w /\ log w' = log w.
Proof.
  apply (copy_tree_rel dst_dir (outside_kept dst_dir));
    first [apply inside_refl | outside_instance].
Qed.

(** X11. Whether it returns or raises, [copy_tree] changes nothing
    outside the destination directory, except that it makes the missing
    directories on the way to it: no other file or directory is made,
    changed or removed; the clock is not read and the converter is not
    run. *)
Theorem X11_copy_tree_stays_in_destination (src_dir dst_dir : path)
    (w : world) (r : result unit) (w' : world) :
  copy_tree src_dir dst_dir w = (r, w') ->
  outside_kept dst_dir (fs w) (fs w') /\ ticks w' = ticks w /\ log w' = log w.
Proof. apply copy_tree_world. Qed.

Section Frames.

Variable sys_executable : string.
Variable utcnow_at : nat -> datetime.
Variable nbconvert : list string -> gmap (list string) obj -> option (string * string).
Variables (src out template_dir : path) (title : string) (execute : bool).

Lemma collect_tree_world w r w' :
  collect_tree sys_executable nbconvert src out execute w = (r, w') ->
  outside_kept out (fs w) (fs w') /\ ticks w' = ticks w.
Proof. apply (collect_tree_rel out (outside_kept out)); outside_instance. Qed.

Lemma render_page_world tree nb_count u page w r w' :
  render_page utcnow_at out template_dir title nb_count tree u page w = (r, w') ->
  outside_kept out (fs w) (fs w') /\ log w' = log w.
Proof. apply (render_page_rel out (outside_kept out)); outside_instance. Qed.

Lemma render_pages_world nb_count tree l w r w' :
  render_pages utcnow_at out template_dir title nb_count tree l w = (r, w') ->
  outside_kept out (fs w) (fs w').
Proof. apply (render_pages_rel out (outside_kept out)); outside_instance. Qed.



End Frames.

(** ** The pages and the assets of a build *)

Lemma outside_kept_Some out f f' q o :
  outside_kept out f f' -> inside out q = false -> f !! q = Some o ->
  f' !! q = Some o.
Proof. intros H Hq Ho. destruct (H q Hq) as [->|(? & _)]; [done|congruence]. Qed.

(** Two directories that lie apart: neither is the other or lies in it. *)
Lemma apart_outside (p q : path) r :
  inside p q = false -> inside q p = false -> inside p (q ++ r) = false.
Proof. intros H1 H2. by apply below_src_outside. Qed.

Lemma apart_below (p q : path) (a b : string) :
  inside p q = false -> inside q p = false ->
  inside (p ++ [a]) (q ++ [b]) = false.
Proof.
  intros H1 H2. apply inside_false. intros r E. rewrite <- app_assoc in E.
  pose proof (apart_outside p q [b] H1 H2) as H. by rewrite E, inside_app in H.
Qed.

Lemma sibling_outside (p : path) (a b : string) r :
  a <> b -> inside (p ++ [a]) (p ++ b :: r) = false.
Proof.
  intros Hab. apply inside_false. intros y E. rewrite <- app_assoc in E.
  apply app_inv_head in E. by injection E.
Qed.

Section BuildPages.

Variable sys_executable : string.
Variable utcnow_at : nat -> datetime.
Variable nbconvert : list string -> gmap (list string) obj -> option (string * string).
Variables (src out template_dir : path) (title : string) (execute : bool).

(** The pages, each with the reading of the clock that was taken for
    it. *)
Lemma render_pages_at nb_count tree : forall (l : list (string * bool)) w w',
  render_pages utcnow_at out template_dir title nb_count tree l w = (Ok tt, w') ->
  NoDup (map fst l) ->
  (forall (fname : string) (needs : bool) c,
     (fname, needs) ∈ l ->
     fs w !! (template_dir ++ [fname]) = Some (FileObj c) ->
     exists k, ticks w <= k < ticks w + length l /\
       fs w' !! (out ++ [fname]) =
         Some (FileObj (render_with (strftime (utcnow_at k)) c title nb_count
                          (if needs then Some tree else None)))) /\
  (forall q, (forall fname, fname ∈ map fst l -> q <> out ++ [fname]) ->
     fs w' !! q = fs w !! q) /\
  ticks w <= ticks w' <= ticks w + length l.
Proof.
  unfold render_pages.
  induction l as [|[f nd] l IH]; intros w w' H Hnd.
  { injection H as <-. split_and!; [by intros ??? ?%elem_of_nil|done|lia|cbn; lia]. }
  cbn [for_each] in H. apply bind_Ok in H as ([] & w1 & H1 & H2).
  cbn [map fst] in Hnd. apply NoDup_cons in Hnd as [Hf Hnd].
  assert (ticks w <= ticks w1 <= S (ticks w) /\
          (forall q, q <> out ++ [f] -> fs w1 !! q = fs w !! q)) as [Ht1 Hfr1].
  { apply render_page_Ok in H1 as [[_ ->]|(c & _ & ->)]; cbn [ticks fs].
    - split; [lia | done].
    - split; [lia|]. intros q Hq. by rewrite lookup_insert_ne. }
  destruct (IH w1 w' H2 Hnd) as (IH1 & IH2 & IH3).
  split_and!.
  - intros fname needs c [[= -> ->]|Hin]%elem_of_cons Hc.
    + exists (ticks w). split; [cbn [length]; lia|]. rewrite IH2.
      2:{ intros g Hg [_ ->]%app_inj_tail. done. }
      apply render_page_Ok in H1 as [[Hn _]|(c' & Hc' & ->)]; [congruence|].
      cbn [fs]. rewrite lookup_insert_eq. rewrite Hc in Hc'. by injection Hc' as <-.
    + destruct (IH1 fname needs c Hin) as (k & Hk & Hdoc).
      { rewrite Hfr1; [done|]. intros [_ ->]%app_inj_tail. apply Hf.
        apply list_elem_of_fmap. by exists (f, needs). }
      exists k. split; [cbn [length]; lia | done].
  - intros q Hq. rewrite IH2, Hfr1; [done| |].
    + apply Hq. by left.
    + intros g Hg. apply Hq. by right.
  - lia.
  - cbn [length]. lia.
Qed.

(** The copy of the assets keeps what is outside the three directories of
    the assets. *)
Lemma copy_assets_keeps w r w' q o :
  copy_assets out template_dir w = (r, w') ->
  inside (out ++ ["css"]) q = false -> inside (out ++ ["assets"]) q = false ->
  inside (out ++ ["js"]) q = false ->
  fs w !! q = Some o -> fs w' !! q = Some o.
Proof.
  intros H H1 H2 H3. revert H.
  set (R := fun w w' : world => fs w !! q = Some o -> fs w' !! q = Some o).
  assert (forall w1 w2 w3, R w1 w2 -> R w2 w3 -> R w1 w3) as Htrans
    by (unfold R; eauto).
  assert (forall a w r w', inside (out ++ [a]) q = false ->
            copy_tree (template_dir ++ [a]) (out ++ [a]) w = (r, w') -> R w w') as Hcopy.
  { intros a w1 r1 w1' Ha [Hk _]%copy_tree_world Hq. by eapply outside_kept_Some. }
  change (copy_assets out template_dir w = (r, w') -> R w w').
  unfold copy_assets. intros H.
  eapply (bind_world R Htrans) in H; [done|by intros ??; apply Hcopy|].
  intros _ w5 r5 w5' _ H5.
  eapply (bind_world R Htrans) in H5; [done|by intros ??; apply Hcopy|].
  intros _ w6 r6 w6' _. by apply Hcopy.
Qed.

(** The build as the sequence of its steps. *)
Lemma build_Ok w n w' :
  build_static_site sys_executable utcnow_at nbconvert src out template_dir title
    execute w = (Ok n, w') ->
  exists tree w1 w2 w3,
    collect_tree sys_executable nbconvert src out execute w = (Ok (tree, n), w1) /\
    mkdir_p out w1 = (Ok tt, w2) /\
    render_pages utcnow_at out template_dir title n tree pages w2 = (Ok tt, w3) /\
    copy_assets out template_dir w3 = (Ok tt, w').
Proof.
  unfold build_static_site. intros H.
  apply bind_Ok in H as ([tree n1] & w1 & H1 & H).
  apply bind_Ok in H as ([] & w2 & H2 & H).
  apply bind_Ok in H as ([] & w3 & H3 & H).
  apply bind_Ok in H as ([] & w4 & H4 & H). injection H as <- <-.
  by exists tree, w1, w2, w3.
Qed.

Lemma pages_names (fname : string) (needs : bool) :
  (fname, needs) ∈ pages ->
  fname <> "css" /\ fname <> "assets" /\ fname <> "js".
Proof.
  unfold pages. rewrite !elem_of_cons, elem_of_nil.
  intros [[= -> _]|[[= -> _]|[[= -> _]|[[= -> _]|[]]]]]; done.
Qed.

(** X13. The pages of a build: when the build returns, for a template
    directory and an output directory that lie apart, every page of the
    list that is a file of the template directory is in the output
    directory under its name, rendered from the template as it was before
    the build with the count and the tree that [collect_tree] returned and
    with one of the readings of the clock that the build took; it is there
    after the assets are copied, and it replaces the document of a notebook
    of that name. The build returns the count of [collect_tree]. *)
Theorem X13_pages_of_a_build (w : world) (tree : node) (n : nat) (w1 : world)
    (n' : nat) (w' : world) :
  inside out template_dir = false -> inside template_dir out = false ->
  collect_tree sys_executable nbconvert src out execute w = (Ok (tree, n), w1) ->
  build_static_site sys_executable utcnow_at nbconvert src out template_dir title
    execute w = (Ok n', w') ->
  n' = n /\
  forall (fname : string) (needs : bool) (c : string),
    (fname, needs) ∈ pages ->
    fs w !! (template_dir ++ [fname]) = Some (FileObj c) ->
    exists k, ticks w <= k < ticks w + length pages /\
      fs w' !! (out ++ [fname]) =
        Some (FileObj (render_with (strftime (utcnow_at k)) c title n
                         (if needs then Some tree else None))).
Proof.
  intros Hot Hto Hc Hb.
  apply build_Ok in Hb as (tree' & w1' & w2 & w3 & Hc' & Hm & Hp & Ha).
  rewrite Hc in Hc'. injection Hc' as <- <- <-. split; [done|].
  intros fname needs c Hin Hf.
  apply collect_tree_world in Hc as [Hk1 Ht1].
  apply (mkdir_p_world out) in Hm as (Hk2 & Ht2 & _); [|apply inside_refl].
  pose proof (apart_outside out template_dir [fname] Hot Hto) as Hout.
  assert (fs w2 !! (template_dir ++ [fname]) = Some (FileObj c)) as Hf2.
  { eapply outside_kept_Some; [exact Hk2|done|]. by eapply outside_kept_Some. }
  apply render_pages_at in Hp as (Hp & _ & _);
    [|by apply (bool_decide_unpack _)].
  destruct (Hp fname needs c Hin Hf2) as (k & Hk & Hdoc).
  exists k. split; [lia|].
  destruct (pages_names fname needs Hin) as (N1 & N2 & N3).
  eapply copy_assets_keeps; [exact Ha|..|done]; by apply sibling_outside.
Qed.

End BuildPages.

(** What lies in a directory is as it was when all changes were made in a
    directory that lies apart from it. *)
Lemma apart_same (p out : path) x f f' q :
  inside out p = false -> inside p out = false ->
  outside_kept (out ++ x) f f' -> inside p q = true -> f' !! q = f !! q.
Proof.
  intros H1 H2 Hk [r ->]%inside_spec.
  assert (inside (out ++ x) (p ++ r) = false) as Hq.
  { apply inside_false. intros y E. rewrite <- app_assoc in E.
    pose proof (apart_outside out p r H1 H2) as H. by rewrite E, inside_app in H. }
  destruct (Hk _ Hq) as [E|(_ & _ & [y E]%inside_spec)]; [done|].
  rewrite <- app_assoc in E.
  pose proof (apart_outside p out x H2 H1) as H. by rewrite E, inside_app in H.
Qed.

Lemma is_dir_in_same f f' p :
  p <> [] -> f' !! p = f !! p -> is_dir_in f' p = is_dir_in f p.
Proof. intros Hp H. unfold is_dir_in. destruct p; [done|]. cbn. by rewrite H. Qed.

Lemma mirrored_kept src dst f0 f f' :
  dst <> [] ->
  (forall q o, inside dst q = true -> f !! q = Some o -> f' !! q = Some o) ->
  mirrored src dst f0 f -> mirrored src dst f0 f'.
Proof.
  intros Hne Hk [Hd Hf].
  assert (forall r, is_dir_in f (dst ++ r) = true -> is_dir_in f' (dst ++ r) = true) as Hdir.
  { intros r H. apply is_dir_in_lookup in H; [|by destruct dst].
    apply is_dir_in_Some. eapply Hk; [apply inside_app | done]. }
  split; [by auto|].
  intros r c Hr Hc. destruct (Hf r c Hr Hc) as [H|[H1 H2]]; [left|right].
  - eapply Hk; [apply inside_app | done].
  - split; [by auto|]. eapply Hk; [apply inside_app | done].
Qed.

(** The copy of one directory of assets, in a world [ws] of the build in
    which the template is as it was in [f0]. *)
Lemma copy_asset_Ok template_dir out a f0 ws ws' :
  wf_fs f0 -> inside out template_dir = false -> inside template_dir out = false ->
  (forall q, inside template_dir q = true -> fs ws !! q = f0 !! q) ->
  is_dir_in f0 (template_dir ++ [a]) = true ->
  copy_tree (template_dir ++ [a]) (out ++ [a]) ws = (Ok tt, ws') ->
  mirrored (template_dir ++ [a]) (out ++ [a]) f0 (fs ws').
Proof.
  intros Hwf Hot Hto Hsame Hdir H.
  assert (forall r, fs ws !! ((template_dir ++ [a]) ++ r) = f0 !! ((template_dir ++ [a]) ++ r))
    as Hs by (intros r; apply Hsame; rewrite <- app_assoc; apply inside_app).
  assert (forall r, is_dir_in (fs ws) ((template_dir ++ [a]) ++ r)
                    = is_dir_in f0 ((template_dir ++ [a]) ++ r)) as Hsd.
  { intros r. apply is_dir_in_same; [by destruct template_dir | apply Hs]. }
  apply copy_tree_Ok in H as (Hinv & Hd & Hc & _).
  - split.
    + intros r Hr. apply Hd. by rewrite Hsd.
    + intros r c Hr Hf. rewrite <- Hs in Hf. specialize (Hc r Hr c Hf).
      destruct (is_dir_in (fs ws) ((out ++ [a]) ++ r)) eqn:E; [right|by left].
      split; [|done]. apply is_dir_in_lookup in E; [|by destruct out].
      apply is_dir_in_Some. by apply (ci_dirs_kept _ _ _ _ Hinv).
  - intros r o Hr Ho. rewrite Hs in Ho. apply Hwf in Ho.
    rewrite parent_app in * by done. by rewrite Hsd.
  - by apply apart_below.
  - by apply apart_below.
  - specialize (Hsd []). by rewrite app_nil_r, Hdir in Hsd.
Qed.

Section BuildAssets.

Variable sys_executable : string.
Variable utcnow_at : nat -> datetime.
Variable nbconvert : list string -> gmap (list string) obj -> option (string * string).
Variables (src out template_dir : path) (title : string) (execute : bool).

(** X14. The assets of a build: when the build returns, in a filesystem
    that was well-formed and for a template directory and an output
    directory that lie apart, each of the directories [css], [assets] and
    [js] of the template has its image in the output directory: a directory
    for each directory, and for each file a file with its content, at the
    mirrored place or, if a directory is in that place, in that directory
    under its own name. *)
Theorem X14_assets_of_a_build (w : world) (n : nat) (w' : world) (a : string) :
  wf_fs (fs w) ->
  inside out template_dir = false -> inside template_dir out = false ->
  build_static_site sys_executable utcnow_at nbconvert src out template_dir title
    execute w = (Ok n, w') ->
  a ∈ ["css"; "assets"; "js"] ->
  mirrored (template_dir ++ [a]) (out ++ [a]) (fs w) (fs w').
Proof.
  intros Hwf Hot Hto Hb Ha.
  destruct (is_dir_in (fs w) (template_dir ++ [a])) eqn:Hdir.
  2:{ split.
      - intros r Hr. apply wf_prefix_dir in Hr; [congruence | done].
      - intros r c Hr Hf. eapply wf_prefix in Hf; [congruence | done | done]. }
  apply build_Ok in Hb as (tree & w1 & w2 & w3 & Hc & Hm & Hp & Hcp).
  apply collect_tree_world in Hc as [Hk1 _].
  apply (mkdir_p_world out) in Hm as (Hk2 & _); [|apply inside_refl].
  apply render_pages_world in Hp.
  pose proof (outside_kept_trans _ _ _ _ (outside_kept_trans _ _ _ _ Hk1 Hk2) Hp) as Hk3.
  rewrite <- (app_nil_r out) in Hk3.
  unfold copy_assets in Hcp.
  apply bind_Ok in Hcp as ([] & w4 & H4 & Hcp).
  apply bind_Ok in Hcp as ([] & w5 & H5 & H6).
  pose proof (proj1 (copy_tree_world _ _ _ _ _ H4)) as Hk4.
  pose proof (proj1 (copy_tree_world _ _ _ _ _ H5)) as Hk5.
  pose proof (proj1 (copy_tree_world _ _ _ _ _ H6)) as Hk6.
  assert (forall q, inside template_dir q = true -> fs w3 !! q = fs w !! q) as Hs3
    by (intros q Hq; exact (apart_same template_dir out [] _ _ q Hot Hto Hk3 Hq)).
  assert (forall q, inside template_dir q = true -> fs w4 !! q = fs w !! q) as Hs4.
  { intros q Hq. rewrite <- Hs3 by done.
    exact (apart_same template_dir out ["css"] _ _ q Hot Hto Hk4 Hq). }
  assert (forall q, inside template_dir q = true -> fs w5 !! q = fs w !! q) as Hs5.
  { intros q Hq. rewrite <- Hs4 by done.
    exact (apart_same template_dir out ["assets"] _ _ q Hot Hto Hk5 Hq). }
  assert (forall (b : string) f f', a <> b -> outside_kept (out ++ [b]) f f' ->
            forall q o, inside (out ++ [a]) q = true -> f !! q = Some o ->
                        f' !! q = Some o) as Hkeep.
  { intros b f f' Hab Hk q o [r ->]%inside_spec Hq.
    eapply outside_kept_Some; [exact Hk| |done].
    rewrite <- app_assoc. apply sibling_outside. congruence. }
  assert (out ++ [a] <> []) as Hne by by destruct out.
  rewrite !elem_of_cons, elem_of_nil in Ha. destruct Ha as [->|[->|[->|[]]]].
  - apply (mirrored_kept _ _ _ (fs w5)); [done|by apply (Hkeep "js")|].
    apply (mirrored_kept _ _ _ (fs w4)); [done|by apply (Hkeep "assets")|].
    exact (copy_asset_Ok template_dir out "css" (fs w) w3 w4 Hwf Hot Hto Hs3 Hdir H4).
  - apply (mirrored_kept _ _ _ (fs w5)); [done|by apply (Hkeep "js")|].
    exact (copy_asset_Ok template_dir out "assets" (fs w) w4 w5 Hwf Hot Hto Hs4 Hdir H5).
  - exact (copy_asset_Ok template_dir out "js" (fs w) w5 w' Hwf Hot Hto Hs5 Hdir H6).
Qed.

End BuildAssets.

(** ** The count, the runs of the converter and the links *)

Lemma replace_char_same c s :
  Str.replace (String c EmptyString) (String c EmptyString) s = s.
Proof.
  induction s as [|x s IH]; [done|]. rewrite replace_char_eq, IH.
  destruct (Ascii.eqb_spec c x) as [->|]; done.
Qed.

Section BuildCount.

Variable sys_executable : string.
Variable utcnow_at : nat -> datetime.
Variable nbconvert : list string -> gmap (list string) obj -> option (string * string).
Variables (src out template_dir : path) (title : string) (execute : bool).

Lemma render_pages_log nb_count tree l w r w' :
  render_pages utcnow_at out template_dir title nb_count tree l w = (r, w') ->
  log w' = log w.
Proof.
  unfold render_pages.
  apply (for_each_world (fun w w' => log w' = log w)); [done|congruence|].
  intros u page w4 r4 w4' H4. by apply render_page_world in H4 as [_ ?].
Qed.

Lemma copy_assets_log w r w' :
  copy_assets out template_dir w = (r, w') -> log w' = log w.
Proof.
  set (R := fun w w' : world => log w' = log w).
  assert (forall w1 w2 w3, R w1 w2 -> R w2 w3 -> R w1 w3) as Htrans
    by (unfold R; congruence).
  assert (forall a w r w',
            copy_tree (template_dir ++ [a]) (out ++ [a]) w = (r, w') -> R w w') as Hcopy.
  { intros a w1 r1 w1' (_ & _ & ?)%copy_tree_world. done. }
  change (copy_assets out template_dir w = (r, w') -> R w w').
  unfold copy_assets. intros H.
  eapply (bind_world R Htrans) in H; [done|by intros ??; apply Hcopy|].
  intros _ w5 r5 w5' _ H5.
  eapply (bind_world R Htrans) in H5; [done|by intros ??; apply Hcopy|].
  intros _ w6 r6 w6' _. by apply Hcopy.
Qed.

(** The notebooks to convert are listed in the order of their paths. *)
Lemma notebooks_sorted (w : world) : StronglySorted path_le (notebooks src out w).
Proof.
  unfold notebooks.
  pose proof (sorted_StronglySorted (rglob_in (fs w) src)) as Hs.
  induction Hs as [|p l Hs IH Hall]; [constructor|].
  rewrite filter_cons. case_decide; [|done].
  constructor; [done|].
  apply Forall_forall. intros q [_ Hq]%list_elem_of_filter.
  by apply (proj1 (Forall_forall _ _) Hall).
Qed.

(** X15. The count of a build: when the build returns, the number it
    returns is the number of the notebooks below the source root that are
    not inside the output path, and the converter was run once for each of
    them, in the order of their paths, and for nothing else: rendering the
    pages and copying the assets run no converter. *)
Theorem X15_count_of_a_build (w : world) (n : nat) (w' : world) :
  build_static_site sys_executable utcnow_at nbconvert src out template_dir title
    execute w = (Ok n, w') ->
  n = length (notebooks src out w) /\
  log w' = log w ++ map (conv_of src out execute) (notebooks src out w) /\
  StronglySorted path_le (notebooks src out w).
Proof.
  intros (tree & w1 & w2 & w3 & Hc & Hm & Hp & Ha)%build_Ok.
  apply collect_tree_Ok in Hc as (st & Hw & -> & _).
  apply walk_spec in Hw as [b Hinv].
  apply (mkdir_p_world out) in Hm as (_ & _ & Hl2); [|apply inside_refl].
  apply render_pages_log in Hp. apply copy_assets_log in Ha.
  split_and!; [apply (li_count _ _ _ _ _ _ _ _ _ _ Hinv)| |apply notebooks_sorted].
  rewrite Ha, Hp, Hl2. apply (li_log _ _ _ _ _ _ _ _ _ _ Hinv).
Qed.

(** X16. The errors of [collect_tree]: it raises only when a notebook is
    to be converted, and then [CalledProcessError], when the converter
    fails, or [FileExistsError] or [NotADirectoryError], when a file is in
    the way of the directory of a document; the lookups in [dir_map] and
    the relative paths never fail. *)
Theorem X16_errors_of_collect_tree (w : world) (e : exn) (w' : world) :
  collect_tree sys_executable nbconvert src out execute w = (Raise e, w') ->
  (e = CalledProcessError \/ e = FileExistsError \/ e = NotADirectoryError) /\
  exists p, p ∈ notebooks src out w.
Proof.
  intros Hw%collect_tree_Raise.
  apply walk_spec in Hw as (d1 & p & d2 & st1 & w1 & b1 & Hl & _ & _ & Hp & Hf).
  split.
  - destruct Hf as [[_ [->| ->]]|[-> _]]; auto.
  - exists p. unfold notebooks. apply list_elem_of_filter. split.
    + by rewrite Hp.
    + rewrite Hl. apply elem_of_app. right. by left.
Qed.

(** X17. The links of the tree: when [collect_tree] returns, and the
    converter gave the document of every notebook the name that it was
    passed with [--output], the field [nb_html] of every file node of the
    tree is the path, relative to the output root and with [/] between its
    parts, of a file that is there, the document of a notebook. The script
    itself does not look whether the document is there: with a converter
    that chooses another name the link leads nowhere. *)
Theorem X17_links_lead_to_documents (w : world) (t : node) (n : nat) (w' : world)
    (name path nb_html : string) :
  collect_tree sys_executable nbconvert src out execute w = (Ok (t, n), w') ->
  (forall p, p ∈ notebooks src out w ->
     names_as_told sys_executable nbconvert src out execute p) ->
  File name path nb_html ∈ files_of t ->
  exists p rel_html doc,
    p ∈ notebooks src out w /\
    out ++ rel_html = output_path src out p /\
    nb_html = Str.join "/" rel_html /\
    fs w' !! (out ++ rel_html) = Some (FileObj doc).
Proof.
  intros (st & Hw & _ & ->)%collect_tree_Ok Htold Hin.
  apply walk_spec in Hw as [b Hinv].
  assert (files_of (match pruned (root st) with
                    | Some r => r | None => empty_root src end)
          ≡ₚ map (file_node_of src) (notebooks src out w)) as Hfiles.
  { rewrite <- (li_files _ _ _ _ _ _ _ _ _ _ Hinv).
    destruct (pruned (root st)) as [r|] eqn:Hp.
    - by rewrite (proj1 (pruned_files _) _ Hp).
    - by rewrite (proj2 (pruned_files _) Hp). }
  rewrite Hfiles in Hin. apply list_elem_of_fmap in Hin as (p & Hn & Hp).
  destruct (li_docs _ _ _ _ _ _ _ _ _ _ Hinv p Hp) as (nm & doc & Hnm & Hdoc).
  rewrite (Htold p Hp nm Hnm) in Hdoc.
  unfold conv_of in Hdoc. cbn [cv_output_dir cv_output] in Hdoc.
  rewrite <- app_assoc in Hdoc.
  exists p, (removelast (rel_of src p) ++ [name_with_suffix (path_name (rel_of src p)) ".html"]), doc.
  split_and!; [done|done| |done].
  unfold file_node_of in Hn. injection Hn as _ _ ->.
  change (Str.replace_from "/" "/" 0) with (Str.replace "/" "/").
  rewrite (replace_char_same "/"). unfold str_rel.
  by destruct (removelast (rel_of src p)).
Qed.

End BuildCount.

(** ** What is never removed *)




Section Grows.

Variable sys_executable : string.
Variable utcnow_at : nat -> datetime.
Variable nbconvert : list string -> gmap (list string) obj -> option (string * string).
Variables (src out template_dir : path) (title : string) (execute : bool).







(** X19. [IGNORE_DIRS] is not consulted: a notebook in a directory of that
    list, as [.git] or [node_modules], is converted and gets its file node
    as any other notebook, unless it lies inside the output path. *)
Theorem X19_ignore_dirs_are_walked (w : world) (t : node) (n : nat) (w' : world)
    (d : string) (rest : path) (c : string) :
  collect_tree sys_executable nbconvert src out execute w = (Ok (t, n), w') ->
  d ∈ IGNORE_DIRS ->
  is_dir_in (fs w) src = true ->
  fs w !! (src ++ d :: rest) = Some (FileObj c) ->
  Str.lower (suffix (src ++ d :: rest)) = ".ipynb" ->
  inside out (src ++ d :: rest) = false ->
  conv_of src out execute (src ++ d :: rest) ∈ log w' /\
  file_node_of src (src ++ d :: rest) ∈ files_of t.
Proof.
  intros Hc Hd Hsrc Hf Hs Hin.
  apply collect_tree_Ok in Hc as (st & Hw & _ & ->).
  apply walk_spec in Hw as [b Hinv].
  assert (src ++ d :: rest ∈ notebooks src out w) as Hp.
  { apply (proj2 (elem_of_notebooks nbconvert src out w _)).
    split_and!; [done| |by eexists|done| |].
    - apply elem_of_parents. by exists (d :: rest).
    - eapply is_dir_in_file; [by destruct src | done].
    - by rewrite Hs. }
  split.
  - rewrite (li_log _ _ _ _ _ _ _ _ _ _ Hinv). apply elem_of_app. right.
    apply list_elem_of_fmap. by exists (src ++ d :: rest).
  - assert (files_of (match pruned (root st) with
                      | Some r => r | None => empty_root src end)
            ≡ₚ map (file_node_of src) (notebooks src out w)) as ->.
    { rewrite <- (li_files _ _ _ _ _ _ _ _ _ _ Hinv).
      destruct (pruned (root st)) as [r|] eqn:Hpr.
      - by rewrite (proj1 (pruned_files _) _ Hpr).
      - by rewrite (proj2 (pruned_files _) Hpr). }
    apply list_elem_of_fmap. by exists (src ++ d :: rest).
Qed.

End Grows.

(** ** The errors *)

(** A loop that raises does so in its body, after the entries before have
    been gone through. *)
Lemma for_each_Raise {A S} (body : S -> A -> M S) : forall l st w e w',
  for_each body l st w = (Raise e, w') ->
  exists l1 x l2 st1 w1,
    l = l1 ++ x :: l2 /\ for_each body l1 st w = (Ok st1, w1) /\
    body st1 x w1 = (Raise e, w').
Proof.
  induction l as [|x l IH]; intros st w e w' H; [done|].
  cbn [for_each] in H. apply bind_Raise in H as [H|(st1 & w1 & H1 & H2)].
  - by exists [], x, l, st, w.
  - destruct (IH _ _ _ _ H2) as (l1 & y & l2 & st2 & w2 & -> & Hl1 & Hy).
    exists (x :: l1), y, l2, st2, w2. split_and!; [done| |done].
    cbn [for_each]. apply bind_Ok. by exists st1, w1.
Qed.

Lemma write_in_inl f p c e :
  write_in f p c = inl e -> is_dir_in f (parent p) = true ->
  e = IsADirectoryError.
Proof.
  unfold write_in, is_dir_in.
  destruct (lookup_obj f p) as [[|?]|]; [by intros [= <-]|..];
    by destruct (lookup_obj f (parent p)) as [[|?]|].
Qed.

Lemma listed_app src f l1 l2 : listed src f (l1 ++ l2) -> listed src f l1.
Proof. intros H d fl Hd. apply H, elem_of_app. by left. Qed.

(** [copy_tree] when it raises: a file is in the way of a directory, or a
    directory is in the place of a copy. *)
Lemma copy_tree_Raise src dst w e w' :
  wf_below src (fs w) -> inside src dst = false -> inside dst src = false ->
  copy_tree src dst w = (Raise e, w') ->
  e = FileExistsError \/ e = NotADirectoryError \/ e = IsADirectoryError.
Proof.
  intros Hwf Hsd Hds H. unfold copy_tree in H.
  apply bind_Raise in H as [[=]|(ex & w0 & [= <- <-] & H)].
  destruct (negb _); [done|].
  destruct (os_walk_Ok src w) as (l & Hl & Hlisted & _).
  apply bind_Raise in H as [H|(l' & w0 & Hl' & H)]; [congruence|].
  rewrite Hl in Hl'. injection Hl' as <- <-.
  apply for_each_Raise in H as (l1 & [d fl] & l2 & [] & w1 & -> & H1 & H).
  apply (copy_dirs_Ok src dst (fs w) Hwf Hsd Hds) in H1 as (Hinv1 & _);
    [|by eapply listed_app|by apply copy_inv_init].
  destruct (Hlisted d fl) as (Hd & [rd ->]%inside_spec & Hfl);
    [apply elem_of_app; right; by left|].
  rewrite (proj2 (relative_to_Some _ _ rd) eq_refl) in H. cbn [lift] in H.
  apply bind_Raise in H as [[=]|(rel & w0 & [= <- <-] & H)].
  apply bind_Raise in H as [H|([] & w2 & H2 & H)].
  { apply mkdir_p_Raise in H as [_ [->| ->]]; auto. }
  apply mkdir_p_Ok in H2 as (f2 & Hm & ->).
  apply (copy_inv_mkdir src dst (fs w) Hwf Hsd Hds) in Hm as (Hinv2 & Hdir2 & _);
    [|done|done].
  apply for_each_Raise in H as (fl1 & name & fl2 & [] & w3 & -> & H3 & H).
  apply (copy_files_Ok src dst (fs w) Hwf Hsd Hds) in H3 as (Hinv3 & [Hm3 _] & _);
    [|done|done|].
  2:{ intros nm Hn. destruct (Hfl nm) as [c Hc]; [apply elem_of_app; by left|].
      rewrite <- app_assoc in Hc. by eexists. }
  destruct (Hfl name) as [c Hc]; [apply elem_of_app; right; by left|].
  rewrite <- app_assoc in Hc.
  rewrite copy2_run, <- !app_assoc in H.
  pose proof (ci_keep _ _ _ _ Hinv3 _ _ Hc (below_src_outside src dst Hsd Hds _)) as Hk.
  rewrite (lookup_obj_Some _ _ _ Hk) in H by by destruct src, rd.
  destruct (write_in _ _ _) as [e'|f'] eqn:Hw in H; [|done].
  injection H as -> <-. right. right.
  apply write_in_inl in Hw; [done|].
  destruct (is_dir_in (fs w3) (dst ++ rd ++ [name])) eqn:E.
  - by rewrite !app_assoc, parent_snoc, <- !app_assoc.
  - rewrite !app_assoc, parent_snoc. by apply Hm3.
Qed.

(** X20. The errors of [copy_tree]: in a well-formed filesystem and for a
    source and a destination neither of which lies in the other, it raises
    only [FileExistsError] or [NotADirectoryError], when a file is in the
    way of a directory that it makes, or [IsADirectoryError], when a
    directory is in the place of a copy; the files that it lists are
    there to be read, and no relative path fails. *)
Theorem X20_errors_of_copy_tree (src_dir dst_dir : path) (w : world) (e : exn)
    (w' : world) :
  wf_fs (fs w) ->
  inside src_dir dst_dir = false -> inside dst_dir src_dir = false ->
  copy_tree src_dir dst_dir w = (Raise e, w') ->
  e = FileExistsError \/ e = NotADirectoryError \/ e = IsADirectoryError.
Proof. intros Hwf. apply copy_tree_Raise. by apply wf_fs_below. Qed.

Section BuildErrors.

Variable sys_executable : string.
Variable utcnow_at : nat -> datetime.
Variable nbconvert : list string -> gmap (list string) obj -> option (string * string).
Variables (src out template_dir : path) (title : string) (execute : bool).






End BuildErrors.

(** ** The places of the nodes of a tree *)

Lemma elem_of_places_dir name path ch x :
  x ∈ places (Dir name path ch) <->
  exists c, c ∈ ch /\
    (x = ([node_name c], is_file c) \/
     exists y, y ∈ places c /\ x = under (node_name c) y).
Proof.
  cbn [places]. rewrite list_elem_of_In, in_flat_map. split.
  - intros (c & Hc%list_elem_of_In & Hx%list_elem_of_In). exists c. split; [done|].
    apply elem_of_cons in Hx as [->|Hx]; [by left|right].
    apply list_elem_of_fmap in Hx as (y & -> & Hy). by exists y.
  - intros (c & Hc & Hx). exists c. split; [by apply list_elem_of_In|].
    apply list_elem_of_In. destruct Hx as [->|(y & Hy & ->)]; [by left|right].
    apply list_elem_of_fmap. by exists y.
Qed.

Lemma places_file t : is_file t = true -> places t = [].
Proof. by destruct t. Qed.

Lemma places_nonempty t r b : (r, b) ∈ places t -> r <> [].
Proof.
  destruct t as [name path ch|]; [|by intros ?%elem_of_nil].
  intros (c & _ & [[= -> _]|([r' b'] & _ & [= -> _])])%elem_of_places_dir; done.
Qed.

(** Above a place there are places of directory nodes. *)
Lemma places_above (t : node) : forall r y b,
  (r ++ y, b) ∈ places t -> r <> [] -> y <> [] -> (r, false) ∈ places t.
Proof.
  induction t as [name path ch IH|] using node_induction; intros r y b Hin Hr Hy.
  2:{ by apply elem_of_nil in Hin. }
  apply elem_of_places_dir in Hin as (c & Hc & [[= E _]|([r2 b2] & Hy2 & [= E ->])]).
  { destruct r as [|a [|]]; [done|..]; destruct y; done. }
  destruct r as [|a r1]; [done|]. injection E as -> E.
  apply elem_of_places_dir. exists c. split; [done|].
  destruct r1 as [|a1 r1].
  - left. f_equal. destruct c; [done|]. by apply elem_of_nil in Hy2.
  - right. exists (a1 :: r1, false). split; [|done].
    eapply Forall_forall in IH; [|done]. cbn in E. subst r2.
    by apply (IH (a1 :: r1) y b2).
Qed.

(** A tree has a file node when it is one or has the place of one. *)
Lemma has_file_places (t : node) :
  has_file t = true <-> is_file t = true \/ exists r, (r, true) ∈ places t.
Proof.
  induction t as [name path ch IH|] using node_induction; [|split; auto].
  cbn [has_file is_file]. rewrite existsb_exists. split.
  - intros (c & Hc%list_elem_of_In & Hf). right.
    eapply Forall_forall in IH; [|done]. apply IH in Hf as [Hf|[r Hr]].
    + exists [node_name c]. apply elem_of_places_dir. exists c. split; [done|].
      left. by rewrite Hf.
    + exists (node_name c :: r). apply elem_of_places_dir. exists c. split; [done|].
      right. by exists (r, true).
  - intros [[=]|[r Hr]].
    apply elem_of_places_dir in Hr as (c & Hc & Hx). exists c.
    split; [by apply list_elem_of_In|].
    eapply Forall_forall in IH; [|done]. apply IH.
    destruct Hx as [[= _ E]|([r2 b2] & Hy & [= _ ->])]; [by left|right].
    by exists r2.
Qed.

Lemma pruned_is_file n t : pruned n = Some t -> is_file t = is_file n.
Proof.
  destruct n as [name path ch|]; [|by intros [= <-]].
  rewrite prune_dir. by destruct (existsb has_file ch); intros [= <-].
Qed.

Lemma elem_of_omap_pruned (ch : list node) (c' : node) :
  c' ∈ omap pruned ch <-> exists c, c ∈ ch /\ pruned c = Some c'.
Proof. apply list_elem_of_omap. Qed.

(** The places of a pruned tree: the places of the file nodes, and the
    places of the directory nodes that have the place of a file node
    below them. *)
Lemma pruned_places (n : node) : forall t r b,
  pruned n = Some t ->
  ((r, b) ∈ places t <->
   (r, b) ∈ places n /\
   (b = true \/ exists y, y <> [] /\ (r ++ y, true) ∈ places n)).
Proof.
  induction n as [name path ch IH|] using node_induction; intros t r b Ht.
  2:{ injection Ht as <-. cbn. split; [by intros ?%elem_of_nil | by intros [?%elem_of_nil _]]. }
  rewrite prune_dir in Ht. destruct (existsb has_file ch); [|done].
  injection Ht as <-. split.
  - intros (c' & (c & Hc & Hp)%elem_of_omap_pruned & Hx)%elem_of_places_dir.
    pose proof (pruned_name _ _ Hp) as En. pose proof (pruned_is_file _ _ Hp) as Ef.
    rewrite En, Ef in Hx.
    pose proof (proj1 (Forall_forall _ _) IH c Hc) as IHc.
    destruct Hx as [[= -> ->]|([r2 b2] & Hy & [= -> ->])].
    + split.
      * apply elem_of_places_dir. exists c. split; [done | by left].
      * destruct (is_file c) eqn:Efc; [by left|right].
        assert (has_file c = true) as Hf
          by (apply pruned_is_Some; by eexists).
        apply has_file_places in Hf as [Hf|[r Hr]]; [congruence|].
        exists r. split; [by eapply places_nonempty|].
        apply elem_of_places_dir. exists c. split; [done|]. right. by exists (r, true).
    + apply (IHc c' r2 b2 Hp) in Hy as [Hy Hb]. split.
      * apply elem_of_places_dir. exists c. split; [done|]. right. by exists (r2, b2).
      * destruct Hb as [->|(y & Hy1 & Hy2)]; [by left|right].
        exists y. split; [done|]. apply elem_of_places_dir. exists c.
        split; [done|]. right. by exists (r2 ++ y, true).
  - intros [Hin Hb].
    assert (forall c r2, c ∈ ch -> (r2, true) ∈ places c ->
              exists c', pruned c = Some c' /\ (r2, true) ∈ places c') as Hfile.
    { intros c r2 Hc Hr2.
      assert (is_Some (pruned c)) as [c' Hp].
      { apply pruned_is_Some, has_file_places. right. by exists r2. }
      exists c'. split; [done|].
      apply (proj1 (Forall_forall _ _) IH c Hc c' r2 true Hp). split; [done | by left]. }
    assert (forall c c' z, c ∈ ch -> pruned c = Some c' -> z ∈ places c' ->
              under (node_name c) z ∈ places (Dir name path (omap pruned ch))) as Hlift.
    { intros c c' z Hc Hp Hz. apply elem_of_places_dir. exists c'.
      split; [apply elem_of_omap_pruned; by exists c|].
      right. exists z. by rewrite (pruned_name _ _ Hp). }
    destruct b.
    + apply elem_of_places_dir in Hin as (c & Hc & [[= -> Ef]|([r2 b2] & Hy & [= -> <-])]).
      * apply elem_of_places_dir. exists c. split; [|left; by rewrite <- Ef].
        apply elem_of_omap_pruned. exists c. split; [done|]. by destruct c.
      * destruct (Hfile c r2 Hc Hy) as (c' & Hp & Hr2).
        by apply (Hlift c c' (r2, true)).
    + destruct Hb as [[=]|(y & Hy1 & Hy2)].
      apply elem_of_places_dir in Hy2 as (c & Hc & [[= E _]|([r2 b2] & Hy & [= E <-])]).
      { apply places_nonempty in Hin. destruct r as [|a [|]]; [done|..]; by destruct y. }
      destruct (Hfile c r2 Hc Hy) as (c' & Hp & Hr2).
      apply places_nonempty in Hin as Hr. destruct r as [|a r1]; [done|].
      injection E as -> E. subst r2. destruct r1 as [|a1 r1].
      * apply elem_of_places_dir. exists c'.
        split; [apply elem_of_omap_pruned; by exists c|]. left.
        rewrite (pruned_name _ _ Hp). f_equal.
        destruct c'; [done | by apply elem_of_nil in Hr2].
      * apply (Hlift c c' (a1 :: r1, false)); [done|done|].
        by apply (places_above c' (a1 :: r1) y true).
Qed.

(** ** The places and the walk *)

(** An append keeps the places of the positions. *)
Lemma place_of_append c pos0 : forall pos t t' r,
  append_at pos0 c t = Some t' -> place_of pos t = Some r ->
  place_of pos t' = Some r.
Proof.
  induction pos0 as [|j pos0 IH]; intros pos [name path ch|] t' r Ha Hp; try done.
  - injection Ha as <-. destruct pos as [|i pos]; [done|].
    cbn [place_of children] in *.
    destruct (ch !! i) as [x|] eqn:Hi; [|done].
    by rewrite (lookup_app_l_Some _ _ _ _ Hi).
  - cbn [append_at] in Ha.
    destruct (ch !! j) as [tj|] eqn:Hj; [|done].
    destruct (append_at pos0 c tj) as [tj'|] eqn:Hb; [|done].
    injection Ha as <-. destruct pos as [|i pos]; [done|].
    cbn [place_of children] in *.
    destruct (decide (i = j)) as [->|Hne].
    + rewrite Hj in Hp. rewrite list_lookup_insert_eq by by eapply lookup_lt_Some.
      destruct (place_of pos tj) as [r'|] eqn:Hr; [|done].
      rewrite (IH _ _ _ _ Hb Hr).
      by destruct (append_at_root _ _ _ _ Hb) as [-> _].
    + by rewrite list_lookup_insert_ne.
Qed.

(** The place of the child that is appended. *)
Lemma place_of_append_new c pos0 : forall t t' d r,
  append_at pos0 c t = Some t' -> get_node pos0 t = Some d ->
  place_of pos0 t = Some r ->
  place_of (pos0 ++ [length (children d)]) t' = Some (r ++ [node_name c]).
Proof.
  induction pos0 as [|j pos0 IH]; intros [name path ch|] t' d r Ha Hg Hp; try done.
  - injection Ha as <-. injection Hg as <-. injection Hp as <-.
    cbn [app place_of children]. by rewrite list_lookup_middle.
  - cbn [append_at get_node place_of children] in *.
    destruct (ch !! j) as [tj|] eqn:Hj; [|done].
    destruct (append_at pos0 c tj) as [tj'|] eqn:Hb; [|done].
    injection Ha as <-.
    destruct (place_of pos0 tj) as [r'|] eqn:Hr; [|done]. injection Hp as <-.
    cbn [app place_of children].
    rewrite list_lookup_insert_eq by by eapply lookup_lt_Some.
    rewrite (IH _ _ _ _ Hb Hg Hr).
    by destruct (append_at_root _ _ _ _ Hb) as [-> _].
Qed.

(** An append of a node without children adds its place. *)
Lemma places_append c pos0 : forall t t' r,
  append_at pos0 c t = Some t' -> place_of pos0 t = Some r -> places c = [] ->
  places t' ≡ₚ places t ++ [(r ++ [node_name c], is_file c)].
Proof.
  induction pos0 as [|j pos0 IH]; intros [name path ch|] t' r Ha Hp Hc; try done.
  - injection Ha as <-. injection Hp as <-. cbn [places].
    rewrite flat_map_app. cbn [flat_map]. by rewrite Hc.
  - cbn [append_at place_of children] in *.
    destruct (ch !! j) as [tj|] eqn:Hj; [|done].
    destruct (append_at pos0 c tj) as [tj'|] eqn:Hb; [|done].
    injection Ha as <-.
    destruct (place_of pos0 tj) as [r'|] eqn:Hr; [|done]. injection Hp as <-.
    cbn [places].
    destruct (flat_map_insert
                (fun c0 => ([node_name c0], is_file c0)
                           :: map (under (node_name c0)) (places c0))
                ch j tj tj' Hj) as [-> ->].
    destruct (append_at_root _ _ _ _ Hb) as (-> & -> & ->).
    change (map (under (node_name tj))) with (fmap (M := list) (under (node_name tj))).
    rewrite (IH _ _ _ Hb Hr Hc), fmap_app. cbn [fmap list_fmap under fst snd app].
    rewrite <- !app_assoc. cbn [app]. apply Permutation_app_head.
    apply Permutation_skip. rewrite <- !app_assoc.
    apply Permutation_app_head. exact (Permutation_cons_append _ _).
Qed.

Lemma placed_init src out f0 : placed src out f0 [] (init_state src).
Proof.
  split; cbn [init_state root dir_map].
  - intros k pos [-> <-]%lookup_singleton_Some. exists []. by rewrite app_nil_r.
  - intros r. unfold converted. rewrite filter_nil. cbn.
    split; by intros ?%elem_of_nil.
Qed.

(** The directory nodes that [ensure_dirs] makes are at the places of their
    directories. *)
Lemma ensure_dirs_placed src out f0 done b rel : forall parts i cur pn st tail c' pn' st',
  walk_inv src b st -> placed src out f0 done st ->
  dir_map st !! cur = Some pn -> b = cur ++ parts ++ tail ->
  ensure_dirs rel i parts cur pn st = Some (c', pn', st') ->
  placed src out f0 done st'.
Proof.
  induction parts as [|p parts IH]; intros i cur pn st tail c' pn' st' Hinv Hpl Hcur Hb H.
  { by injection H as <- <- <-. }
  cbn [ensure_dirs] in H.
  assert (b = (cur ++ [p]) ++ parts ++ tail) as Hb' by by rewrite <- app_assoc.
  destruct (dir_map st !! (cur ++ [p])) as [pos|] eqn:Hk.
  { rewrite Hk in H. by apply (IH _ _ _ _ tail _ _ _ Hinv Hpl Hk Hb') in H. }
  destruct (inv_dirs _ _ _ Hinv _ _ Hcur) as (d & Hd & Hf). rewrite Hd in H.
  destruct (append_at_is_Some (Dir p (str_rel (take (i + 1) rel)) []) pn _ _ Hd Hf)
    as [root' Ha].
  rewrite Ha in H. cbn [dir_map] in H. rewrite lookup_insert_eq in H.
  destruct (get_node_append_new _ _ _ _ _ Ha Hd) as [Hnew Hold].
  match type of H with context [ensure_dirs _ _ _ _ _ ?s] => set (st1 := s) in * end.
  assert (walk_inv src b st1) as Hinv1.
  { apply (walk_inv_register src b
             {| nb_count := nb_count st; root := root'; dir_map := dir_map st |}
             (cur ++ [p]) _ (Dir p (str_rel (take (i + 1) rel)) []));
      cbn [dir_map root]; [|done| |done|done|done].
    - by apply (walk_inv_append src b st cur pn
                  (Dir p (str_rel (take (i + 1) rel)) []) (parts ++ tail)).
    - intros k Hk'. destruct (inv_dirs _ _ _ Hinv _ _ Hk') as (d' & Hd' & _).
      congruence. }
  destruct (pl_keys _ _ _ _ _ Hpl _ _ Hcur) as (relc & -> & Hplace).
  assert (placed src out f0 done st1) as Hpl1.
  { split; subst st1; cbn [dir_map root].
    - intros k pos. rewrite lookup_insert. case_decide as E.
      + intros [= <-]. subst k. exists (relc ++ [p]). split; [by rewrite app_assoc|].
        by rewrite (place_of_append_new _ _ _ _ _ _ Ha Hd Hplace).
      + intros Hk'. destruct (pl_keys _ _ _ _ _ Hpl _ _ Hk') as (rk & -> & Hrk).
        exists rk. split; [done|]. by eapply place_of_append.
    - intros r. rewrite (places_append _ _ _ _ _ Ha Hplace eq_refl).
      rewrite elem_of_app, list_elem_of_singleton.
      rewrite <- (pl_files _ _ _ _ _ Hpl). split; [|by left].
      by intros [?|[=]]. }
  by apply (IH _ _ _ _ tail _ _ _ Hinv1 Hpl1 (lookup_insert_eq _ _ _) Hb') in H.
Qed.

Section PlacedWalk.

Variable sys_executable : string.
Variable nbconvert : list string -> gmap (list string) obj -> option (string * string).
Variables (src out : path) (execute : bool).
Variable w0 : world.

(** The body of the loop keeps the nodes at their places. *)
Lemma visit_placed b done st w p st2 w2 :
  loop_inv sys_executable nbconvert src out execute w0 b done st w ->
  placed src out (fs w0) done st ->
  path_le b p -> src ∈ parents p -> is_Some (fs w0 !! p) ->
  visit sys_executable nbconvert src out execute st p w = (Ok st2, w2) ->
  placed src out (fs w0) (done ++ [p]) st2.
Proof.
  intros Hinv Hpl Hb (rel & Hrel & ->)%elem_of_parents [o Ho] H.
  assert (forall st', placed src out (fs w0) done st' ->
            convertible out (fs w0) (src ++ rel) = false ->
            placed src out (fs w0) (done ++ [src ++ rel]) st') as Hskip.
  { intros st' [K F] Hc. split; [done|]. intros r.
    by rewrite converted_snoc, Hc, app_nil_r. }
  rewrite visit_unfold in H. unfold convertible in Hskip.
  destruct (inside out (src ++ rel)) eqn:Hin.
  { injection H as <- <-. by apply Hskip. }
  assert (relative_to (src ++ rel) src = Some rel) as E by by apply relative_to_Some.
  rewrite E in H. clear E.
  assert (src ++ rel <> []) as Hne by (by destruct src, rel).
  assert (is_dir_in (fs w) (src ++ rel) = is_dir_in (fs w0) (src ++ rel)) as Ed.
  { eapply is_dir_in_keep; try done. by eapply li_keep. }
  assert (is_notebook (fs w) (src ++ rel) = is_notebook (fs w0) (src ++ rel)) as En.
  { unfold is_notebook. by rewrite Ed. }
  destruct rel as [|a rel'] eqn:Erel; [done|]. rewrite <- Erel in *.
  cbv zeta in H. rewrite Ed, En in H.
  set (parts := if is_dir_in (fs w0) (src ++ rel) then rel else removelast rel) in *.
  set (tail := if is_dir_in (fs w0) (src ++ rel) then [] else [path_name rel]).
  assert (rel = parts ++ tail) as Hpt.
  { subst parts tail. destruct (is_dir_in (fs w0) (src ++ rel)); [by rewrite app_nil_r|].
    by apply parent_name. }
  assert (walk_inv src (src ++ rel) st) as Hw.
  { eapply walk_inv_mono; [done|]. by destruct Hinv. }
  destruct (ensure_dirs_inv src (src ++ rel) rel parts 0 src [] st tail Hw)
    as (pn' & st1 & He & Hw1 & Hl1 & _);
    [by eapply inv_root | by rewrite <- Hpt |].
  rewrite He in H.
  assert (placed src out (fs w0) done st1) as Hpl1.
  { eapply (ensure_dirs_placed src out (fs w0) done (src ++ rel) rel parts 0 src []
              st tail); [done|done|by eapply inv_root|by rewrite <- Hpt|done]. }
  cbn [negb andb] in Hskip.
  destruct (is_dir_in (fs w0) (src ++ rel)) eqn:Hd.
  { injection H as <- <-. apply Hskip; [done|]. unfold is_notebook. by rewrite Hd. }
  destruct (is_notebook (fs w0) (src ++ rel)) eqn:Hnb.
  2:{ injection H as <- <-. by apply Hskip. }
  subst parts. rewrite <- parent_app in Hl1 by done.
  destruct (inv_dirs _ _ _ Hw1 _ _ Hl1) as (d & Hgd & Hfd).
  destruct (notebook_step_eq sys_executable nbconvert src out execute st1 rel w pn' d)
    as (root' & Ha & Hstep); [done| |done|done|done|].
  { rewrite <- (path_name_app src) by done. by eapply is_notebook_name. }
  rewrite Hstep in H.
  apply bind_Ok in H as ([] & wa & _ & H). apply bind_Ok in H as ([] & wb & _ & H).
  injection H as <- <-.
  destruct (pl_keys _ _ _ _ _ Hpl1 _ _ Hl1) as (rp & Hrp & Hplace).
  assert (rp ++ [node_name (file_node_of src (src ++ rel))] = rel) as Hnew.
  { unfold file_node_of. cbn [node_name]. rewrite rel_of_app.
    apply (app_inv_head src). rewrite app_assoc, <- Hrp.
    rewrite <- (path_name_app src) by done. symmetry. by apply parent_name. }
  split; cbn [dir_map root].
  - intros k pos Hk. destruct (pl_keys _ _ _ _ _ Hpl1 _ _ Hk) as (rk & -> & Hrk).
    exists rk. split; [done|]. by eapply place_of_append.
  - intros r. rewrite (places_append _ _ _ _ _ Ha Hplace eq_refl), Hnew.
    rewrite converted_snoc. unfold convertible. rewrite Hin, Hnb. cbn [negb andb].
    rewrite !elem_of_app, !list_elem_of_singleton.
    rewrite <- (pl_files _ _ _ _ _ Hpl1). split.
    + intros [?|[= ->]]; [by left | by right].
    + intros [?|E]; [by left|]. right. apply app_inv_head in E. by rewrite E.
Qed.

End PlacedWalk.

Section Mirror.

Variable sys_executable : string.
Variable nbconvert : list string -> gmap (list string) obj -> option (string * string).
Variables (src out : path) (execute : bool).

(** The nodes are at their places after every part of the walk. *)
Lemma walk_placed w : forall d1 d2 st1 w1,
  sorted (rglob_in (fs w) src) = d1 ++ d2 ->
  for_each (visit sys_executable nbconvert src out execute) d1 (init_state src) w
    = (Ok st1, w1) ->
  placed src out (fs w) d1 st1.
Proof.
  induction d1 as [|p d1 IH] using rev_ind; intros d2 st1 w1 Hl H.
  { injection H as <- <-. apply placed_init. }
  rewrite for_each_app in H.
  destruct (for_each _ d1 _ w) as [[st0|e] wa] eqn:H0; [|done].
  cbn [for_each] in H. apply bind_Ok in H as (st2 & w2 & Hv & [= <- <-]).
  rewrite <- app_assoc in Hl. cbn [app] in Hl.
  destruct (walk_prefix sys_executable nbconvert src out execute w d1 p d2 st0 wa Hl H0)
    as (Hinv & Hb & Hsrc & Hex).
  eapply visit_placed; [exact Hinv| |done|done|done|exact Hv].
  by apply (IH (p :: d2) st0 wa).
Qed.

(** The places of the nodes of the tree that [collect_tree] returns. *)
Lemma collect_tree_places (w : world) (t : node) (n : nat) (w' : world) :
  collect_tree sys_executable nbconvert src out execute w = (Ok (t, n), w') ->
  (forall r, (r, true) ∈ places t <-> src ++ r ∈ notebooks src out w) /\
  (forall r, (r, false) ∈ places t <->
     r <> [] /\ exists p, p ∈ notebooks src out w /\ src ++ r ∈ parents p).
Proof.
  intros (st & Hw & _ & ->)%collect_tree_Ok.
  unfold walk in Hw. apply bind_Ok in Hw as (entries & wa & [= <- <-] & Hw).
  apply (walk_placed w _ []) in Hw; [|by rewrite app_nil_r].
  destruct Hw as [_ Hfiles]. fold (notebooks src out w) in Hfiles.
  assert (forall r p, p ∈ notebooks src out w -> src ++ r ∈ parents p ->
            exists y, y <> [] /\ (r ++ y, true) ∈ places (root st)) as Hbelow.
  { intros r p Hp (y & Hy & ->)%elem_of_parents. exists y. split; [done|].
    apply Hfiles. by rewrite app_assoc. }
  destruct (pruned (root st)) as [t|] eqn:Hp.
  - split.
    + intros r. rewrite (pruned_places _ _ r true Hp), <- Hfiles.
      split; [by intros [? _] | by split; [|left]].
    + intros r. rewrite (pruned_places _ _ r false Hp). split.
      * intros [Hin [[=]|(y & Hy & Hf)]]. split; [by eapply places_nonempty|].
        exists (src ++ r ++ y). split; [by apply Hfiles|].
        apply elem_of_parents. exists y. by rewrite app_assoc.
      * intros [Hr (p & Hp1 & Hp2)].
        destruct (Hbelow r p Hp1 Hp2) as (y & Hy & Hf).
        split; [by eapply places_above | right; by exists y].
  - assert (forall r, (r, true) ∉ places (root st)) as Hno.
    { intros r Hr.
      assert (is_Some (pruned (root st))) as [? ?]; [|congruence].
      apply pruned_is_Some, has_file_places. right. by exists r. }
    split; intros r; cbn [places empty_root flat_map].
    + split; [by intros ?%elem_of_nil|]. intros Hr%Hfiles. by destruct (Hno r).
    + split; [by intros ?%elem_of_nil|]. intros [Hr (p & Hp1 & Hp2)].
      destruct (Hbelow r p Hp1 Hp2) as (y & Hy & Hf). by destruct (Hno (r ++ y)).
Qed.


End Mirror.

(** ** The pruning of the tree that is returned *)

Section Pruning.

Variable sys_executable : string.
Variable nbconvert : list string -> gmap (list string) obj -> option (string * string).
Variables (src out : path) (execute : bool).

(** C4. Pruning keeps a directory node if and only if one of its
    descendants is a file node, and its kept children are the kept
    prunings of its children, so that every directory node of a pruned tree
    has a file node below it; the tree that [collect_tree] returns is the
    pruned one: its root is a directory node in any case, with no children
    when nothing is kept, every directory node below the root has a file
    node below it, the directory nodes are at the places, each the list of
    the names from the root down to the node, of the directories of the
    source that have a notebook to convert below them, and the file nodes
    at the places of these notebooks, so that what is removed is the
    directories without notebook and nothing else; and for a source tree
    without notebook the result is the root without children and the
    count 0. *)
Theorem C4_pruning_keeps_directories_with_notebooks w :
  (forall name path ch,
     is_Some (pruned (Dir name path ch)) <->
     exists f, f ∈ descendants (Dir name path ch) /\ is_file f = true) /\
  (forall name path ch t,
     pruned (Dir name path ch) = Some t ->
     t = Dir name path (omap pruned ch)) /\
  (forall n t d,
     pruned n = Some t -> d ∈ subnodes t -> is_file d = false ->
     exists f, f ∈ descendants d /\ is_file f = true) /\
  (forall t n w',
     collect_tree sys_executable nbconvert src out execute w = (Ok (t, n), w') ->
     is_file t = false /\ (has_file t = false -> t = empty_root src) /\
     (forall d, d ∈ descendants t -> is_file d = false ->
        exists f, f ∈ descendants d /\ is_file f = true) /\
     (forall r, (r, false) ∈ places t <->
        r <> [] /\ exists p, p ∈ notebooks src out w /\ src ++ r ∈ parents p) /\
     (forall r, (r, true) ∈ places t <-> src ++ r ∈ notebooks src out w)) /\
  (notebooks src out w = [] ->
   collect_tree sys_executable nbconvert src out execute w =
     (Ok (empty_root src, 0), w)).
Proof.
  split_and!.
  - intros name path ch. by rewrite pruned_is_Some, has_file_descendants.
  - intros name path ch t. rewrite prune_dir.
    by destruct (existsb has_file ch); intros [= <-].
  - intros n t d Ht Hd Hf.
    pose proof (pruned_dirs_have_file _ _ Ht) as Hall.
    eapply Forall_forall in Hall; [|done].
    destruct d as [name path ch|]; [|done]. by apply has_file_descendants.
  - intros t n w' Hc.
    destruct (collect_tree_places _ _ _ _ _ _ _ _ _ Hc) as [Hfiles Hdirs].
    apply collect_tree_Ok in Hc as (st & Hw & _ & ->).
    apply walk_spec in Hw as [b Hinv]. apply root_is_dir in Hinv.
    split_and!; [| | |done|done].
    + destruct (pruned (root st)) as [r|] eqn:Hp; [|done].
      destruct (root st) as [name path ch|]; [|done].
      rewrite prune_dir in Hp. destruct (existsb has_file ch); [|done].
      by injection Hp as <-.
    + destruct (pruned (root st)) as [r|] eqn:Hp; [|done].
      intros Hr. apply pruned_has_file in Hp. congruence.
    + destruct (pruned (root st)) as [r|] eqn:Hp.
      2:{ by intros d ?%elem_of_nil. }
      intros d Hd Hf.
      pose proof (pruned_dirs_have_file _ _ Hp) as Hall.
      assert (d ∈ subnodes r) as Hd'.
      { destruct r; [by right | by apply elem_of_nil in Hd]. }
      eapply Forall_forall in Hall; [|exact Hd'].
      destruct d as [name path ch|]; [|done]. by apply has_file_descendants.
  - intros Hnb. unfold collect_tree, bind.
    destruct (walk _ _ _ _ _ w) as [[st|e] w'] eqn:Hw; apply walk_spec in Hw.
    + destruct Hw as [b Hinv]. fold (notebooks src out w) in Hinv.
      destruct Hinv as [_ _ _ Hfiles Hcount _ _ _ _ _ Hsame].
      unfold notebooks in Hnb. unfold converted in *.
      rewrite Hnb in *. cbn [map length] in *.
      rewrite (Hsame eq_refl), Hcount.
      apply Permutation_nil_r in Hfiles.
      assert (has_file (root st) = false) as Hh.
      { apply has_file_count. by rewrite count_files_length, Hfiles. }
      change (fst (prune_empty_dirs (root st))) with (pruned (root st)).
      destruct (pruned (root st)) as [r|] eqn:Hp; [|done].
      assert (is_Some (pruned (root st))) as Hs by by eexists.
      apply pruned_is_Some in Hs. congruence.
    + destruct Hw as (d1 & p & d2 & st1 & w1 & b1 & Hl & _ & _ & Hc & _).
      assert (p ∈ notebooks src out w) as Hp.
      { unfold notebooks. apply list_elem_of_filter. split; [by apply Is_true_true|].
        rewrite Hl. apply elem_of_app. right. by left. }
      rewrite Hnb in Hp. by apply elem_of_nil in Hp.
Qed.

End Pruning.

(** ** The further properties on the example worlds *)

Lemma run_result {A} (p : result A * world) (r : result A) :
  fst p = r -> p = (r, snd p).
Proof. destruct p as [r' w]. cbn. by intros ->. Qed.

Lemma X1_pruning_is_idempotent_witness :
  pruned ExRest.kept = Some ExRest.kept /\
  files_of ExRest.kept = files_of ExRest.unpruned.
Proof.
  apply (X1_pruning_is_idempotent ExRest.unpruned ExRest.kept).
  vm_compute. reflexivity.
Defined.

Lemma X3_page_without_braces_is_unchanged_witness :
  render_with "2026-01-02 03:04 UTC" "<p>a set { x } of notes</p>" "Notebooks" 3
    (Some ExTree.tree) = "<p>a set { x } of notes</p>".
Proof.
  apply (X3_page_without_braces_is_unchanged "2026-01-02 03:04 UTC"
           "<p>a set { x } of notes</p>" "Notebooks" 3 (Some ExTree.tree)).
  vm_compute. reflexivity.
Defined.

Lemma X4_token_shape_witness :
  is_token "TITLE" "{{ TITLE}}" <->
  exists w1 w2, "{{ TITLE}}" = "{{" +:+ w1 +:+ "TITLE" +:+ w2 +:+ "}}" /\
                allspace w1 = true /\ allspace w2 = true.
Proof.
  apply (X4_token_shape "TITLE" "{{ TITLE}}"). vm_compute. reflexivity.
Defined.


Lemma X8_copy_tree_copies_witness :
  (forall r, is_dir_in (fs ExRest.w_again) (ExRest.css ++ r) = true ->
     is_dir_in (fs ExRest.w_again_css) (ExRest.site_css ++ r) = true) /\
  (forall r c, fs ExRest.w_again !! (ExRest.css ++ r) = Some (FileObj c) ->
     fs ExRest.w_again_css
       !! (if is_dir_in (fs ExRest.w_again) (ExRest.site_css ++ r)
           then ExRest.site_css ++ r ++ [path_name r] else ExRest.site_css ++ r)
       = Some (FileObj c)).
Proof.
  apply (X8_copy_tree_copies ExRest.css ExRest.site_css ExRest.w_again
           ExRest.w_again_css).
  - apply (bool_decide_unpack _). vm_compute. exact I.
  - vm_compute. reflexivity.
  - vm_compute. reflexivity.
  - vm_compute. reflexivity.
  - unfold ExRest.w_again_css. apply run_result. vm_compute. reflexivity.
Defined.

Lemma X9_copy_tree_without_source_witness :
  copy_tree ["template"; "js"] ["repo"; "site"; "js"] Ex.w = (Ok tt, Ex.w).
Proof.
  apply (X9_copy_tree_without_source ["template"; "js"] ["repo"; "site"; "js"] Ex.w).
  vm_compute. reflexivity.
Defined.

Lemma X10_copy_tree_into_new_directory_witness :
  exists w',
    copy_tree ExRest.css ExRest.site_css Ex.w = (Ok tt, w') /\
    (forall r, fs w' !! (ExRest.site_css ++ r) = fs Ex.w !! (ExRest.css ++ r)) /\
    ticks w' = ticks Ex.w /\ log w' = log Ex.w.
Proof.
  apply (X10_copy_tree_into_new_directory ExRest.css ExRest.site_css Ex.w).
  - apply (bool_decide_unpack _). vm_compute. exact I.
  - vm_compute. reflexivity.
  - vm_compute. reflexivity.
  - apply (bool_decide_unpack _). vm_compute. exact I.
  - apply (bool_decide_unpack _). vm_compute. exact I.
Defined.

Lemma X11_copy_tree_stays_in_destination_witness :
  outside_kept ExRest.site_css (fs ExRest.w_again) (fs ExRest.w_again_css) /\
  ticks ExRest.w_again_css = ticks ExRest.w_again /\
  log ExRest.w_again_css = log ExRest.w_again.
Proof.
  apply (X11_copy_tree_stays_in_destination ExRest.css ExRest.site_css ExRest.w_again
           (Ok tt) ExRest.w_again_css).
  unfold ExRest.w_again_css. apply run_result. vm_compute. reflexivity.
Defined.

Lemma X13_pages_of_a_build_witness :
  3 = 3 /\
  forall (fname : string) (needs : bool) (c : string),
    (fname, needs) ∈ pages ->
    fs Ex.w !! (Ex.template_dir ++ [fname]) = Some (FileObj c) ->
    exists k, ticks Ex.w <= k < ticks Ex.w + length pages /\
      fs ExRest.w_built !! (Ex.out ++ [fname]) =
        Some (FileObj (render_with (strftime (Ex.clock k)) c "Notebooks" 3
                         (if needs then Some ExTree.tree else None))).
Proof.
  apply (X13_pages_of_a_build "python3" Ex.clock Ex.converter Ex.src Ex.out
           Ex.template_dir "Notebooks" false Ex.w ExTree.tree 3 ExTree.w_converted
           3 ExRest.w_built).
  - vm_compute. reflexivity.
  - vm_compute. reflexivity.
  - unfold ExTree.w_converted. apply run_result. vm_compute. reflexivity.
  - unfold ExRest.w_built. apply run_result. vm_compute. reflexivity.
Defined.

Lemma X14_assets_of_a_build_witness :
  mirrored (Ex.template_dir ++ ["css"]) (Ex.out ++ ["css"]) (fs Ex.w)
    (fs ExRest.w_built).
Proof.
  apply (X14_assets_of_a_build "python3" Ex.clock Ex.converter Ex.src Ex.out
           Ex.template_dir "Notebooks" false Ex.w 3 ExRest.w_built "css").
  - apply (bool_decide_unpack _). vm_compute. exact I.
  - vm_compute. reflexivity.
  - vm_compute. reflexivity.
  - unfold ExRest.w_built. apply run_result. vm_compute. reflexivity.
  - apply (bool_decide_unpack _). vm_compute. exact I.
Defined.

Lemma X15_count_of_a_build_witness :
  3 = length (notebooks Ex.src Ex.out Ex.w) /\
  log ExRest.w_built =
    log Ex.w ++ map (conv_of Ex.src Ex.out false) (notebooks Ex.src Ex.out Ex.w) /\
  StronglySorted path_le (notebooks Ex.src Ex.out Ex.w).
Proof.
  apply (X15_count_of_a_build "python3" Ex.clock Ex.converter Ex.src Ex.out
           Ex.template_dir "Notebooks" false Ex.w 3 ExRest.w_built).
  unfold ExRest.w_built. apply run_result. vm_compute. reflexivity.
Defined.

Lemma X16_errors_of_collect_tree_witness :
  (CalledProcessError = CalledProcessError \/
   CalledProcessError = FileExistsError \/
   CalledProcessError = NotADirectoryError) /\
  exists p, p ∈ notebooks Ex.src Ex.out Ex.w.
Proof.
  apply (X16_errors_of_collect_tree "python3" Ex.converter_failing Ex.src Ex.out false
           Ex.w CalledProcessError ExRest.w_failed).
  unfold ExRest.w_failed. apply run_result. vm_compute. reflexivity.
Defined.

Lemma X17_links_lead_to_documents_witness :
  exists p rel_html doc,
    p ∈ notebooks Ex.src Ex.out Ex.w /\
    Ex.out ++ rel_html = output_path Ex.src Ex.out p /\
    "a/b/nb1.html" = Str.join "/" rel_html /\
    fs ExTree.w_converted !! (Ex.out ++ rel_html) = Some (FileObj doc).
Proof.
  apply (X17_links_lead_to_documents "python3" Ex.converter Ex.src Ex.out false Ex.w
           ExTree.tree 3 ExTree.w_converted "nb1.ipynb" "a/b/nb1.ipynb" "a/b/nb1.html").
  - unfold ExTree.w_converted. apply run_result. vm_compute. reflexivity.
  - intros p _ name (f & doc & [= <- _]). reflexivity.
  - vm_compute. right. left.
Defined.

Lemma X19_ignore_dirs_are_walked_witness :
  conv_of Ex.src Ex.out false ["repo"; "node_modules"; "pkg"; "demo.ipynb"]
    ∈ log ExRest.w_git_converted /\
  file_node_of Ex.src ["repo"; "node_modules"; "pkg"; "demo.ipynb"]
    ∈ files_of ExRest.tree_git.
Proof.
  apply (X19_ignore_dirs_are_walked "python3" Ex.converter Ex.src Ex.out false
           ExRest.w_git ExRest.tree_git 1 ExRest.w_git_converted "node_modules"
           ["pkg"; "demo.ipynb"] "a demo").
  - unfold ExRest.w_git_converted. apply run_result. vm_compute. reflexivity.
  - apply (bool_decide_unpack _). vm_compute. exact I.
  - vm_compute. reflexivity.
  - vm_compute. reflexivity.
  - vm_compute. reflexivity.
  - vm_compute. reflexivity.
Defined.

Lemma X20_errors_of_copy_tree_witness :
  FileExistsError = FileExistsError \/ FileExistsError = NotADirectoryError \/
  FileExistsError = IsADirectoryError.
Proof.
  apply (X20_errors_of_copy_tree ExRest.css ExRest.site_css ExRest.w_blocked
           FileExistsError ExRest.w_blocked_css).
  - apply (bool_decide_unpack _). vm_compute. exact I.
  - vm_compute. reflexivity.
  - vm_compute. reflexivity.
  - unfold ExRest.w_blocked_css. apply run_result. vm_compute. reflexivity.
Defined.


